(** * pyGAPS: micropore size distribution (Horvath-Kawazoe family)

    A shallow embedding of [pygaps/characterisation/psd_microporous.py]
    (driver [psd_microporous], kernels [psd_horvath_kawazoe] and
    [psd_horvath_kawazoe_ry], per-point solvers [_solve_hk] and
    [_solve_hk_cy], dispersion constants), of the argument checks of the
    IAST entry points exercised by [tests/calculations/test_iast.py], of
    the model registry of [pygaps/calculations/models_isotherm/__init__.py]
    ([get_isotherm_model], [is_iast_model]) and of
    [pygaps/calculations/initial_enthalpy.py] ([initial_enthalpy_comp],
    [initial_enthalpy_point]).

    Conventions of the embedding:
    - a float (Python [float], [numpy.float64]) is an exact rational, or one
      of the IEEE special values [inf], [-inf], [nan]; rounding, overflow and
      the sign of zero are not modelled;
    - a one-dimensional [numpy] array is a [list float];
    - a Python exception is a value of [exn], and code that may raise runs in
      the error monad [result]; the division of Python floats raises
      [ZeroDivisionError] on a zero divisor ([py_div]), that of [numpy]
      floats and arrays does not ([Float.div]); a division by a non-zero
      literal cannot raise and is written with the latter;
    - the driver's calls to its collaborators (isotherm, adsorbate, material
      registry, plotting) are recorded in a trace, monad [io];
    - [scipy.constants], [numpy.exp], [numpy.log], [numpy.sin],
      [scipy.optimize.minimize_scalar] and [get_hk_model] are not part of the
      sources at hand: they are the fields of the class [NumLib]; what
      [initial_enthalpy.py] takes from [numpy], [scipy] and [Adsorbate] are
      the fields of the class [InitialEnthalpy.FitLib]. *)

From Stdlib Require Import String Ascii List ZArith QArith Qcanon Lia Bool Sorted.
From Equations Require Import Equations.
Import ListNotations.

(** ** Floats *)

Module Float.

Inductive float : Type :=
| Fin (q : Qc)          (* a finite value *)
| Inf (neg : bool)      (* [Inf false] is +inf, [Inf true] is -inf *)
| NaN.

Definition of_Q (q : Q) : float := Fin (Q2Qc q).
Definition of_Z (z : Z) : float := Fin (Q2Qc (inject_Z z)).

Definition Qc_ltb (a b : Qc) : bool :=
  match (a ?= b)%Qc with Lt => true | _ => false end.

Definition Qc_is_zero (a : Qc) : bool :=
  match (a ?= 0)%Qc with Eq => true | _ => false end.

Definition eqb (x y : float) : bool :=
  match x, y with
  | Fin a, Fin b => match (a ?= b)%Qc with Eq => true | _ => false end
  | Inf s, Inf t => Bool.eqb s t
  | _, _ => false                       (* nan == nan is False *)
  end.

Definition is_zero (x : float) : bool :=
  match x with Fin a => Qc_is_zero a | _ => false end.

Definition opp (x : float) : float :=
  match x with
  | Fin a => Fin (- a)
  | Inf s => Inf (negb s)
  | NaN => NaN
  end.

Definition add (x y : float) : float :=
  match x, y with
  | Fin a, Fin b => Fin (a + b)
  | Fin _, Inf s | Inf s, Fin _ => Inf s
  | Inf s, Inf t => if Bool.eqb s t then Inf s else NaN
  | _, _ => NaN
  end.

Definition sub (x y : float) : float := add x (opp y).

Definition mul (x y : float) : float :=
  match x, y with
  | Fin a, Fin b => Fin (a * b)
  | Fin a, Inf s | Inf s, Fin a =>
      if Qc_is_zero a then NaN else Inf (xorb s (Qc_ltb a 0))
  | Inf s, Inf t => Inf (xorb s t)
  | _, _ => NaN
  end.

(** [numpy] true division: a zero divisor gives [inf] or [nan] (and a
    warning), never an exception. *)
Definition div (x y : float) : float :=
  match x, y with
  | Fin a, Fin b =>
      if Qc_is_zero b
      then (if Qc_is_zero a then NaN else Inf (Qc_ltb a 0))
      else Fin (a / b)
  | Fin _, Inf _ => Fin 0
  | Inf s, Fin b => Inf (xorb s (Qc_ltb b 0))
  | _, _ => NaN
  end.

(** [x < y]; any comparison with [nan] is False. *)
Definition ltb (x y : float) : bool :=
  match x, y with
  | Fin a, Fin b => Qc_ltb a b
  | Fin _, Inf s => negb s
  | Inf s, Fin _ => s
  | Inf s, Inf t => s && negb t
  | _, _ => false
  end.

Fixpoint pow_nat (x : float) (n : nat) : float :=
  match n with
  | O => Fin 1
  | S n' => mul x (pow_nat x n')
  end.

(** [x ** n] for an integer exponent. *)
Definition pow (x : float) (n : Z) : float :=
  match n with
  | Zneg p => div (Fin 1) (pow_nat x (Pos.to_nat p))
  | _ => pow_nat x (Z.to_nat n)
  end.

(** Truth value of a float: only zero is falsy ([nan] is truthy). *)
Definition truthy (x : float) : bool := negb (is_zero x).

(** Truncation toward zero of a finite value, the integer of [int(x)]. *)
Definition trunc (a : Qc) : Z := Z.quot (Qnum a) (Zpos (Qden a)).

End Float.

Export Float.

Close Scope Qc_scope.
Close Scope Q_scope.
Open Scope nat_scope.

Declare Scope float_scope.
Delimit Scope float_scope with float.
Bind Scope float_scope with float.
Infix "+" := Float.add : float_scope.
Infix "-" := Float.sub : float_scope.
Infix "*" := Float.mul : float_scope.
Infix "/" := Float.div : float_scope.
Infix "**" := Float.pow (at level 30, right associativity) : float_scope.
Infix "<?" := Float.ltb : float_scope.
Notation "- x" := (Float.opp x) : float_scope.

(** Decimal literals of the source. *)
Notation "'#' q" := (Float.of_Q q%Q) (at level 1, q constr at level 0, format "'#' q").

(** ** Exceptions and the error monad *)

Inductive exn : Type :=
| ParameterError (args : list string)
| CalculationError (args : list string)
| KeyError (key : string)
| IndexError
| ValueError
| OverflowError
| ZeroDivisionError
| TypeError
| UnboundLocalError (name : string).

Inductive result (A : Type) : Type :=
| Ok (a : A)
| Raise (e : exn).
Arguments Ok {A} a.
Arguments Raise {A} e.

Definition bind {A B} (c : result A) (k : A -> result B) : result B :=
  match c with
  | Ok a => k a
  | Raise e => Raise e
  end.

Declare Scope result_scope.
Delimit Scope result_scope with result.
Notation "x <- c ;; k" := (bind c (fun x => k))
  (at level 61, c at next level, right associativity) : result_scope.
Notation "' p <- c ;; k" := (bind c (fun x => let 'p := x in k))
  (at level 61, p pattern, c at next level, right associativity) : result_scope.

Definition is_ok {A} (c : result A) : bool :=
  match c with Ok _ => true | Raise _ => false end.

Open Scope result_scope.

(** [[f(x) for x in l]] where [f] may raise: the first exception wins. *)
Fixpoint mapM {A B} (f : A -> result B) (l : list A) : result (list B) :=
  match l with
  | [] => Ok []
  | x :: l' => y <- f x ;; ys <- mapM f l' ;; Ok (y :: ys)
  end.

(** Python float division [x / y]. *)
Definition py_div (x y : float) : result float :=
  if Float.is_zero y then Raise ZeroDivisionError else Ok (x / y)%float.

(** [int(x)]. *)
Definition py_int (x : float) : result Z :=
  match x with
  | Fin a => Ok (Float.trunc a)
  | Inf _ => Raise OverflowError
  | NaN => Raise ValueError
  end.

(** ** Strings *)

Definition dquote : string := String (ascii_of_nat 34) EmptyString.

(** [x in l] for a list of strings. *)
Definition str_in (x : string) (l : list string) : bool :=
  existsb (String.eqb x) l.

(** [repr] of a list of plain strings, as an f-string prints it:
    [['HK', 'RY']]. *)
Definition repr_str (s : string) : string := ("'" ++ s ++ "'")%string.

Definition repr_list (l : list string) : string :=
  ("[" ++ String.concat ", " (map repr_str l) ++ "]")%string.

(** [v] occurs in the text [msg]. *)
Definition mentions (msg v : string) : Prop :=
  exists pre post, msg = (pre ++ v ++ post)%string.

(** ** Property dictionaries

    A Python [dict] keeps its keys in insertion order, and the kernels
    iterate over them: an association list, looked up from the left. *)

Definition dict : Type := list (string * float).

Definition keys (d : dict) : list string := map fst d.

Fixpoint lookup (k : string) (d : dict) : option float :=
  match d with
  | [] => None
  | (k', v) :: d' => if String.eqb k k' then Some v else lookup k d'
  end.

(** [d[k]] *)
Definition getitem (d : dict) (k : string) : result float :=
  match lookup k d with
  | Some v => Ok v
  | None => Raise (KeyError k)
  end.

(** ** One-dimensional arrays *)

Definition array : Type := list float.

(** [a[-1]] *)
Definition last_item (a : array) : result float :=
  match a with
  | [] => Raise IndexError
  | x :: a' => Ok (last a' x)
  end.

(** [a[lo:hi]] for [0 <= lo], [0 <= hi]. *)
Definition slice {A} (a : list A) (lo hi : nat) : list A :=
  skipn lo (firstn hi a).

(** Binary operation on two arrays, with [numpy]'s broadcasting: equal
    shapes, or one of the two of length one; [ValueError] otherwise. *)
Definition broadcast2 (f : float -> float -> float) (a b : array) : result array :=
  if Nat.eqb (length a) (length b) then Ok (map (fun '(x, y) => f x y) (combine a b))
  else match a, b with
       | [x], _ => Ok (map (f x) b)
       | _, [y] => Ok (map (fun x => f x y) a)
       | _, _ => Raise ValueError
       end.

(** [numpy.diff(a)]: [a[1:] - a[:-1]]. *)
Definition diff (a : array) : array :=
  map (fun '(x, y) => (x - y)%float) (combine (tl a) (removelast a)).

(** [a[mask]] for a boolean array [mask]: the shapes must agree. *)
Fixpoint select {A} (mask : list bool) (a : list A) : list A :=
  match mask, a with
  | b :: mask', x :: a' => if b then x :: select mask' a' else select mask' a'
  | _, _ => []
  end.

Definition mask_index {A} (a : list A) (mask : list bool) : result (list A) :=
  if Nat.eqb (length mask) (length a) then Ok (select mask a) else Raise IndexError.

(** [numpy.sum(a)] *)
Definition np_sum (a : array) : float := fold_left Float.add a (Fin 0).

(** [range(1, n)] *)
Definition range1 (n : Z) : list Z := map Z.of_nat (seq 1 (Z.to_nat (n - 1))).

(** A loop whose body may raise. *)
Fixpoint foldM {A S} (f : S -> A -> result S) (l : list A) (s : S) : result S :=
  match l with
  | [] => Ok s
  | x :: l' => s' <- f s x ;; foldM f l' s'
  end.

(** *** [numpy.searchsorted(a, v)] (side ['left'])

    The binary search of [numpy] on one key; in its ordering of floats
    [nan] comes last. *)

Definition is_nan (x : float) : bool :=
  match x with NaN => true | _ => false end.

Definition sort_lt (x y : float) : bool :=
  (x <? y)%float || (is_nan y && negb (is_nan x)).

Equations? bsearch (a : array) (key : float) (lo hi : nat) : nat by wf (hi - lo) lt :=
  bsearch a key lo hi with lt_dec lo hi := {
    | left _ with sort_lt (nth (lo + (hi - lo) / 2) a NaN) key := {
        | true := bsearch a key (lo + (hi - lo) / 2 + 1) hi
        | false := bsearch a key lo (lo + (hi - lo) / 2) }
    | right _ := lo }.
Proof.
  all: change (fst (Nat.divmod (hi - lo) 1 0 1)) with ((hi - lo) / 2);
    assert (Hd : (hi - lo) / 2 < hi - lo) by (apply Nat.div_lt; lia); lia.
Qed.

Definition searchsorted (a : array) (v : float) : nat := bsearch a v 0 (length a).

(** ** The numeric environment *)

(** The material model handed to [get_hk_model]: a name or a dictionary. *)
Inductive material_model : Type :=
| ModelName (name : string)
| ModelDict (d : dict).

(** What [psd_microporous.py] imports from [scipy], [numpy] and
    [models_hk]. The objective handed to [minimize_scalar] may raise, and so
    may the minimiser. *)
Class NumLib : Type := {
  pi : float;                     (* scipy.constants.pi *)
  Avogadro : float;
  gas_constant : float;
  electron_mass : float;
  speed_of_light : float;
  exp : float -> float;           (* numpy.exp *)
  log : float -> float;           (* numpy.log *)
  sin : float -> float;           (* numpy.sin *)
  (* opt.minimize_scalar(fun, method='bounded', bounds=(lo, hi)).x *)
  minimize_scalar : (float -> result float) -> float -> float -> result float;
  get_hk_model : material_model -> result dict;
}.

(** Modelled from the spec: [models_hk.HK_KEYS] is not among the sources;
    the keys are the four properties required of a material (and of an
    adsorbate), each mapped to its unit. *)
Definition HK_KEYS : list (string * string) :=
  [ ("molecular_diameter", "nm");
    ("polarizability", "nm3");
    ("magnetic_susceptibility", "nm3");
    ("surface_density", "molecules/m2") ]%string.

Definition _MICRO_PSD_MODELS : list string := ["HK"; "HK-CY"; "RY"; "RY-CY"]%string.
Definition _PORE_GEOMETRIES : list string := ["slit"; "cylinder"; "sphere"]%string.

Section Kernels.

Context {L : NumLib}.
Open Scope float_scope.

(** *** Per-point solvers *)

(** The objective of [_solve_hk] at one pressure point. *)
Definition hk_objective (hk_fun : float -> result float) (p_point : float)
  (l_pore : float) : result float :=
  h <- hk_fun l_pore ;;
  Ok ((exp h - p_point) ** 2).

Definition _solve_hk (pressure : array) (hk_fun : float -> result float)
  (bound : float) : result array :=
  mapM (fun p_point => minimize_scalar (hk_objective hk_fun p_point) bound #50)
       pressure.

(** The Cheng-Yang term, [1 + 1 / c_point * numpy.log(1 - c_point)]. *)
Definition sf_corr (c_point : float) : float :=
  #1 + #1 / c_point * log (#1 - c_point).

(** The objective of [_solve_hk_cy] at one (pressure, coverage) point. *)
Definition hk_cy_objective (hk_fun : float -> result float)
  (p_point c_point : float) (l_pore : float) : result float :=
  h <- hk_fun l_pore ;;
  Ok ((exp (h - sf_corr c_point) - p_point) ** 2).

(** [loading / loading[-1]] *)
Definition coverage_of (loading : array) : result array :=
  n_max <- last_item loading ;;
  Ok (map (fun n => n / n_max) loading).

Definition _solve_hk_cy (pressure loading : array)
  (hk_fun : float -> result float) (bound : float) : result array :=
  coverage <- coverage_of loading ;;
  mapM (fun '(p_point, c_point) =>
          minimize_scalar (hk_cy_objective hk_fun p_point c_point) bound #50)
       (combine pressure coverage).

(** *** Dispersion constants *)

Definition _kirkwood_muller_dispersion_ads (p_ads m_ads : float) : float :=
  #1.5 * electron_mass * speed_of_light ** 2 * p_ads * m_ads.

Definition _kirkwood_muller_dispersion_mat (p_mat m_mat p_ads m_ads : float)
  : result float :=
  let num := #6 * electron_mass * speed_of_light ** 2 * p_ads * p_mat in
  t_ads <- py_div p_ads m_ads ;;
  t_mat <- py_div p_mat m_mat ;;
  py_div num (t_ads + t_mat).

Definition _dispersion_from_dict (ads_dict mat_dict : dict) : result (float * float) :=
  pa <- getitem ads_dict "polarizability" ;;
  let p_ads := pa * #1e-27 in
  pm <- getitem mat_dict "polarizability" ;;
  let p_mat := pm * #1e-27 in
  ma <- getitem ads_dict "magnetic_susceptibility" ;;
  let m_ads := ma * #1e-27 in
  mm <- getitem mat_dict "magnetic_susceptibility" ;;
  let m_mat := mm * #1e-27 in
  let a_ads := _kirkwood_muller_dispersion_ads p_ads m_ads in
  a_mat <- _kirkwood_muller_dispersion_mat p_mat m_mat p_ads m_ads ;;
  Ok (a_ads, a_mat).

Definition _N_over_RT (temp : float) : result float :=
  n_over_r <- py_div Avogadro gas_constant ;;
  py_div n_over_r temp.

(** *** The checks and constants shared by both kernels *)

(** Lines 374-388 (and 525-539): the two comprehensions and their
    [ParameterError]s. *)
Definition hk_parameter_checks (adsorbate_properties material_properties : dict)
  : result unit :=
  let missing :=
    filter (fun x => negb (str_in x (map fst HK_KEYS))) (keys material_properties) in
  match missing with
  | _ :: _ =>
      Raise (ParameterError
        [("Adsorbent properties dictionary is missing parameters: "
          ++ repr_list missing ++ ".")%string])
  | [] =>
      let missing :=
        filter (fun x => negb (str_in x (map fst HK_KEYS ++
                                 ["liquid_density"; "adsorbate_molar_mass"]%string)))
               (keys adsorbate_properties) in
      match missing with
      | _ :: _ =>
          Raise (ParameterError
            [("Adsorbate properties dictionary is missing parameters: "
              ++ repr_list missing ++ ".")%string])
      | [] => Ok tt
      end
  end.

(** The constants unpacked at lines 395-405 (and 546-556). *)
Record hk_constants : Type := {
  d_ads : float; d_mat : float;
  n_ads : float; n_mat : float;
  a_ads : float; a_mat : float;
  d_eff : float;
  N_over_RT : float;
}.

Definition hk_unpack (temperature : float)
  (adsorbate_properties material_properties : dict) : result hk_constants :=
  d_ads <- getitem adsorbate_properties "molecular_diameter" ;;
  d_mat <- getitem material_properties "molecular_diameter" ;;
  n_ads <- getitem adsorbate_properties "surface_density" ;;
  n_mat <- getitem material_properties "surface_density" ;;
  ' (a_ads, a_mat) <- _dispersion_from_dict adsorbate_properties material_properties ;;
  let d_eff := (d_ads + d_mat) / #2 in
  N_over_RT <- _N_over_RT temperature ;;
  Ok {| d_ads := d_ads; d_mat := d_mat; n_ads := n_ads; n_mat := n_mat;
        a_ads := a_ads; a_mat := a_mat; d_eff := d_eff; N_over_RT := N_over_RT |}.

(** The solver call made in every geometry branch. *)
Definition hk_solve (use_cy : bool) (pressure loading : array)
  (potential : float -> result float) (bound : float) : result array :=
  if use_cy then _solve_hk_cy pressure loading potential bound
  else _solve_hk pressure potential bound.

(** Lines 502-508 (and 741-747): midpoints, adsorbed volume and the
    derivative of the volume against the width. *)
Definition hk_differentiate (pore_widths loading : array)
  (liquid_density adsorbate_molar_mass : float)
  : result (array * array * array) :=
  sums <- broadcast2 Float.add (removelast pore_widths) (tl pore_widths) ;;
  let avg_pore_widths := map (fun x => x / #2) sums in
  let volume_adsorbed :=
    map (fun n => n * adsorbate_molar_mass / liquid_density / #1000) loading in
  pore_dist <- broadcast2 Float.div (diff volume_adsorbed) (diff pore_widths) ;;
  Ok (avg_pore_widths, pore_dist, tl volume_adsorbed).

(** *** Horvath-Kawazoe potentials (lines 408-500)

    The closures [potential] of the source, with the constants they
    capture as arguments. Inside a potential the pore width comes from the
    minimiser as a [numpy] float, so divisions by it do not raise; the
    constants computed before are Python floats, whose division raises on
    a zero divisor. *)

Definition hk_slit_potential (const_coeff sigma_p4_o3 sigma_p10_o9 const_term d_eff
  l_pore : float) : result float :=
  Ok (const_coeff / (l_pore - #2 * d_eff) *
      ((sigma_p4_o3 / (l_pore - d_eff) ** 3) -
       (sigma_p10_o9 / (l_pore - d_eff) ** 9) + const_term)).

(** One turn of the loop [for k in range(1, int(l_pore * 30))]; the state
    is [(a_k, b_k, k_sum)]. *)
Definition hk_cylinder_step (d_over_r : float) (st : float * float * float) (k : Z)
  : float * float * float :=
  let '(a_k, b_k, k_sum) := st in
  let kf := Float.of_Z k in
  let a_k := ((- #4.5 - kf) / kf) ** 2 * a_k in
  let b_k := ((- #1.5 - kf) / kf) ** 2 * b_k in
  let k_sum := k_sum +
    ((#1 / (kf + #1) * (#1 - d_over_r) ** (2 * k)) *
     (#0.65625 * a_k * d_over_r ** 10 - b_k * d_over_r ** 4)) in
  (a_k, b_k, k_sum).

Definition hk_cylinder_potential (const_coeff d_eff l_pore : float) : result float :=
  let d_over_r := d_eff / l_pore in
  let k_sum := #0.65625 * d_over_r ** 10 - d_over_r ** 4 in
  n <- py_int (l_pore * #30) ;;
  let '(_, _, k_sum) :=
    fold_left (hk_cylinder_step d_over_r) (range1 n) (#1, #1, k_sum) in
  Ok (const_coeff * k_sum).

Definition hk_sphere_potential (c : hk_constants) (p_12 p_22 l_pore : float)
  : result float :=
  let l_minus_d := l_pore - d_eff c in
  let d_over_l := d_eff c / l_pore in
  let n_1 := #4 * pi * (l_pore * #1e-9) ** 2 * n_mat c in
  let n_2 := #4 * pi * (l_minus_d * #1e-9) ** 2 * n_ads c in
  let t_term (x : Z) :=
    (#1 + (- #1) ** x * l_minus_d / l_pore) ** (- x) -
    (#1 - (- #1) ** x * l_minus_d / l_pore) ** (- x) in
  Ok (N_over_RT c *
      (#6 * (n_1 * p_12 + n_2 * p_22) * (l_pore / l_minus_d) ** 3) *
      (- (d_over_l ** 6) * (#1 / #12 * t_term 3%Z + #1 / #8 * t_term 2%Z) +
       (d_over_l ** 12) * (#1 / #90 * t_term 9%Z + #1 / #80 * t_term 8%Z))).

(** The [if]/[elif] chain over [pore_geometry]: the pore widths, or [None]
    when no branch is taken and [pore_widths] stays unbound. *)
Definition hk_pore_widths (pressure loading : array) (pore_geometry : string)
  (c : hk_constants) (use_cy : bool) : result (option array) :=
  if String.eqb pore_geometry "slit" then
    let sigma := #0.8583742 * d_eff c in
    let sigma_p4_o3 := sigma ** 4 / #3 in
    let sigma_p10_o9 := sigma ** 10 / #9 in
    const_coeff <- py_div (N_over_RT c * (n_ads c * a_ads c + n_mat c * a_mat c))
                          ((sigma * #1e-9) ** 4) ;;
    t10 <- py_div sigma_p10_o9 (d_eff c ** 9) ;;
    t4 <- py_div sigma_p4_o3 (d_eff c ** 3) ;;
    let const_term := t10 - t4 in
    let potential :=
      hk_slit_potential const_coeff sigma_p4_o3 sigma_p10_o9 const_term (d_eff c) in
    pore_widths <- hk_solve use_cy pressure loading potential (#2 * d_eff c) ;;
    Ok (Some (map (fun w => w - d_mat c) pore_widths))
  else if String.eqb pore_geometry "cylinder" then
    const_coeff <- py_div (#0.75 * pi * N_over_RT c *
                           (n_ads c * a_ads c + n_mat c * a_mat c))
                          ((d_eff c * #1e-9) ** 4) ;;
    let potential := hk_cylinder_potential const_coeff (d_eff c) in
    pore_widths <- hk_solve use_cy pressure loading potential (d_eff c) ;;
    Ok (Some (map (fun w => #2 * w - d_mat c) pore_widths))
  else if String.eqb pore_geometry "sphere" then
    p_12 <- py_div (a_mat c) (#4 * (d_eff c * #1e-9) ** 6) ;;
    p_22 <- py_div (a_ads c) (#4 * (d_ads c * #1e-9) ** 6) ;;
    let potential := hk_sphere_potential c p_12 p_22 in
    pore_widths <- hk_solve use_cy pressure loading potential (d_eff c) ;;
    Ok (Some (map (fun w => #2 * w - d_mat c) pore_widths))
  else Ok None.

(** Lines 510-513: the cut of the Horvath-Kawazoe kernel. *)
Definition hk_cut (points : array * array * array) : result (array * array * array) :=
  let '(avg_pore_widths, pore_dist, volume_tail) := points in
  let out := map (fun d => (#1e-3 <? d) && (d <? #1e3)) pore_dist in
  w <- mask_index avg_pore_widths out ;;
  d <- mask_index pore_dist out ;;
  v <- mask_index volume_tail out ;;
  Ok (w, d, v).

Definition psd_horvath_kawazoe (pressure loading : array) (temperature : float)
  (pore_geometry : string) (adsorbate_properties material_properties : dict)
  (use_cy : bool) : result (array * array * array) :=
  _ <- hk_parameter_checks adsorbate_properties material_properties ;;
  c <- hk_unpack temperature adsorbate_properties material_properties ;;
  widths <- hk_pore_widths pressure loading pore_geometry c use_cy ;;
  liquid_density <- getitem adsorbate_properties "liquid_density" ;;
  adsorbate_molar_mass <- getitem adsorbate_properties "adsorbate_molar_mass" ;;
  match widths with
  | None => Raise (UnboundLocalError "pore_widths")
  | Some pore_widths =>
      points <- hk_differentiate pore_widths loading liquid_density
                                 adsorbate_molar_mass ;;
      hk_cut points
  end.

(** *** Rege-Yang potentials (lines 559-739) *)

Definition ry_slit_potential (c : hk_constants)
  (sigma_mat sigma_ads s_over_da s_over_d0 l_pore : float) : result float :=
  let potential_adsorbate (_ : unit) : result float :=
    q <- py_div (n_ads c * a_ads c) (#2 * (sigma_ads * #1e-9) ** 4) ;;
    Ok (q * (- s_over_da ** 4 + s_over_da ** 10)) in
  let potential_surface (_ : unit) : result float :=
    q <- py_div (n_mat c * a_mat c) (#2 * (sigma_mat * #1e-9) ** 4) ;;
    pa <- potential_adsorbate tt ;;
    Ok (q * (- s_over_d0 ** 4 + s_over_d0 ** 10) + pa) in
  let potential_twosurface (l_pore : float) : result float :=
    q <- py_div (n_mat c * a_mat c) (#2 * (sigma_mat * #1e-9) ** 4) ;;
    Ok (q * (- s_over_d0 ** 4 + s_over_d0 ** 10
             - (sigma_mat / (l_pore - d_eff c)) ** 4
             + (sigma_mat / (l_pore - d_eff c)) ** 10)) in
  let average_potential (n_layer : float) : result float :=
    ps <- potential_surface tt ;;
    pa <- potential_adsorbate tt ;;
    Ok ((#2 * ps + (n_layer - #2) * #2 * pa) / n_layer) in
  let n_layer := (l_pore - d_mat c) / d_ads c in
  if n_layer <? #2 then
    u <- potential_twosurface l_pore ;; Ok (N_over_RT c * u)
  else
    u <- average_potential n_layer ;; Ok (N_over_RT c * u).

(** [k_sum(l_pore, ratio, n)] of the cylinder; the loop state is
    [(x_k, k_sum)]. *)
Definition ry_k_sum (l_pore ratio n : float) : result float :=
  m <- py_int (l_pore * #30) ;;
  let step (st : float * float) (k : Z) : float * float :=
    let '(x_k, k_sum) := st in
    let kf := Float.of_Z k in
    let k_sum := k_sum + (x_k * ratio ** (2 * k)) in
    let x_k := ((- n - kf) / kf) ** 2 * x_k in
    (x_k, k_sum) in
  Ok (snd (fold_left step (range1 m) (#1, #1))).

Definition ry_cylinder_general (l_pore d_x n_x a_x r1 r2 : float) : result float :=
  q <- py_div (#0.75 * pi * n_x * a_x) ((d_x * #1e-9) ** 4) ;;
  k45 <- ry_k_sum l_pore r2 #4.5 ;;
  k15 <- ry_k_sum l_pore r2 #1.5 ;;
  Ok (q * (#0.65625 * r1 ** 10 * k45 - r1 ** 4 * k15)).

(** The state of the layer loops: the variable [layer_population] (unbound
    before the first turn) and the two lists. *)
Definition layers : Type := option float * list float * list float.

(** After the loop: [layer_molecules] is the last [layer_population], a
    scalar, and the sum of a scalar is the scalar. *)
Definition ry_layer_average (c : hk_constants) (st : layers) : result float :=
  let '(layer_population, _, layer_potentials) := st in
  match layer_population with
  | None => Raise (UnboundLocalError "layer_population")
  | Some layer_molecules =>
      Ok (N_over_RT c * np_sum (map (fun u => layer_molecules * u) layer_potentials)
          / layer_molecules)
  end.

Definition ry_cylinder_potential (c : hk_constants) (l_pore : float) : result float :=
  n <- py_int ((l_pore - d_mat c) / d_ads c - #0.5) ;;
  let n_layers := (n + 1)%Z in
  let step (st : layers) (layer : Z) : result layers :=
    let '(_, layer_populations, layer_potentials) := st in
    let lf := Float.of_Z layer in
    let width := #2 * (l_pore - d_eff c - (lf - #1) * d_ads c) in
    let layer_population :=
      if d_ads c <? width then pi / sin (d_mat c / width) ** (-1) else #1 in
    layer_potential <-
      (if Z.eqb layer 1 then
         let r1 := d_eff c / l_pore in
         let r2 := (l_pore - d_eff c) / l_pore in
         ry_cylinder_general l_pore (d_eff c) (n_mat c) (a_mat c) r1 r2
       else
         let r1 := d_ads c / (l_pore - d_eff c - (lf - #2) * d_ads c) in
         let r2 := (l_pore - d_eff c - (lf - #1) * d_ads c) /
                   (l_pore - d_eff c - (lf - #2) * d_ads c) in
         ry_cylinder_general l_pore (d_ads c) (n_ads c) (a_ads c) r1 r2) ;;
    Ok (Some layer_population, layer_populations ++ [layer_population],
        layer_potentials ++ [layer_potential]) in
  st <- foldM step (range1 n_layers) (None, [], []) ;;
  ry_layer_average c st.

Definition ry_sphere_general (n_m p_xx r1 r2 : float) : float :=
  #2 * n_m * p_xx *
  ((- r1 ** 6 / (#4 * r2) * ((#1 - r2) ** (-4) - (#1 + r2) ** (-4))) +
   (r1 ** 12 / (#10 * r2) * ((#1 - r2) ** (-10) - (#1 + r2) ** (-10)))).

Definition ry_sphere_potential (c : hk_constants) (p_12 p_22 l_pore : float)
  : result float :=
  n <- py_int ((l_pore - d_mat c) / d_ads c - #0.5) ;;
  let n_layers := (n + 1)%Z in
  let step (st : layers) (layer : Z) : result layers :=
    let '(_, layer_populations, layer_potentials) := st in
    let lf := Float.of_Z layer in
    ' (layer_population, layer_potential) <-
      (if Z.eqb layer 1 then
         let layer_population := #4 * pi * l_pore ** 2 * n_mat c in
         let r1 := d_eff c / l_pore in
         let r2 := (l_pore - d_eff c) / l_pore in
         Ok (layer_population, ry_sphere_general layer_population p_12 r1 r2)
       else
         let layer_population :=
           #4 * pi * (l_pore - d_eff c - (lf - #1) * d_ads c) ** 2 * n_ads c in
         let r1 := d_ads c / (l_pore - d_eff c - (lf - #2) * d_ads c) in
         let r2 := (l_pore - d_ads c - (lf - #1) * d_ads c) /
                   (l_pore - d_ads c - (lf - #2) * d_ads c) in
         previous <- last_item layer_populations ;;
         Ok (layer_population, ry_sphere_general previous p_22 r1 r2)) ;;
    Ok (Some layer_population, layer_populations ++ [layer_population],
        layer_potentials ++ [layer_potential]) in
  st <- foldM step (range1 n_layers) (None, [], []) ;;
  ry_layer_average c st.

(** The [if]/[elif] chain of the Rege-Yang kernel. *)
Definition ry_pore_widths (pressure loading : array) (pore_geometry : string)
  (c : hk_constants) (use_cy : bool) : result (option array) :=
  if String.eqb pore_geometry "slit" then
    let sigma_mat := #0.858374219 * d_eff c in
    let sigma_ads := #0.858374219 * d_ads c in
    s_over_da <- py_div sigma_ads (d_ads c) ;;
    s_over_d0 <- py_div sigma_mat (d_eff c) ;;
    let potential := ry_slit_potential c sigma_mat sigma_ads s_over_da s_over_d0 in
    pore_widths <- hk_solve use_cy pressure loading potential (#2 * d_eff c) ;;
    Ok (Some (map (fun w => w - d_mat c) pore_widths))
  else if String.eqb pore_geometry "cylinder" then
    let potential := ry_cylinder_potential c in
    pore_widths <- hk_solve use_cy pressure loading potential (d_eff c) ;;
    Ok (Some (map (fun w => #2 * w - d_mat c) pore_widths))
  else if String.eqb pore_geometry "sphere" then
    p_12 <- py_div (a_mat c) (#4 * (d_eff c * #1e-9) ** 6) ;;
    p_22 <- py_div (a_ads c) (#4 * (d_ads c * #1e-9) ** 6) ;;
    let potential := ry_sphere_potential c p_12 p_22 in
    pore_widths <- hk_solve use_cy pressure loading potential (d_eff c) ;;
    Ok (Some (map (fun w => #2 * w - d_mat c) pore_widths))
  else Ok None.

Definition psd_horvath_kawazoe_ry (pressure loading : array) (temperature : float)
  (pore_geometry : string) (adsorbate_properties material_properties : dict)
  (use_cy : bool) : result (array * array * array) :=
  _ <- hk_parameter_checks adsorbate_properties material_properties ;;
  c <- hk_unpack temperature adsorbate_properties material_properties ;;
  widths <- ry_pore_widths pressure loading pore_geometry c use_cy ;;
  liquid_density <- getitem adsorbate_properties "liquid_density" ;;
  adsorbate_molar_mass <- getitem adsorbate_properties "adsorbate_molar_mass" ;;
  match widths with
  | None => Raise (UnboundLocalError "pore_widths")
  | Some pore_widths =>
      hk_differentiate pore_widths loading liquid_density adsorbate_molar_mass
  end.

End Kernels.

(** ** The driver and its collaborators *)

(** Modelled from the spec: the classes [Adsorbate] and [Isotherm] are not
    among the sources. An adsorbate answers [get_prop(name)],
    [liquid_density(T)] and [molar_mass()]; an isotherm has an adsorbate
    (possibly not an [Adsorbate] instance: [None] here), a temperature, and
    per branch a loading and a pressure series, [None] when the branch is
    absent. *)
Record Adsorbate : Type := {
  get_prop : string -> result float;
  liquid_density : float -> result float;
  molar_mass : result float;
}.

Record Isotherm : Type := {
  adsorbate : option Adsorbate;
  temperature : float;
  loading : string -> option array;    (* loading(branch, 'molar', 'mmol') *)
  pressure : string -> option array;   (* pressure(branch, 'relative') *)
}.

(** Calls that leave [psd_microporous]. *)
Inductive event : Type :=
| CallGetProp (name : string)
| CallLiquidDensity
| CallMolarMass
| CallGetHkModel
| CallLoading (branch : string)
| CallPressure (branch : string)
| CallPsdPlot.

(** A computation with its trace of calls; an exception ends the trace. *)
Definition io (A : Type) : Type := list event * result A.

Definition io_ret {A} (a : A) : io A := ([], Ok a).
Definition io_raise {A} (e : exn) : io A := ([], Raise e).
Definition io_call {A} (ev : event) (r : result A) : io A := ([ev], r).
Definition io_lift {A} (r : result A) : io A := ([], r).

Definition io_bind {A B} (c : io A) (k : A -> io B) : io B :=
  match c with
  | (t, Ok a) => let '(t', r) := k a in (t ++ t', r)
  | (t, Raise e) => (t, Raise e)
  end.

Declare Scope io_scope.
Delimit Scope io_scope with io.
Notation "x <- c ;; k" := (io_bind c (fun x => k))
  (at level 61, c at next level, right associativity) : io_scope.

Section Driver.

Context {L : NumLib}.

(** Lines 92-112: the checks on the three string arguments. [psd_model]
    may be [None]. The result is the validated model name. *)
Definition psd_check_arguments (psd_model : option string)
  (pore_geometry branch : string) : result string :=
  match psd_model with
  | None =>
      Raise (ParameterError
        [("Specify a model to generate the pore size distribution e.g. psd_model="
          ++ dquote ++ "HK" ++ dquote)%string])
  | Some psd_model =>
      if negb (str_in psd_model _MICRO_PSD_MODELS) then
        Raise (ParameterError
          [("Model " ++ psd_model ++ " not an option for psd. Available models are "
            ++ repr_list _MICRO_PSD_MODELS)%string])
      else if negb (str_in pore_geometry _PORE_GEOMETRIES) then
        Raise (ParameterError
          [("Geometry " ++ pore_geometry
            ++ " not an option for pore size distribution. Available geometries are "
            ++ repr_list _PORE_GEOMETRIES)%string])
      else if negb (str_in branch ["ads"; "des"]%string) then
        Raise (ParameterError
          [("Branch '" ++ branch ++ "' not an option for PSD.")%string;
           "Select either 'ads' or 'des'"%string])
      else Ok psd_model
  end.

Open Scope io_scope.

(** Lines 114-135: the adsorbate properties, from the caller or from the
    isotherm's adsorbate. *)
Definition psd_adsorbate_model (isotherm : Isotherm) (adsorbate_model : option dict)
  : io dict :=
  match adsorbate_model with
  | Some d => io_ret d
  | None =>
      match adsorbate isotherm with
      | None =>
          io_raise (ParameterError
            [("Isotherm adsorbate is not known, cannot calculate PSD."
              ++ "Either use a recognised adsorbate (i.e. nitrogen) or "
              ++ "pass a dictionary with your adsorbate parameters.")%string])
      | Some ads =>
          md <- io_call (CallGetProp "molecular_diameter")
                        (get_prop ads "molecular_diameter") ;;
          po <- io_call (CallGetProp "polarizability")
                        (get_prop ads "polarizability") ;;
          ms <- io_call (CallGetProp "magnetic_susceptibility")
                        (get_prop ads "magnetic_susceptibility") ;;
          sd <- io_call (CallGetProp "surface_density")
                        (get_prop ads "surface_density") ;;
          ld <- io_call CallLiquidDensity
                        (liquid_density ads (temperature isotherm)) ;;
          mm <- io_call CallMolarMass (molar_mass ads) ;;
          io_ret [ ("molecular_diameter", md); ("polarizability", po);
                   ("magnetic_susceptibility", ms); ("surface_density", sd);
                   ("liquid_density", ld); ("adsorbate_molar_mass", mm) ]%string
      end
  end.

(** Lines 140-153: the two series of the branch, as (pressure, loading),
    reversed on the desorption branch. *)
Definition psd_read_branch (isotherm : Isotherm) (branch : string)
  : io (array * array) :=
  l <- io_call (CallLoading branch) (Ok (loading isotherm branch)) ;;
  p <- io_call (CallPressure branch) (Ok (pressure isotherm branch)) ;;
  match l, p with
  | None, _ =>
      io_raise (ParameterError
        ["The isotherm does not have the required branch for this calculation"%string])
  | Some _, None => io_raise TypeError
  | Some l, Some p =>
      if String.eqb branch "des" then io_ret (rev p, rev l) else io_ret (p, l)
  end.

(** Truth value of one entry of [p_limits]. *)
Definition limit_set (x : option float) : option float :=
  match x with
  | Some v => if Float.truthy v then Some v else None
  | None => None
  end.

(** Lines 155-163: the index window [(minimum, maximum)]. *)
Definition psd_limits (pressure : array) (p_limits : option (option float * option float))
  : nat * nat :=
  let p_limits := match p_limits with
                  | Some l => l
                  | None => (None, Some #0.2)
                  end in
  let minimum := match limit_set (fst p_limits) with
                 | Some v => searchsorted pressure v
                 | None => 0
                 end in
  let maximum := match limit_set (snd p_limits) with
                 | Some v => searchsorted pressure v
                 | None => length pressure
                 end in
  (minimum, maximum).

(** Lines 155-170: the windowed series, or [CalculationError]. *)
Definition psd_window (pressure loading : array)
  (p_limits : option (option float * option float)) : result (array * array) :=
  let '(minimum, maximum) := psd_limits pressure p_limits in
  if (Z.of_nat maximum - Z.of_nat minimum <? 3)%Z then
    Raise (CalculationError
      [("The isotherm does not have enough points (at least 3) "
        ++ "in the selected region.")%string])
  else Ok (slice pressure minimum maximum, slice loading minimum maximum).

(** Lines 172-192: the call of the kernel. *)
Definition psd_dispatch (psd_model : string) (pressure loading : array)
  (temperature : float) (pore_geometry : string)
  (adsorbate_model material_properties : dict) : result (array * array * array) :=
  if str_in psd_model ["HK"; "HK-CY"]%string then
    psd_horvath_kawazoe pressure loading temperature pore_geometry
      adsorbate_model material_properties (negb (String.eqb psd_model "HK"))
  else if str_in psd_model ["RY"; "RY-CY"]%string then
    psd_horvath_kawazoe_ry pressure loading temperature pore_geometry
      adsorbate_model material_properties (negb (String.eqb psd_model "RY"))
  else Raise (UnboundLocalError "pore_widths").

(** The result dictionary, as the triple
    [(pore_widths, pore_distribution, pore_volume_cumulative)]. *)
Definition psd_microporous (isotherm : Isotherm) (psd_model : option string)
  (pore_geometry branch : string) (material_model : material_model)
  (adsorbate_model : option dict)
  (p_limits : option (option float * option float)) (verbose : bool)
  : io (array * array * array) :=
  psd_model <- io_lift (psd_check_arguments psd_model pore_geometry branch) ;;
  adsorbate_model <- psd_adsorbate_model isotherm adsorbate_model ;;
  material_properties <- io_call CallGetHkModel (get_hk_model material_model) ;;
  series <- psd_read_branch isotherm branch ;;
  window <- io_lift (psd_window (fst series) (snd series) p_limits) ;;
  psd <- io_lift (psd_dispatch psd_model (fst window) (snd window)
                    (temperature isotherm) pore_geometry
                    adsorbate_model material_properties) ;;
  _ <- (if verbose then io_call CallPsdPlot (Ok tt) else io_ret tt) ;;
  io_ret psd.

End Driver.

(** ** IAST entry points *)

Section Iast.

(** [iast] and [reverse_iast] are not among the sources; only
    [tests/calculations/test_iast.py] is. The component type, the
    tolerance and the two numerical solvers are left open. *)
Variable ModelIsotherm : Type.
Variable tolerance : float.
Variable iast_solve : list ModelIsotherm -> array -> result array.
Variable reverse_iast_solve :
  list ModelIsotherm -> array -> float -> result (array * array).

Open Scope float_scope.

(** Modelled from the spec: the tolerance check of [reverse_iast], which is
    not among the sources: the fractions sum to 1 within the tolerance,
    [|sum(fractions) - 1| <= tolerance]. *)
Definition sums_to_one (fractions : array) : bool :=
  let d := np_sum fractions - #1 in
  let absd := if d <? #0 then - d else d in
  negb (tolerance <? absd) && negb (is_nan absd).

(** Modelled from the spec: [iast] is not among the sources. Forward mode
    takes N component isotherms and a vector of N partial pressures and
    fails with [ParameterError] if N < 2 or the lengths differ; otherwise
    it solves for the loadings. *)
Definition iast (isotherms : list ModelIsotherm) (partial_pressures : array)
  : result array :=
  if Nat.ltb (length isotherms) 2 then
    Raise (ParameterError ["fewer than two components"%string])
  else if negb (Nat.eqb (length partial_pressures) (length isotherms)) then
    Raise (ParameterError ["partial pressures do not match the components"%string])
  else iast_solve isotherms partial_pressures.

(** Modelled from the spec: [reverse_iast] is not among the sources.
    Reverse mode takes the target adsorbed mole fractions and a total
    pressure and fails with [ParameterError] on the two conditions of the
    forward mode and if the fractions do not sum to 1 within the tolerance;
    otherwise it solves for the partial pressures and the loadings. *)
Definition reverse_iast (isotherms : list ModelIsotherm)
  (adsorbed_mole_fractions : array) (total_pressure : float)
  : result (array * array) :=
  if Nat.ltb (length isotherms) 2 then
    Raise (ParameterError ["fewer than two components"%string])
  else if negb (Nat.eqb (length adsorbed_mole_fractions) (length isotherms)) then
    Raise (ParameterError ["mole fractions do not match the components"%string])
  else if negb (sums_to_one adsorbed_mole_fractions) then
    Raise (ParameterError ["mole fractions do not sum to one"%string])
  else reverse_iast_solve isotherms adsorbed_mole_fractions total_pressure.

End Iast.

Arguments iast {ModelIsotherm} iast_solve isotherms partial_pressures.
Arguments reverse_iast {ModelIsotherm} tolerance reverse_iast_solve isotherms
  adsorbed_mole_fractions total_pressure.

Definition is_parameter_error {A} (r : result A) : Prop :=
  exists args, r = Raise (ParameterError args).

Definition is_calculation_error {A} (r : result A) : Prop :=
  exists args, r = Raise (CalculationError args).

(** ** The isotherm models ([calculations/models_isotherm/__init__.py]) *)

(** The model classes the module imports. *)
Inductive model_class : Type :=
| Henry | Langmuir | DSLangmuir | TSLangmuir | Quadratic | BET | GAB
| TemkinApprox | Virial | Toth | JensenSeaton | FHVST | WVST.

Definition _MODELS : list model_class :=
  [ Henry; Langmuir; DSLangmuir; TSLangmuir; Quadratic; BET; GAB; TemkinApprox;
    Virial; Toth; JensenSeaton; FHVST; WVST ].

Definition _GUESS_MODELS : list model_class :=
  [ Henry; Langmuir; DSLangmuir; TSLangmuir; Quadratic; BET; TemkinApprox; Toth;
    JensenSeaton ].

Definition _IAST_MODELS : list model_class :=
  [ Henry; Langmuir; DSLangmuir; TSLangmuir; Quadratic; BET; TemkinApprox; Toth;
    JensenSeaton ].

Section ModelsIsotherm.

(** The class attribute [name] of a model is set in the module of the
    model, which is not among the sources: it is left open. *)
Variable name : model_class -> string.

(** The loop returns an instance of the first class of [_MODELS] with the
    requested name. The message prints the list of the names as [repr]
    does for names without quotes or escapes. *)
Definition get_isotherm_model (model_name : string) : result model_class :=
  match find (fun _model => String.eqb model_name (name _model)) _MODELS with
  | Some _model => Ok _model
  | None =>
      Raise (ParameterError
        [("Model " ++ model_name ++ " not an option. Viable models are "
          ++ repr_list (map name _MODELS) ++ ".")%string])
  end.

Definition is_iast_model (model_name : string) : bool :=
  str_in model_name (map name _IAST_MODELS).

End ModelsIsotherm.

(** ** The initial enthalpy of adsorption ([calculations/initial_enthalpy.py]) *)

(** *** More of Python and [numpy] *)

(** [a[i]] for [0 <= i]. *)
Definition item (a : array) (i : nat) : result float :=
  match nth_error a i with
  | Some v => Ok v
  | None => Raise IndexError
  end.

(** The built-in [max(a)] over a sequence: it keeps the first item and
    replaces it by a later one only if that one is greater. *)
Definition py_max (a : array) : result float :=
  match a with
  | [] => Raise ValueError
  | x :: a' =>
      Ok (fold_left (fun best y => if (best <? y)%float then y else best) a' x)
  end.

(** [max(a, b)], [min(a, b)] and [abs(x)]. *)
Definition py_max2 (a b : float) : float := if (a <? b)%float then b else a.
Definition py_min2 (a b : float) : float := if (b <? a)%float then b else a.
Definition py_abs (x : float) : float := if (x <? #0)%float then (- x)%float else x.

(** [numpy.average(a)]: the sum over the number of items, [nan] for an
    empty array. *)
Definition average (a : array) : float :=
  (np_sum a / Float.of_Z (Z.of_nat (length a)))%float.

(** [enumerate(l)] *)
Definition enumerate {A} (l : list A) : list (nat * A) :=
  combine (seq 0 (length l)) l.

(** [numpy.delete(a, index)] for a list of indices: the items at the other
    positions; an index out of range raises [IndexError] ([numpy] 1.19 and
    later). *)
Definition np_delete (a : array) (index : list nat) : result array :=
  if forallb (fun i => Nat.ltb i (length a)) index then
    Ok (map snd (filter (fun p => negb (existsb (Nat.eqb (fst p)) index))
                        (enumerate a)))
  else Raise IndexError.

(** [d[k] = v], for values of any type: in place when the key is there,
    at the end otherwise. *)
Fixpoint setitem {V} (d : list (string * V)) (k : string) (v : V)
  : list (string * V) :=
  match d with
  | [] => [(k, v)]
  | (k', v') :: d' =>
      if String.eqb k k' then (k', v) :: d' else (k', v') :: setitem d' k v
  end.

(** [d.update(other)] *)
Definition update {V} (d other : list (string * V)) : list (string * V) :=
  fold_left (fun d kv => setitem d (fst kv) (snd kv)) other d.

(** Keyword arguments ([**param_guess]) and the dictionary that they
    update: a value is a number or [None]. *)
Definition kwargs : Type := list (string * option float).

(** What a key holds, if the key is there. *)
Fixpoint entry (k : string) (d : kwargs) : option (option float) :=
  match d with
  | [] => None
  | (k', v) :: d' => if String.eqb k k' then Some v else entry k d'
  end.

(** [d.get(k)]: what the key holds, [None] without the key. *)
Definition dict_get (d : kwargs) (k : string) : option float :=
  match entry k d with
  | Some v => v
  | None => None
  end.

(** *** Computations with a trace of calls, over any type of events *)

Definition traced (E A : Type) : Type := list E * result A.

Definition t_ret {E A} (a : A) : traced E A := ([], Ok a).
Definition t_raise {E A} (e : exn) : traced E A := ([], Raise e).
Definition t_call {E A} (ev : E) (r : result A) : traced E A := ([ev], r).
Definition t_lift {E A} (r : result A) : traced E A := ([], r).

Definition t_bind {E A B} (c : traced E A) (k : A -> traced E B) : traced E B :=
  match c with
  | (t, Ok a) => let '(t', r) := k a in (t ++ t', r)
  | (t, Raise e) => (t, Raise e)
  end.

Declare Scope traced_scope.
Delimit Scope traced_scope with traced.
Notation "x <- c ;; k" := (t_bind c (fun x => k))
  (at level 61, c at next level, right associativity) : traced_scope.

(** A loop whose body makes calls and may raise. *)
Fixpoint t_foldM {E A S} (f : S -> A -> traced E S) (l : list A) (s : S)
  : traced E S :=
  match l with
  | [] => t_ret s
  | x :: l' => t_bind (f s x) (fun s' => t_foldM f l' s')
  end.

Module InitialEnthalpy.

(** The collaborators of [initial_enthalpy.py] are not among the sources;
    their interface is what the module calls. A point isotherm answers
    [loading(branch, 'mmol', 'molar')] and [other_data(key, branch)] with
    an array or with [None], and has the name of its adsorbate, a
    temperature and two labels. An adsorbate, found by name with
    [Adsorbate.from_list], answers [enthalpy_liquefaction(T)]. *)
Record Adsorbate : Type := {
  enthalpy_liquefaction : float -> result float;
}.

Record PointIsotherm : Type := {
  loading : string -> option array;
  other_data : string -> string -> option array;
  adsorbate : string;
  t_exp : float;
  sample_name : string;
  sample_batch : string;
}.

(** What the module takes from [numpy], [scipy] and [Adsorbate], besides
    [numpy.exp]. [minimize objective guess bounds constraint disp] is
    [scipy.optimize.minimize(objective, guess, bounds=bounds,
    constraints={'type': 'ineq', 'fun': constraint}, method='SLSQP',
    options={'disp': disp, 'maxiter': 100000, 'ftol': 1e-8})], as the pair
    [(opt_res.x, opt_res.fun)]. *)
Class FitLib : Type := {
  power : float -> float -> float;          (* x ** y on numpy floats *)
  std : array -> float;                     (* numpy.std *)
  from_list : string -> result Adsorbate;   (* Adsorbate.from_list *)
  minimize : (array -> result float) -> array ->
             list (option float * option float) ->
             (array -> result array) -> bool -> result (array * float);
}.

(** Calls that leave the module: to the isotherm, to the adsorbate, to
    [warnings.warn], to [print] and to [initial_enthalpy_plot]. *)
Inductive event : Type :=
| CallLoading (branch : string)
| CallOtherData (key branch : string)
| CallFromList (name : string)
| CallEnthalpyLiquefaction
| Warn (message : string)
| Print
| CallPlot (title : string).

Definition io (A : Type) : Type := traced event A.

Open Scope traced_scope.

(** The title of the plots: the two labels and the adsorbate, joined by
    spaces. *)
Definition plot_title (isotherm : PointIsotherm) : string :=
  String.concat " " [sample_name isotherm; sample_batch isotherm; adsorbate isotherm].

(** [if verbose: print(...)] *)
Definition print_if (verbose : bool) : io unit :=
  if verbose then t_call Print (Ok tt) else t_ret tt.

Definition no_column : exn :=
  ParameterError ["Could not find enthalpy column in isotherm"%string].

(** **** [initial_enthalpy_point] (lines 284-326) *)

Definition initial_enthalpy_point (isotherm : PointIsotherm)
  (enthalpy_key branch : string) (verbose : bool) : io dict :=
  enthalpy <- t_call (CallOtherData enthalpy_key branch)
                     (Ok (other_data isotherm enthalpy_key branch)) ;;
  match enthalpy with
  | None => t_raise no_column
  | Some enthalpy =>
      initial_enthalpy <- t_lift (item enthalpy 0) ;;
      _ <- (if verbose then
              _ <- t_call Print (Ok tt) ;;
              loading <- t_call (CallLoading branch) (Ok (loading isotherm branch)) ;;
              match loading with
              | None => t_raise TypeError      (* [... for i in loading] *)
              | Some _ => t_call (CallPlot (plot_title isotherm)) (Ok tt)
              end
            else t_ret tt) ;;
      t_ret [("initial_enthalpy"%string, initial_enthalpy)]
  end.

(** **** [initial_enthalpy_comp] (lines 16-281) *)

(** Lines 42-50: the loading, scaled by its largest value, and the
    enthalpy column. *)
Definition normalise (loading : option array) : result array :=
  match loading with
  | None => Raise TypeError                    (* max(None) *)
  | Some l => m <- py_max l ;; Ok (map (fun x => (x / m)%float) l)
  end%result.

(** Lines 52-59: the points with an enthalpy below 0 or above 400 are
    deleted from both arrays. *)
Definition outliers (enthalpy : array) : list nat :=
  map fst (filter (fun p => (snd p <? #0)%float || (#400 <? snd p)%float)
                  (enumerate enthalpy)).

Definition clean (loading enthalpy : array) : result (array * array) :=
  let index := outliers enthalpy in
  if Nat.ltb 0 (length index) then
    (loading <- np_delete loading index ;;
     enthalpy <- np_delete enthalpy index ;;
     Ok (loading, enthalpy))%result
  else Ok (loading, enthalpy).

Definition read_data (isotherm : PointIsotherm) (enthalpy_key branch : string)
  : io (array * array) :=
  loading <- t_call (CallLoading branch) (Ok (loading isotherm branch)) ;;
  loading <- t_lift (normalise loading) ;;
  enthalpy <- t_call (CallOtherData enthalpy_key branch)
                     (Ok (other_data isotherm enthalpy_key branch)) ;;
  match enthalpy with
  | None => t_raise no_column
  | Some enthalpy => t_lift (clean loading enthalpy)
  end.

(** Lines 65-67: the parameters, [nan] at first. *)
Definition param_names : list string :=
  ["const"; "preexp"; "exp"; "prepowa"; "powa"; "prepowr"; "powr"]%string.

Definition initial_params : dict := map (fun name => (name, NaN)) param_names.

(** [for i, _ in enumerate(param_names): params[param_names[i]] = params_[i]] *)
Definition set_params (params : dict) (params_ : array) : result dict :=
  foldM (fun d p => (v <- item params_ (fst p) ;; Ok (setitem d (snd p) v))%result)
        (enumerate param_names) params.

Section Fit.

Context {L : NumLib} {F : FitLib}.

(** Lines 70-83: the terms of the model, closures over [params]. *)
Definition constant_term (params : dict) (l : float) : result float :=
  getitem params "const".

Definition exponential_term (params : dict) (l : float) : result float :=
  (pre <- getitem params "preexp" ;;
   e <- getitem params "exp" ;;
   Ok (pre * exp (e * l))%float)%result.

Definition power_term_repulsive (params : dict) (l : float) : result float :=
  (pre <- getitem params "prepowr" ;;
   p <- getitem params "powr" ;;
   Ok (pre * power l p)%float)%result.

Definition power_term_attractive (params : dict) (l : float) : result float :=
  (pre <- getitem params "prepowa" ;;
   p <- getitem params "powa" ;;
   Ok (pre * power l p)%float)%result.

Definition enthalpy_approx (params : dict) (l : float) : result float :=
  (c <- constant_term params l ;;
   e <- exponential_term params l ;;
   r <- power_term_repulsive params l ;;
   a <- power_term_attractive params l ;;
   Ok (c + e + r + a)%float)%result.

(** Lines 85-89. The source writes [params_] into the shared dictionary
    [params] and reads the terms from it; every later reader of [params]
    first overwrites the seven entries (here, and at lines 243-244), so
    only the value of the objective is kept. *)
Definition residual_sum_of_squares (params : dict) (loading enthalpy : array)
  (params_ : array) : result float :=
  (params <- set_params params params_ ;;
   approx <- mapM (enthalpy_approx params) loading ;;
   d <- broadcast2 Float.sub enthalpy approx ;;
   q <- broadcast2 Float.div d enthalpy ;;
   Ok (np_sum (map (fun x => x ** 2)%float q)))%result.

(** Lines 182-184: the inequality constraint. *)
Definition maximize_constant (loading : array) (params_ : array) : result array :=
  (p0 <- item params_ 0 ;; p1 <- item params_ 1 ;; p2 <- item params_ 2 ;;
   p3 <- item params_ 3 ;; p4 <- item params_ 4 ;; p5 <- item params_ 5 ;;
   p6 <- item params_ 6 ;;
   Ok (map (fun l => p0 - p1 * exp (p2 * l) - p3 * power l p4 - p5 * power l p6)%float
           loading))%result.

(** Lines 100-120: the bounds of the constant term, as
    [(bounds['const_min'], const_avg)]. A [CalculationError] of
    [enthalpy_liquefaction] is caught and turned into a warning. *)
Definition liquefaction_bound (adsorbate : Adsorbate) (t_exp const_min : float)
  : io float :=
  match enthalpy_liquefaction adsorbate t_exp with
  | Ok h => t_call CallEnthalpyLiquefaction (Ok (py_max2 h const_min))
  | Raise (CalculationError _) =>
      ([CallEnthalpyLiquefaction;
        Warn "Could not calculate liquid enthalpy, perhaps in supercritical regime"],
       Ok const_min)
  | Raise e => t_call CallEnthalpyLiquefaction (Raise e)
  end.

Definition constant_bounds (isotherm : PointIsotherm) (enthalpy : array)
  : io (float * float) :=
  let enth_avg := average enthalpy in
  let enth_stdev := std enthalpy in
  let const_min := (enth_avg - #2 * enth_stdev)%float in
  adsorbate <- t_call (CallFromList (adsorbate isotherm))
                      (from_list (adsorbate isotherm)) ;;
  const_min <- liquefaction_bound adsorbate (t_exp isotherm) const_min ;;
  let const_avg := py_max2 enth_avg const_min in
  t_ret (const_min, const_avg).

(** Lines 96-161: the dictionary of bounds before [bounds.update]. The
    keyword arguments may put [None] in it. *)
Definition default_bounds (const_min const_max : float) : kwargs :=
  [ ("const_min", Some const_min); ("const_max", Some const_max);
    ("exp_min", Some (Inf true)); ("exp_max", Some #0);
    ("preexp_min", Some #0); ("preexp_max", Some #150);
    ("powa_min", Some #1); ("powr_min", Some #1);
    ("powa_max", Some #50); ("powr_max", Some #50);
    ("prepowa_min", Some #0); ("prepowa_max", Some (Inf false));
    ("prepowr_min", Some (Inf true)); ("prepowr_max", Some #0) ]%string.

(** Lines 163-172: the seven pairs, read with [bounds.get]. *)
Definition bounds_arr (bounds : kwargs) : list (option float * option float) :=
  [ (dict_get bounds "const_min", dict_get bounds "const_max");
    (dict_get bounds "preexp_min", dict_get bounds "preexp_max");
    (dict_get bounds "exp_min", dict_get bounds "exp_max");
    (dict_get bounds "prepowa_min", dict_get bounds "prepowa_max");
    (dict_get bounds "powa_min", dict_get bounds "powa_max");
    (dict_get bounds "prepowr_min", dict_get bounds "prepowr_max");
    (dict_get bounds "powr_min", dict_get bounds "powr_max") ]%string.

(** Lines 191-212: the four starting guesses. *)
Definition start_guesses (enthalpy : array) (const_avg : float)
  : result (list array) :=
  (first <- item enthalpy 0 ;;
   let dep_first := (py_min2 (py_max2 first #0) #150 - const_avg)%float in
   last <- last_item enthalpy ;;
   let dep_last := (py_min2 (py_max2 last #0) #150 - const_avg)%float in
   Ok [ [const_avg; #0; #0; #0; #1; #0; #1];
        [const_avg; dep_first; #0; dep_last; #1; dep_last; #1];
        [const_avg; (#1.5 * dep_first)%float; #(-10); #0.01; #3; #0; #1];
        [const_avg; #0; #0; #0; #3; #(-0.01); #3] ])%result.

(** Lines 220-235: one optimisation per guess. The state of the loop is
    [(final_guess, best_fit)]; [min_fun] is [numpy.inf] and is not assigned
    in the loop. *)
Definition fit_step (objective : array -> result float)
  (bounds : list (option float * option float))
  (constraint : array -> result array) (verbose : bool)
  (st : option array * option float) (guess : array)
  : io (option array * option float) :=
  _ <- print_if verbose ;;
  opt_res <- t_lift (minimize objective guess bounds constraint verbose) ;;
  if (snd opt_res <? Inf false)%float
  then t_ret (Some (fst opt_res), Some (snd opt_res))
  else t_ret st.

Definition fit_guesses (objective : array -> result float)
  (bounds : list (option float * option float))
  (constraint : array -> result array) (verbose : bool) (guesses : list array)
  : io (option array * option float) :=
  t_foldM (fit_step objective bounds constraint verbose) guesses (None, None).

Definition fit_failed : exn :=
  CalculationError
    [String (ascii_of_nat 10) (String (ascii_of_nat 9)
       "Minimization of RSS fitting failed with all guesses")].

(** Lines 253-277: what a verbose call prints and plots at the end. *)
Definition report (isotherm : PointIsotherm) (verbose : bool) : io unit :=
  if verbose
  then ([Print; Print; Print; Print; Print; CallPlot (plot_title isotherm)], Ok tt)
  else t_ret tt.

(** Lines 237-281: from the outcome of the loop to the result. The
    dictionary of [initial_enthalpy_point] always has the key that [get]
    asks for. *)
Definition finish_fit (isotherm : PointIsotherm) (enthalpy_key branch : string)
  (verbose : bool) (params : dict) (enthalpy : array)
  (fit : option array * option float) : io dict :=
  match fst fit with
  | None => t_raise fit_failed
  | Some final_guess =>
      _ <- print_if verbose ;;
      params <- t_lift (set_params params final_guess) ;;
      initial_enthalpy <- t_lift (enthalpy_approx params #0) ;;
      first <- t_lift (item enthalpy 0) ;;
      initial_enthalpy <-
        (if (#50 <? py_abs (initial_enthalpy - first))%float then
           _ <- t_call (Warn "Probable offshoot for exponent, reverting to point method")
                       (Ok tt) ;;
           point <- initial_enthalpy_point isotherm enthalpy_key branch verbose ;;
           t_lift (getitem point "initial_enthalpy")
         else t_ret initial_enthalpy) ;;
      _ <- report isotherm verbose ;;
      t_ret (setitem params "initial_enthalpy" initial_enthalpy)
  end.

Definition initial_enthalpy_comp (isotherm : PointIsotherm)
  (enthalpy_key branch : string) (verbose : bool) (param_guess : kwargs) : io dict :=
  data <- read_data isotherm enthalpy_key branch ;;
  let loading := fst data in
  let enthalpy := snd data in
  let params := initial_params in
  cb <- constant_bounds isotherm enthalpy ;;
  let const_avg := snd cb in
  let bounds := update (default_bounds (fst cb) const_avg) param_guess in
  _ <- print_if verbose ;;
  guesses <- t_lift (start_guesses enthalpy const_avg) ;;
  fit <- fit_guesses (residual_sum_of_squares params loading enthalpy)
                     (bounds_arr bounds) (maximize_constant loading) verbose guesses ;;
  finish_fit isotherm enthalpy_key branch verbose params enthalpy fit.

End Fit.

Close Scope traced_scope.

End InitialEnthalpy.

(** ** Vocabulary of the statements *)

Section Vocabulary.

Context {L : NumLib}.
Open Scope float_scope.

(** [width] is what the bounded minimisation returns for one pressure
    point, without and with the Cheng-Yang term; [n_max] is the last
    loading. *)
Definition solved_point (hk_fun : float -> result float) (bound : float)
  (p_point width : float) : Prop :=
  minimize_scalar (hk_objective hk_fun p_point) bound #50 = Ok width.

Definition solved_cy_point (hk_fun : float -> result float) (bound n_max : float)
  (point : float * float) (width : float) : Prop :=
  minimize_scalar (hk_cy_objective hk_fun (fst point) (snd point / n_max)) bound #50
  = Ok width.

(** The lower end of the search interval, as the specification words it. *)
Definition lower_bound (pore_geometry : string) (d_eff : float) : float :=
  if String.eqb pore_geometry "slit" then #2 * d_eff else d_eff.

(** The Kirkwood-Muller pair as the specification words it, from the
    polarizabilities and susceptibilities in nm3. *)
Definition kirkwood_muller_pair (alpha_ads kappa_ads alpha_mat kappa_mat : float)
  : float * float :=
  let alpha_ads := alpha_ads * #1e-27 in
  let kappa_ads := kappa_ads * #1e-27 in
  let alpha_mat := alpha_mat * #1e-27 in
  let kappa_mat := kappa_mat * #1e-27 in
  (#1.5 * electron_mass * speed_of_light ** 2 * alpha_ads * kappa_ads,
   #6 * electron_mass * speed_of_light ** 2 * alpha_ads * alpha_mat
   / (alpha_ads / kappa_ads + alpha_mat / kappa_mat)).

(** The divisors of the material term; a zero among them makes Python's
    float division raise. *)
Definition kirkwood_muller_singular (alpha_ads kappa_ads alpha_mat kappa_mat : float)
  : bool :=
  let alpha_ads := alpha_ads * #1e-27 in
  let kappa_ads := kappa_ads * #1e-27 in
  let alpha_mat := alpha_mat * #1e-27 in
  let kappa_mat := kappa_mat * #1e-27 in
  Float.is_zero kappa_ads || Float.is_zero kappa_mat
  || Float.is_zero (alpha_ads / kappa_ads + alpha_mat / kappa_mat).

End Vocabulary.

(** The band of the Horvath-Kawazoe cut: strictly between 1e-3 and 1e3. *)
Definition in_band (d : float) : bool := ((#1e-3 <? d) && (d <? #1e3))%float.

(** The band as the specification words it: the absolute value inside
    [[1e-3, 1e3]]. *)
Definition in_abs_band (d : float) : bool :=
  let a := if (d <? #0)%float then (- d)%float else d in
  negb (a <? #1e-3)%float && negb (#1e3 <? a)%float && negb (is_nan a).

(** The rows (midpoint, distribution, cumulative volume) whose distribution
    value satisfies [keep]. *)
Definition keep_points (keep : float -> bool) (points : array * array * array)
  : array * array * array :=
  let '(widths, dist, volume) := points in
  let rows := filter (fun row => keep (snd (fst row)))
                     (combine (combine widths dist) volume) in
  (map (fun row => fst (fst row)) rows, map (fun row => snd (fst row)) rows,
   map snd rows).

(** The pressures left by the window of [psd_microporous]. *)
Definition window_points (pressure : array)
  (p_limits : option (option float * option float)) : array :=
  let '(minimum, maximum) := psd_limits pressure p_limits in
  slice pressure minimum maximum.


Definition increasing (a : array) : Prop :=
  StronglySorted (fun x y => (x <? y)%float = true) a.

Definition decreasing (a : array) : Prop :=
  StronglySorted (fun x y => (y <? x)%float = true) a.

(** [v] occurs in [s], decided. *)
Fixpoint contains (v s : string) : bool :=
  String.prefix v s ||
  match s with
  | EmptyString => false
  | String _ s' => contains v s'
  end.

(** One of the arguments of the exception mentions [v]. *)
Definition names (args : list string) (v : string) : Prop :=
  exists a, In a args /\ mentions a v.

Definition model_ok (psd_model : option string) : bool :=
  match psd_model with
  | Some m => str_in m _MICRO_PSD_MODELS
  | None => false
  end.

(** *** More vocabulary *)

(** A float that is neither infinite nor [nan]. *)
Definition is_finite (x : float) : bool :=
  match x with Fin _ => true | _ => false end.

(** The calls [psd_microporous] makes on a complete run, in order: the six
    reads of the adsorbate when no [adsorbate_model] is given, the material
    model, the two series of the branch, and the plot when [verbose]. *)
Definition adsorbate_calls : list event :=
  [ CallGetProp "molecular_diameter"; CallGetProp "polarizability";
    CallGetProp "magnetic_susceptibility"; CallGetProp "surface_density";
    CallLiquidDensity; CallMolarMass ].

Definition calls_in_order (adsorbate_model : option dict) (branch : string)
  (verbose : bool) : list event :=
  match adsorbate_model with
  | None => adsorbate_calls
  | Some _ => []
  end ++ [CallGetHkModel; CallLoading branch; CallPressure branch]
  ++ (if verbose then [CallPsdPlot] else []).

(** An enthalpy that the clean-up of [initial_enthalpy_comp] keeps: neither
    below 0 nor above 400 ([nan] is kept). *)
Definition plausible (e : float) : bool :=
  negb ((e <? #0)%float || (#400 <? e)%float).

(** The outcome of one optimisation is taken when its residual is below
    [numpy.inf]. *)
Definition accepted (opt_res : array * float) : bool :=
  (snd opt_res <? Inf false)%float.

(** The state [(final_guess, best_fit)] after the outcomes [results], from
    the state [st]: that of the last outcome taken. *)
Definition last_accepted (results : list (array * float))
  (st : option array * option float) : option array * option float :=
  match rev (filter accepted results) with
  | r :: _ => (Some (fst r), Some (snd r))
  | [] => st
  end.

(** The state after one more outcome. *)
Definition take (st : option array * option float) (opt_res : array * float)
  : option array * option float :=
  if accepted opt_res then (Some (fst opt_res), Some (snd opt_res)) else st.

(** A pair of bounds that is there and not inverted. *)
Definition bounds_in_order (b : option float * option float) : bool :=
  match b with
  | (Some lo, Some hi) => negb (hi <? lo)%float
  | _ => false
  end.

(** ** Proof automation *)

(** From [H : bind c k = Ok b], the value [x] of [c] with [Hx : c = Ok x],
    leaving [H : k x = Ok b]. *)
Ltac inv_bind H :=
  match type of H with
  | bind ?c ?k = Ok _ =>
      let x := fresh "x" in
      let Hx := fresh "Hx" in
      destruct c as [x | ?] eqn:Hx; [cbn [bind] in H | discriminate H]
  end.

(** The cases of a run of [psd_microporous]: every call and every check
    either returns or raises. *)
Ltac trace_cases :=
  cbn [io_bind io_lift io_call io_ret io_raise app fst snd];
  repeat (match goal with
          | |- context [match ?x with Ok _ => _ | Raise _ => _ end] => destruct x
          | |- context [match ?x with Some _ => _ | None => _ end] => destruct x
          | |- context [if ?b then _ else _] => destruct b
          end; cbn [io_bind io_lift io_call io_ret io_raise app fst snd]).

(** ** A concrete environment

    Rational stand-ins for the library functions, a grid search for the
    minimiser, the carbon model of Horvath and Kawazoe and nitrogen as the
    adsorbate: enough to run the model on data. *)

Module Fixture.

Open Scope float_scope.

Definition fx_exp (x : float) : float :=
  match x with
  | Fin q => if Float.Qc_ltb q 0 then #1 / (#1 - x + x * x / #2)
             else #1 + x + x * x / #2
  | Inf true => #0
  | Inf false => Inf false
  | NaN => NaN
  end.

Definition fx_log (x : float) : float :=
  match x with
  | Fin q => if Float.Qc_ltb q 0 then NaN
             else if Float.Qc_is_zero q then Inf true
             else #2 * (x - #1) / (x + #1)
  | Inf true => NaN
  | Inf false => Inf false
  | NaN => NaN
  end.

Definition fx_sin (x : float) : float :=
  match x with
  | Fin _ => x - x * x * x / #6
  | _ => NaN
  end.

(** The best of [n] points [lo + step], [lo + step / 2], ... *)
Fixpoint grid (n : nat) (f : float -> result float) (lo step : float)
  (best : float * float) : result float :=
  match n with
  | O => Ok (fst best)
  | S n' =>
      let x := lo + step in
      (y <- f x ;;
       grid n' f lo (step / #2) (if y <? snd best then (x, y) else best))%result
  end.

Definition grid_min (f : float -> result float) (lo hi : float) : result float :=
  grid 7 f lo ((hi - lo) / #2) (lo, Inf false).

Definition carbon : dict :=
  [ ("molecular_diameter", #0.34); ("polarizability", #1.02e-3);
    ("magnetic_susceptibility", #1.35e-7); ("surface_density", #3.845e19) ]%string.

Definition nitrogen : dict :=
  [ ("molecular_diameter", #0.3); ("polarizability", #1.46e-3);
    ("magnetic_susceptibility", #2e-8); ("surface_density", #6.7e18);
    ("liquid_density", #0.808); ("adsorbate_molar_mass", #28.01) ]%string.

Definition lib : NumLib := {|
  pi := #3.141592653589793;
  Avogadro := #6.02214076e23;
  gas_constant := #8.314462618;
  electron_mass := #9.1093837015e-31;
  speed_of_light := #299792458;
  exp := fx_exp;
  log := fx_log;
  sin := fx_sin;
  minimize_scalar := grid_min;
  get_hk_model := fun m =>
    match m with
    | ModelDict d => Ok d
    | ModelName name =>
        if String.eqb name "Carbon(HK)" then Ok carbon
        else Raise (ParameterError [("Model " ++ name ++ " not found")%string])
    end
|}.

Definition nitrogen_adsorbate : Adsorbate := {|
  get_prop := fun name => getitem nitrogen name;
  liquid_density := fun _ => Ok #0.808;
  molar_mass := Ok #28.01
|}.

(** An isotherm at 77 K with an adsorption branch of five points and a
    desorption branch recorded from high to low pressure. *)
Definition isotherm : Isotherm := {|
  adsorbate := Some nitrogen_adsorbate;
  temperature := #77;
  loading := fun branch =>
    if String.eqb branch "ads" then Some [#1; #2; #3; #3.5; #3.8]
    else if String.eqb branch "des" then Some [#3.8; #3.6; #3.1; #2.2; #1.1]
    else None;
  pressure := fun branch =>
    if String.eqb branch "ads" then Some [#0.0001; #0.01; #0.15; #0.3; #0.5]
    else if String.eqb branch "des" then Some [#0.5; #0.3; #0.15; #0.01; #0.0001]
    else None
|}.

(** The constants of [hk_unpack] for nitrogen on carbon at 77 K, rounded. *)
Definition constants : hk_constants := {|
  d_ads := #0.3; d_mat := #0.34;
  n_ads := #6.7e18; n_mat := #3.845e19;
  a_ads := #3.59e-78; a_mat := #9.08e-78;
  d_eff := #0.32;
  N_over_RT := #9.41e20
|}.

(** Short series and a potential for the solvers. *)
Definition P2 : array := [#0.0001; #0.15].
Definition L2 : array := [#1; #3].
Definition P3 : array := [#0.0001; #0.01; #0.15].
Definition L3 : array := [#1; #2; #3].
Definition linear (l_pore : float) : result float := Ok (- l_pore).

End Fixture.

(** Names for the model classes, one per class, to look models up by. *)
Module ModelsFixture.

Definition class_name (m : model_class) : string :=
  match m with
  | Henry => "Henry" | Langmuir => "Langmuir" | DSLangmuir => "DSLangmuir"
  | TSLangmuir => "TSLangmuir" | Quadratic => "Quadratic" | BET => "BET"
  | GAB => "GAB" | TemkinApprox => "TemkinApprox" | Virial => "Virial"
  | Toth => "Toth" | JensenSeaton => "JensenSeaton" | FHVST => "FHVST"
  | WVST => "WVST"
  end.

End ModelsFixture.

(** Rational stand-ins for the library of [initial_enthalpy.py], an
    optimiser that returns its starting point, and two isotherms. *)
Module EnthalpyFixture.

Import InitialEnthalpy.

(** [x ** y] for an integer [y]. *)
Definition fx_power (x y : float) : float :=
  match y with
  | Fin q => if Pos.eqb (Qden q) 1 then Float.pow x (Qnum q) else NaN
  | _ => NaN
  end.

(** The mean absolute deviation, in place of the standard deviation. *)
Definition fx_std (a : array) : float :=
  average (map (fun x => py_abs (x - average a)%float) a).

Definition argon : Adsorbate := {| enthalpy_liquefaction := fun _ => Ok #6.5 |}.

Definition no_step (objective : array -> result float) (guess : array)
  (bounds : list (option float * option float))
  (constraint : array -> result array) (disp : bool) : result (array * float) :=
  (y <- objective guess ;; Ok (guess, y))%result.

Definition fit_lib : FitLib := {|
  power := fx_power;
  std := fx_std;
  from_list := fun name =>
    if String.eqb name "Ar" then Ok argon
    else Raise (ParameterError [("Adsorbate " ++ name ++ " not found")%string]);
  minimize := no_step
|}.

(** Three points, the first with an enthalpy above 400. *)
Definition isotherm : PointIsotherm := {|
  loading := fun branch =>
    if String.eqb branch "ads" then Some [#1; #2; #4] else None;
  other_data := fun key branch =>
    if String.eqb key "enthalpy" && String.eqb branch "ads"
    then Some [#500; #20; #25] else None;
  adsorbate := "Ar";
  t_exp := #87;
  sample_name := "carbon";
  sample_batch := "X1"
|}.

(** Two points, the first with an enthalpy of zero. *)
Definition isotherm_zero : PointIsotherm := {|
  loading := fun branch =>
    if String.eqb branch "ads" then Some [#1; #2] else None;
  other_data := fun key branch =>
    if String.eqb key "enthalpy" && String.eqb branch "ads"
    then Some [#0; #10] else None;
  adsorbate := "Ar";
  t_exp := #87;
  sample_name := "carbon";
  sample_batch := "X2"
|}.

End EnthalpyFixture.

(** * Properties *)

(** ** The model on small inputs *)

Example div_by_zero_is_inf : (#1 / #0)%float = Inf false.
Proof. reflexivity. Qed.

Example zero_by_zero_is_nan : (#0 / #0)%float = NaN.
Proof. reflexivity. Qed.

Example py_div_by_zero : py_div #1 #0 = Raise ZeroDivisionError.
Proof. reflexivity. Qed.

Example int_of_nan : py_int NaN = Raise ValueError.
Proof. reflexivity. Qed.

Example int_truncates : py_int #(-2.5) = Ok (-2)%Z /\ py_int #9.6 = Ok 9%Z.
Proof. split; reflexivity. Qed.

Example range1_4 : range1 4 = [1; 2; 3]%Z.
Proof. reflexivity. Qed.

Example repr_list_models :
  repr_list _MICRO_PSD_MODELS = "['HK', 'HK-CY', 'RY', 'RY-CY']"%string.
Proof. reflexivity. Qed.

Example searchsorted_default_limit :
  searchsorted [#0.0001; #0.01; #0.15; #0.3; #0.5] #0.2 = 3.
Proof. reflexivity. Qed.

Example searchsorted_is_left :
  searchsorted [#1; #2; #2; #3] #2 = 1 /\ searchsorted [#1; #2; #2; #3] #4 = 4.
Proof. split; reflexivity. Qed.

Example mask_index_shapes :
  mask_index [1; 2; 3] [true; false; true] = Ok [1; 3] /\
  mask_index [1; 2; 3] [true; false] = Raise IndexError.
Proof. split; reflexivity. Qed.

Example unknown_model_message :
  psd_check_arguments (Some "XX"%string) "slit" "ads"
  = Raise (ParameterError
      ["Model XX not an option for psd. Available models are ['HK', 'HK-CY', 'RY', 'RY-CY']"%string]).
Proof. reflexivity. Qed.

Example unknown_branch_message :
  psd_check_arguments (Some "HK"%string) "slit" "both"
  = Raise (ParameterError
      ["Branch 'both' not an option for PSD."%string;
       "Select either 'ads' or 'des'"%string]).
Proof. reflexivity. Qed.

(** The calls made before the window is found too small. *)
Example trace_before_window :
  fst (psd_microporous (L := Fixture.lib) Fixture.isotherm (Some "HK"%string) "slit"
         "ads" (ModelName "Carbon(HK)") None (Some (None, Some #0.1)) false)
  = [ CallGetProp "molecular_diameter"; CallGetProp "polarizability";
      CallGetProp "magnetic_susceptibility"; CallGetProp "surface_density";
      CallLiquidDensity; CallMolarMass; CallGetHkModel;
      CallLoading "ads"; CallPressure "ads" ].
Proof. vm_compute. reflexivity. Qed.

(** An unknown geometry handed to a kernel leaves [pore_widths] unbound. *)
Example kernel_unknown_geometry :
  psd_horvath_kawazoe (L := Fixture.lib) Fixture.P3 Fixture.L3 #77 "cube"
                      Fixture.nitrogen Fixture.carbon false
  = Raise (UnboundLocalError "pore_widths").
Proof. vm_compute. reflexivity. Qed.

(** A key that [HK_KEYS] does not know is reported as missing. *)
Example extra_key_reported_missing :
  hk_parameter_checks Fixture.nitrogen (("porosity"%string, #0.5) :: Fixture.carbon)
  = Raise (ParameterError
      ["Adsorbent properties dictionary is missing parameters: ['porosity']."%string]).
Proof. reflexivity. Qed.

(** ** Floats *)

Lemma Qc_is_zero_false (q : Qc) : Float.Qc_is_zero q = false <-> q <> 0%Qc.
Proof.
  unfold Float.Qc_is_zero. rewrite Qceq_alt.
  destruct (q ?= 0)%Qc; split; intros H; congruence.
Qed.

Lemma div_self (q : Qc) : q <> 0%Qc -> (Fin q / Fin q)%float = #1.
Proof.
  intros Hq. unfold Float.div, Float.of_Q.
  rewrite (proj2 (Qc_is_zero_false q) Hq). f_equal. field. exact Hq.
Qed.

Lemma one_minus_one : (#1 - #1)%float = #0.
Proof.
  unfold Float.sub, Float.add, Float.opp, Float.of_Q.
  f_equal; apply Qc_is_canon; reflexivity.
Qed.

Lemma Qc_ltb_lt (a b : Qc) : Float.Qc_ltb a b = true <-> (a < b)%Qc.
Proof.
  unfold Float.Qc_ltb. rewrite Qclt_alt.
  destruct (a ?= b)%Qc; split; congruence.
Qed.

Lemma ltb_trans (x y z : float) :
  (x <? y)%float = true -> (y <? z)%float = true -> (x <? z)%float = true.
Proof.
  destruct x as [a | [] |], y as [b | [] |], z as [c | [] |]; simpl; intros H1 H2;
    try discriminate; try reflexivity; try assumption.
  apply Qc_ltb_lt. apply Qc_ltb_lt in H1, H2. eapply Qclt_trans; eassumption.
Qed.



Lemma in_band_positive (d : float) : in_band d = true -> (#0 <? d)%float = true.
Proof.
  unfold in_band. intros H. apply andb_true_iff in H as [H _].
  eapply ltb_trans; [| exact H]. reflexivity.
Qed.

(** ** The error monad and its loops *)

Lemma mapM_Forall2 {A B} (f : A -> result B) (l : list A) (ys : list B) :
  mapM f l = Ok ys <-> Forall2 (fun x y => f x = Ok y) l ys.
Proof.
  revert ys. induction l as [| x l IH]; intros ys; simpl.
  - split; intros H.
    + injection H as <-. constructor.
    + inversion H. reflexivity.
  - split; intros H.
    + inv_bind H. inv_bind H. injection H as <-.
      constructor; [assumption | now apply IH].
    + inversion H as [| ? y ? ys' Hy Hys]; subst.
      rewrite Hy. simpl. apply IH in Hys. rewrite Hys. reflexivity.
Qed.

Lemma mapM_length {A B} (f : A -> result B) (l : list A) (ys : list B) :
  mapM f l = Ok ys -> length ys = length l.
Proof.
  intros H. apply mapM_Forall2 in H. symmetry. eapply Forall2_length; eassumption.
Qed.

Lemma io_bind_snd {A B} (c : io A) (k : A -> io B) :
  snd (io_bind c k) = match snd c with
                      | Ok a => snd (k a)
                      | Raise e => Raise e
                      end.
Proof.
  destruct c as [t [a | e]]; simpl; [| reflexivity]. now destruct (k a).
Qed.

Lemma io_bind_snd_ok {A B} (c : io A) (k : A -> io B) (b : B) :
  snd (io_bind c k) = Ok b -> exists a, snd c = Ok a /\ snd (k a) = Ok b.
Proof.
  rewrite io_bind_snd. destruct (snd c) as [a | e]; [eauto | discriminate].
Qed.

(** ** Lists and arrays *)

Lemma length_removelast {A} (l : list A) : length (removelast l) = length l - 1.
Proof.
  induction l as [| x l IH]; [reflexivity |].
  destruct l as [| y l]; [reflexivity |].
  change (length (x :: removelast (y :: l)) = length (x :: y :: l) - 1).
  simpl length in *. lia.
Qed.

Lemma length_tl {A} (l : list A) : length (tl l) = length l - 1.
Proof. destruct l; simpl; lia. Qed.

Lemma length_diff (a : array) : length (diff a) = length a - 1.
Proof.
  unfold diff. rewrite length_map, length_combine, length_tl, length_removelast. lia.
Qed.

Lemma length_slice {A} (a : list A) (lo hi : nat) :
  length (slice a lo hi) = Nat.min hi (length a) - lo.
Proof. unfold slice. rewrite length_skipn, length_firstn. reflexivity. Qed.

Lemma broadcast2_same_length f (a b r : array) :
  length a = length b -> broadcast2 f a b = Ok r -> length r = length a.
Proof.
  intros Hlen H. unfold broadcast2 in H.
  rewrite (proj2 (Nat.eqb_eq _ _) Hlen) in H. injection H as <-.
  rewrite length_map, length_combine. lia.
Qed.

Lemma mask_index_ok {A} (a : list A) (mask : list bool) (r : list A) :
  mask_index a mask = Ok r -> length mask = length a /\ r = select mask a.
Proof.
  unfold mask_index. destruct (Nat.eqb_spec (length mask) (length a)); intros H.
  - injection H as <-. auto.
  - discriminate.
Qed.

Lemma last_cons {A} (a : list A) (x y : A) : last (y :: a) x = last a y.
Proof.
  revert x y. induction a as [| z a IH]; intros x y; [reflexivity |].
  change (last (y :: z :: a) x) with (last (z :: a) x). now rewrite !IH.
Qed.

Lemma last_item_cons (x y : float) (a : array) :
  last_item (x :: y :: a) = last_item (y :: a).
Proof. unfold last_item. now rewrite last_cons. Qed.

Lemma last_item_map (f : float -> float) (a : array) (x : float) :
  last_item a = Ok x -> last_item (map f a) = Ok (f x).
Proof.
  induction a as [| y a IH]; [discriminate |].
  destruct a as [| z a].
  - simpl. now intros [= ->].
  - rewrite last_item_cons. intros H. specialize (IH H).
    change (map f (y :: z :: a)) with (f y :: map f (z :: a)).
    simpl map in *. now rewrite last_item_cons.
Qed.

Lemma Forall2_last {A} (R : A -> float -> Prop) (l : list A) (ws : array) (d x : A) :
  Forall2 R l ws -> l <> [] -> last l d = x ->
  exists w, last_item ws = Ok w /\ R x w.
Proof.
  induction 1 as [| a w l ws Haw H IH]; intros Hne Hlast; [congruence |].
  destruct H as [| a' w' l ws Haw' H].
  - simpl in Hlast. subst. exists w. now split.
  - rewrite last_item_cons. apply IH; [discriminate |]. exact Hlast.
Qed.

Lemma last_combine (p c : array) (dp dc : float) :
  length p = length c ->
  last (combine p c) (dp, dc) = (last p dp, last c dc).
Proof.
  revert c. induction p as [| x p IH]; intros [| y c] Hlen; try discriminate;
    [reflexivity |].
  simpl in Hlen. injection Hlen as Hlen. specialize (IH c Hlen).
  destruct p as [| x' p]; destruct c as [| y' c]; try discriminate; [reflexivity |].
  exact IH.
Qed.

Lemma Forall2_combine_map {A B C D} (R : A * C -> D -> Prop) (g : B -> C)
  (p : list A) (l : list B) (ws : list D) :
  Forall2 R (combine p (map g l)) ws <->
  Forall2 (fun x w => R (fst x, g (snd x)) w) (combine p l) ws.
Proof.
  revert l ws. induction p as [| a p IH]; intros l ws; simpl.
  - split; intros H; inversion H; constructor.
  - destruct l as [| b l]; simpl.
    + split; intros H; inversion H; constructor.
    + split; intros H; inversion H; subst; constructor; try assumption; now apply IH.
Qed.

(** *** Sorted lists *)

Lemma StronglySorted_app {A} (R : A -> A -> Prop) (l1 l2 : list A) :
  StronglySorted R l1 -> StronglySorted R l2 ->
  (forall x y, In x l1 -> In y l2 -> R x y) ->
  StronglySorted R (l1 ++ l2).
Proof.
  induction l1 as [| a l1 IH]; intros H1 H2 H12; simpl; [assumption |].
  apply StronglySorted_inv in H1 as [H1 Ha].
  constructor.
  - apply IH; [assumption .. |]. intros x y Hx Hy. apply H12; [now right | assumption].
  - apply Forall_app. split; [assumption |].
    apply Forall_forall. intros y Hy. apply H12; [now left | assumption].
Qed.

Lemma StronglySorted_app_inv {A} (R : A -> A -> Prop) (l1 l2 : list A) :
  StronglySorted R (l1 ++ l2) -> StronglySorted R l1 /\ StronglySorted R l2.
Proof.
  induction l1 as [| a l1 IH]; simpl; intros H.
  - split; [constructor | assumption].
  - apply StronglySorted_inv in H as [H Ha]. apply IH in H as [H1 H2].
    apply Forall_app in Ha as [Ha _]. split; [now constructor | assumption].
Qed.

Lemma StronglySorted_rev {A} (R : A -> A -> Prop) (l : list A) :
  StronglySorted R l -> StronglySorted (fun x y => R y x) (rev l).
Proof.
  induction 1 as [| a l Hl IH Ha]; simpl; [constructor |].
  apply StronglySorted_app; [assumption | repeat constructor |].
  intros x y Hx [<- | []]. apply in_rev in Hx.
  rewrite Forall_forall in Ha. now apply Ha.
Qed.

Lemma StronglySorted_slice {A} (R : A -> A -> Prop) (l : list A) (lo hi : nat) :
  StronglySorted R l -> StronglySorted R (slice l lo hi).
Proof.
  intros H. unfold slice.
  rewrite <- (firstn_skipn hi l) in H. apply StronglySorted_app_inv in H as [H _].
  rewrite <- (firstn_skipn lo (firstn hi l)) in H.
  now apply StronglySorted_app_inv in H as [_ H].
Qed.


(** *** Binary search *)

Lemma bsearch_bounds (a : array) (key : float) (lo hi : nat) :
  lo <= hi -> lo <= bsearch a key lo hi <= hi.
Proof.
  funelim (bsearch a key lo hi); intros Hle; try lia.
  - assert (Hd : (hi - lo) / 2 < hi - lo) by (apply Nat.div_lt; lia).
    specialize (H ltac:(lia)). lia.
  - assert (Hd : (hi - lo) / 2 < hi - lo) by (apply Nat.div_lt; lia).
    specialize (H ltac:(lia)). lia.
Qed.

Lemma searchsorted_le (a : array) (v : float) : searchsorted a v <= length a.
Proof. unfold searchsorted. apply bsearch_bounds. lia. Qed.





(** ** Strings *)

Lemma prefix_app (v post : string) : String.prefix v (v ++ post) = true.
Proof.
  induction v as [| a v IH]; simpl; [now destruct post |].
  destruct (ascii_dec a a); [exact IH | congruence].
Qed.

Lemma mentions_contains (s v : string) : mentions s v -> contains v s = true.
Proof.
  intros (pre & post & ->). induction pre as [| a pre IH]; simpl.
  - assert (U : forall t, String.prefix v t = true -> contains v t = true).
    { intros t Ht. destruct t; cbn [contains]; rewrite Ht; reflexivity. }
    apply U, prefix_app.
  - rewrite IH. apply orb_true_r.
Qed.

Lemma mentions_here (pre v post : string) : mentions (pre ++ v ++ post) v.
Proof. exists pre, post. reflexivity. Qed.

Lemma string_app_assoc (a b c : string) : ((a ++ b) ++ c = a ++ b ++ c)%string.
Proof. induction a as [| x a IH]; simpl; [reflexivity | now rewrite IH]. Qed.

Lemma mentions_app_l (a s v : string) : mentions s v -> mentions (a ++ s) v.
Proof.
  intros (pre & post & ->). exists (a ++ pre)%string, post.
  now rewrite string_app_assoc.
Qed.

Lemma names_one (msg v : string) : mentions msg v -> names [msg] v.
Proof. intros H. exists msg. split; [now left | exact H]. Qed.

Lemma models_named (pre : string) (a : string) :
  In a _MICRO_PSD_MODELS -> mentions (pre ++ repr_list _MICRO_PSD_MODELS) a.
Proof.
  intros H. apply mentions_app_l. simpl in H.
  destruct H as [<- | [<- | [<- | [<- | []]]]].
  - exists "['"%string, "', 'HK-CY', 'RY', 'RY-CY']"%string. reflexivity.
  - exists "['HK', '"%string, "', 'RY', 'RY-CY']"%string. reflexivity.
  - exists "['HK', 'HK-CY', '"%string, "', 'RY-CY']"%string. reflexivity.
  - exists "['HK', 'HK-CY', 'RY', '"%string, "']"%string. reflexivity.
Qed.

Lemma geometries_named (pre : string) (a : string) :
  In a _PORE_GEOMETRIES -> mentions (pre ++ repr_list _PORE_GEOMETRIES) a.
Proof.
  intros H. apply mentions_app_l. simpl in H.
  destruct H as [<- | [<- | [<- | []]]].
  - exists "['"%string, "', 'cylinder', 'sphere']"%string. reflexivity.
  - exists "['slit', '"%string, "', 'sphere']"%string. reflexivity.
  - exists "['slit', 'cylinder', '"%string, "']"%string. reflexivity.
Qed.

Lemma getitem_lookup (d : dict) (k : string) (v : float) :
  lookup k d = Some v -> getitem d k = Ok v.
Proof. unfold getitem. now intros ->. Qed.

(** ** The solvers and the kernels *)

Section KernelProperties.

Context {L : NumLib}.

Lemma solve_hk_spec (pressure : array) hk_fun bound ws :
  _solve_hk pressure hk_fun bound = Ok ws <->
  Forall2 (solved_point hk_fun bound) pressure ws.
Proof. unfold _solve_hk. apply mapM_Forall2. Qed.

Lemma solve_hk_cy_spec (pressure loading : array) hk_fun bound n_max ws :
  last_item loading = Ok n_max ->
  _solve_hk_cy pressure loading hk_fun bound = Ok ws <->
  Forall2 (solved_cy_point hk_fun bound n_max) (combine pressure loading) ws.
Proof.
  intros Hlast. unfold _solve_hk_cy, coverage_of. rewrite Hlast. cbn [bind].
  etransitivity; [apply mapM_Forall2 |].
  etransitivity;
    [apply (Forall2_combine_map
              (fun x w => (let '(p_point, c_point) := x in
                           minimize_scalar (hk_cy_objective hk_fun p_point c_point)
                                           bound #50) = Ok w)) |].
  reflexivity.
Qed.

Lemma solve_hk_cy_length (pressure loading : array) hk_fun bound ws :
  length loading = length pressure ->
  _solve_hk_cy pressure loading hk_fun bound = Ok ws ->
  length ws = length pressure.
Proof.
  intros Hlen H. unfold _solve_hk_cy in H. inv_bind H. apply mapM_length in H.
  unfold coverage_of in Hx. inv_bind Hx. injection Hx as <-.
  rewrite H, length_combine, length_map. lia.
Qed.

Lemma hk_solve_length use_cy (pressure loading : array) potential bound ws :
  length loading = length pressure ->
  hk_solve use_cy pressure loading potential bound = Ok ws ->
  length ws = length pressure.
Proof.
  intros Hlen H. destruct use_cy; simpl in H.
  - eapply solve_hk_cy_length; eassumption.
  - now apply mapM_length in H.
Qed.

Lemma hk_pore_widths_bound pressure loading geometry c use_cy widths :
  hk_pore_widths pressure loading geometry c use_cy = Ok (Some widths) ->
  exists potential ws,
    hk_solve use_cy pressure loading potential (lower_bound geometry (d_eff c)) = Ok ws
    /\ length widths = length ws.
Proof.
  unfold hk_pore_widths, lower_bound. intros H.
  destruct (String.eqb geometry "slit").
  - do 4 inv_bind H. injection H as <-. rewrite length_map. eauto.
  - destruct (String.eqb geometry "cylinder").
    + do 2 inv_bind H. injection H as <-. rewrite length_map. eauto.
    + destruct (String.eqb geometry "sphere"); [| discriminate].
      do 3 inv_bind H. injection H as <-. rewrite length_map. eauto.
Qed.

Lemma ry_pore_widths_bound pressure loading geometry c use_cy widths :
  ry_pore_widths pressure loading geometry c use_cy = Ok (Some widths) ->
  exists potential ws,
    hk_solve use_cy pressure loading potential (lower_bound geometry (d_eff c)) = Ok ws
    /\ length widths = length ws.
Proof.
  unfold ry_pore_widths, lower_bound. intros H.
  destruct (String.eqb geometry "slit").
  - do 3 inv_bind H. injection H as <-. rewrite length_map. eauto.
  - destruct (String.eqb geometry "cylinder").
    + do 1 inv_bind H. injection H as <-. rewrite length_map. eauto.
    + destruct (String.eqb geometry "sphere"); [| discriminate].
      do 3 inv_bind H. injection H as <-. rewrite length_map. eauto.
Qed.

(** Claim C1, amended. [_solve_hk] returns one pore width per pressure
    point, in input order, each the result of the bounded minimisation of
    [(exp(potential(l)) - p)^2] over [[bound, 50]], for every sequence;
    [_solve_hk_cy] does so, with the Cheng-Yang term subtracted in the
    exponent, for every non-empty sequence of pairs. Neither has a failure
    path of its own there: the call returns the widths exactly when every
    minimisation returns one. In both kernels the bound is [2 * d_eff] for
    the slit and [d_eff] for the cylinder and the sphere. *)
Theorem solvers_one_width_per_point (pressure loading : array)
  (hk_fun : float -> result float) (bound : float) :
  (forall ws, _solve_hk pressure hk_fun bound = Ok ws <->
              Forall2 (solved_point hk_fun bound) pressure ws) /\
  (forall ws, _solve_hk pressure hk_fun bound = Ok ws ->
              length ws = length pressure) /\
  (loading <> [] -> length loading = length pressure ->
   exists n_max,
     last_item loading = Ok n_max /\
     (forall ws, _solve_hk_cy pressure loading hk_fun bound = Ok ws <->
                 Forall2 (solved_cy_point hk_fun bound n_max)
                         (combine pressure loading) ws) /\
     (forall ws, _solve_hk_cy pressure loading hk_fun bound = Ok ws ->
                 length ws = length pressure)) /\
  (forall p_point c_point l_pore h, hk_fun l_pore = Ok h ->
     hk_objective hk_fun p_point l_pore = Ok ((exp h - p_point) ** 2)%float /\
     hk_cy_objective hk_fun p_point c_point l_pore
     = Ok ((exp (h - (#1 + #1 / c_point * log (#1 - c_point))) - p_point) ** 2)%float) /\
  (forall geometry c use_cy widths,
     hk_pore_widths pressure loading geometry c use_cy = Ok (Some widths) \/
     ry_pore_widths pressure loading geometry c use_cy = Ok (Some widths) ->
     exists potential ws,
       hk_solve use_cy pressure loading potential
                (lower_bound geometry (d_eff c)) = Ok ws /\
       length widths = length ws).
Proof.
  split; [intros ws; apply solve_hk_spec |].
  split; [intros ws; apply mapM_length |].
  split.
  - intros Hne Hlen. destruct loading as [| n0 loading']; [congruence |].
    eexists. split; [reflexivity |]. split.
    + intros ws. now apply solve_hk_cy_spec.
    + intros ws. now apply solve_hk_cy_length.
  - split.
    + intros p_point c_point l_pore h Hh.
      unfold hk_objective, hk_cy_objective, sf_corr. rewrite Hh. split; reflexivity.
    + intros geometry c use_cy widths [H | H].
      * now apply hk_pore_widths_bound in H.
      * now apply ry_pore_widths_bound in H.
Qed.

(** *** Differentiation and the cut *)

Lemma select_keep_points (keep : float -> bool) (w d v : array) :
  length w = length d -> length v = length d ->
  (select (map keep d) w, select (map keep d) d, select (map keep d) v)
  = keep_points keep (w, d, v).
Proof.
  unfold keep_points. revert w v.
  induction d as [| x d IH]; intros w v Hw Hv;
    destruct w as [| y w]; destruct v as [| z v]; try discriminate; [reflexivity |].
  simpl in Hw, Hv. injection Hw as Hw. injection Hv as Hv.
  specialize (IH w v Hw Hv). simpl.
  destruct (keep x); simpl; injection IH as -> -> ->; reflexivity.
Qed.

Lemma keep_points_lengths keep points :
  let '(w, d, v) := keep_points keep points in
  length w = length d /\ length d = length v.
Proof.
  destruct points as [[w d] v]. unfold keep_points. rewrite !length_map. auto.
Qed.

Lemma hk_cut_spec points r :
  hk_cut points = Ok r -> r = keep_points in_band points.
Proof.
  destruct points as [[w d] v]. unfold hk_cut. intros H.
  inv_bind H. inv_bind H. inv_bind H. injection H as <-.
  apply mask_index_ok in Hx as [L1 ->].
  apply mask_index_ok in Hx0 as [L2 ->].
  apply mask_index_ok in Hx1 as [L3 ->].
  rewrite length_map in *.
  apply (select_keep_points in_band); congruence.
Qed.

Lemma hk_differentiate_lengths (pore_widths loading : array) ld mm a d v :
  length pore_widths = length loading ->
  hk_differentiate pore_widths loading ld mm = Ok (a, d, v) ->
  length a = length d /\ length d = length v.
Proof.
  intros Hlen H. unfold hk_differentiate in H.
  inv_bind H. inv_bind H. injection H as <- <- <-.
  apply broadcast2_same_length in Hx;
    [| rewrite length_removelast, length_tl; reflexivity].
  apply broadcast2_same_length in Hx0;
    [| rewrite !length_diff, length_map; congruence].
  rewrite length_map, length_tl, length_map, Hx, Hx0, length_diff, length_map,
    length_removelast.
  lia.
Qed.

Lemma psd_horvath_kawazoe_spec pressure loading T geometry ads mat use_cy r :
  psd_horvath_kawazoe pressure loading T geometry ads mat use_cy = Ok r ->
  exists c widths ld mm points,
    hk_pore_widths pressure loading geometry c use_cy = Ok (Some widths) /\
    hk_differentiate widths loading ld mm = Ok points /\
    r = keep_points in_band points.
Proof.
  unfold psd_horvath_kawazoe. intros H.
  inv_bind H. inv_bind H. inv_bind H. inv_bind H. inv_bind H.
  destruct x1 as [widths |]; [| discriminate].
  inv_bind H. apply hk_cut_spec in H. eauto 10.
Qed.

Lemma psd_horvath_kawazoe_ry_spec pressure loading T geometry ads mat use_cy r :
  psd_horvath_kawazoe_ry pressure loading T geometry ads mat use_cy = Ok r ->
  exists c widths ld mm,
    ry_pore_widths pressure loading geometry c use_cy = Ok (Some widths) /\
    hk_differentiate widths loading ld mm = Ok r.
Proof.
  unfold psd_horvath_kawazoe_ry. intros H.
  inv_bind H. inv_bind H. inv_bind H. inv_bind H. inv_bind H.
  destruct x1 as [widths |]; [| discriminate]. eauto 10.
Qed.

Lemma psd_horvath_kawazoe_lengths pressure loading T geometry ads mat use_cy w d v :
  psd_horvath_kawazoe pressure loading T geometry ads mat use_cy = Ok (w, d, v) ->
  length w = length d /\ length d = length v.
Proof.
  intros H. apply psd_horvath_kawazoe_spec in H as (c & ws & ld & mm & pts & _ & _ & H).
  pose proof (keep_points_lengths in_band pts) as K. rewrite <- H in K. exact K.
Qed.

Lemma psd_horvath_kawazoe_ry_lengths pressure loading T geometry ads mat use_cy w d v :
  length pressure = length loading ->
  psd_horvath_kawazoe_ry pressure loading T geometry ads mat use_cy = Ok (w, d, v) ->
  length w = length d /\ length d = length v.
Proof.
  intros Hlen H. apply psd_horvath_kawazoe_ry_spec in H as (c & ws & ld & mm & Hw & H).
  apply ry_pore_widths_bound in Hw as (pot & ws' & Hs & Hl).
  apply hk_solve_length in Hs; [| congruence].
  eapply hk_differentiate_lengths; [| eassumption]. congruence.
Qed.

(** Claim C2, amended. What [psd_horvath_kawazoe] returns are the
    differentiated points whose distribution value itself, not its absolute
    value, lies strictly between 1e-3 and 1e3, all others being cut (a
    value in the band is positive, so every negative value is cut);
    [psd_horvath_kawazoe_ry] returns every differentiated point. *)
Theorem hk_cuts_to_band_ry_does_not pressure loading T geometry ads mat use_cy :
  (forall r, psd_horvath_kawazoe pressure loading T geometry ads mat use_cy = Ok r ->
     exists c widths ld mm points,
       hk_pore_widths pressure loading geometry c use_cy = Ok (Some widths) /\
       hk_differentiate widths loading ld mm = Ok points /\
       r = keep_points in_band points) /\
  (forall r, psd_horvath_kawazoe_ry pressure loading T geometry ads mat use_cy = Ok r ->
     exists c widths ld mm,
       ry_pore_widths pressure loading geometry c use_cy = Ok (Some widths) /\
       hk_differentiate widths loading ld mm = Ok r) /\
  (forall d, in_band d = true ->
             (#1e-3 <? d)%float = true /\ (d <? #1e3)%float = true /\
             (#0 <? d)%float = true).
Proof.
  split; [intros r; apply psd_horvath_kawazoe_spec |].
  split; [intros r; apply psd_horvath_kawazoe_ry_spec |].
  intros d Hd. pose proof (in_band_positive d Hd) as Hpos.
  unfold in_band in Hd. apply andb_true_iff in Hd as [H1 H2]. auto.
Qed.

(** *** The parameter checks *)

Lemma filter_negb_nil {A} (f : A -> bool) (l : list A) :
  filter (fun x => negb (f x)) l = [] <-> forallb f l = true.
Proof.
  induction l as [| x l IH]; simpl; [tauto |].
  destruct (f x); simpl; [exact IH | split; discriminate].
Qed.

(** The checks accept exactly the dictionaries without unknown keys: the
    keys that are required play no part in them. *)
Lemma hk_parameter_checks_accepts (ads mat : dict) :
  hk_parameter_checks ads mat = Ok tt <->
  forallb (fun x => str_in x (map fst HK_KEYS)) (keys mat) = true /\
  forallb (fun x => str_in x (map fst HK_KEYS ++
                              ["liquid_density"; "adsorbate_molar_mass"]%string))
          (keys ads) = true.
Proof.
  unfold hk_parameter_checks. rewrite <- !filter_negb_nil.
  destruct (filter _ (keys mat)) as [| k ks].
  - destruct (filter _ (keys ads)) as [| k' ks'].
    + tauto.
    + split; [discriminate | intros [_ H]; discriminate].
  - split; [discriminate | intros [H _]; discriminate].
Qed.

(** Claim C3, at the failing input. With a complete adsorbate dictionary
    and a material dictionary that lacks required keys (all of them, or
    only the surface density) the parameter checks pass, and both kernels
    stop at the first failing lookup with [KeyError], not with
    [ParameterError]: the comprehensions collect the keys that are present
    and unknown, not the required keys that are absent. *)
Theorem kernels_miss_absent_keys pressure loading T geometry use_cy :
  hk_parameter_checks Fixture.nitrogen [] = Ok tt /\
  psd_horvath_kawazoe pressure loading T geometry Fixture.nitrogen [] use_cy
  = Raise (KeyError "molecular_diameter") /\
  psd_horvath_kawazoe_ry pressure loading T geometry Fixture.nitrogen [] use_cy
  = Raise (KeyError "molecular_diameter") /\
  hk_parameter_checks Fixture.nitrogen (removelast Fixture.carbon) = Ok tt /\
  psd_horvath_kawazoe pressure loading T geometry Fixture.nitrogen
                      (removelast Fixture.carbon) use_cy
  = Raise (KeyError "surface_density") /\
  psd_horvath_kawazoe_ry pressure loading T geometry Fixture.nitrogen
                         (removelast Fixture.carbon) use_cy
  = Raise (KeyError "surface_density").
Proof. repeat split; reflexivity. Qed.

(** Claim C8, amended. For property mappings that contain the
    polarizability and the magnetic susceptibility, [_dispersion_from_dict]
    returns exactly the Kirkwood-Muller pair unless a scaled susceptibility
    or the sum [alpha_ads/kappa_ads + alpha_mat/kappa_mat] is zero; in that
    case the division raises [ZeroDivisionError]. *)
Theorem dispersion_from_dict_value (ads mat : dict)
  (alpha_ads kappa_ads alpha_mat kappa_mat : float) :
  lookup "polarizability" ads = Some alpha_ads ->
  lookup "magnetic_susceptibility" ads = Some kappa_ads ->
  lookup "polarizability" mat = Some alpha_mat ->
  lookup "magnetic_susceptibility" mat = Some kappa_mat ->
  _dispersion_from_dict ads mat =
  if kirkwood_muller_singular alpha_ads kappa_ads alpha_mat kappa_mat
  then Raise ZeroDivisionError
  else Ok (kirkwood_muller_pair alpha_ads kappa_ads alpha_mat kappa_mat).
Proof.
  intros H1 H2 H3 H4.
  unfold _dispersion_from_dict, kirkwood_muller_singular, kirkwood_muller_pair.
  rewrite (getitem_lookup _ _ _ H1), (getitem_lookup _ _ _ H2),
    (getitem_lookup _ _ _ H3), (getitem_lookup _ _ _ H4).
  cbn [bind]. unfold _kirkwood_muller_dispersion_mat, _kirkwood_muller_dispersion_ads.
  unfold py_div at 1.
  destruct (Float.is_zero (kappa_ads * #1e-27)%float); [reflexivity |].
  cbn [bind orb]. unfold py_div at 1.
  destruct (Float.is_zero (kappa_mat * #1e-27)%float); [reflexivity |].
  cbn [bind orb]. unfold py_div.
  destruct (Float.is_zero _); reflexivity.
Qed.

(** Claim C10, amended. When the last loading is finite and not zero, the
    coverage of the last point is exactly 1, the Cheng-Yang term of that
    point is [1 + 1 * log(0)], and [_solve_hk_cy] hands the minimiser the
    objective built from it: nothing guards the logarithm of zero. *)
Theorem solve_hk_cy_last_coverage (pressure loading : array)
  (hk_fun : float -> result float) (bound : float) (q : Qc) :
  last_item loading = Ok (Fin q) -> q <> 0%Qc ->
  exists coverage,
    coverage_of loading = Ok coverage /\
    last_item coverage = Ok #1 /\
    sf_corr #1 = (#1 + #1 * log #0)%float /\
    (forall p_point l_pore h, hk_fun l_pore = Ok h ->
       hk_cy_objective hk_fun p_point #1 l_pore
       = Ok ((exp (h - (#1 + #1 * log #0)) - p_point) ** 2)%float) /\
    (forall p_last ws, length pressure = length loading ->
       last_item pressure = Ok p_last ->
       _solve_hk_cy pressure loading hk_fun bound = Ok ws ->
       exists w, last_item ws = Ok w /\
                 minimize_scalar (hk_cy_objective hk_fun p_last #1) bound #50 = Ok w).
Proof.
  intros Hlast Hq.
  assert (Hsf : sf_corr #1 = (#1 + #1 * log #0)%float).
  { unfold sf_corr. rewrite one_minus_one. unfold Float.of_Q at 2 3.
    rewrite div_self by (intro; discriminate). reflexivity. }
  exists (map (fun n => (n / Fin q)%float) loading).
  split; [unfold coverage_of; rewrite Hlast; reflexivity |].
  split; [rewrite (last_item_map _ _ _ Hlast), (div_self _ Hq); reflexivity |].
  split; [exact Hsf |].
  split.
  - intros p_point l_pore h Hh. unfold hk_cy_objective. rewrite Hh, Hsf. reflexivity.
  - intros p_last ws Hlen Hp H.
    apply (solve_hk_cy_spec _ _ _ _ _ _ Hlast) in H.
    destruct loading as [| n0 loading']; [discriminate |].
    destruct pressure as [| p0 pressure']; [discriminate |].
    eapply Forall2_last with (d := (p0, n0)) in H; [| discriminate | reflexivity].
    destruct H as (w & Hw & Hsolved). exists w. split; [exact Hw |].
    unfold solved_cy_point in Hsolved.
    assert (E : last (combine (p0 :: pressure') (n0 :: loading')) (p0, n0)
                = (p_last, Fin q)).
    { rewrite last_combine by exact Hlen.
      simpl in Hp, Hlast. injection Hp as Hp. injection Hlast as Hlast.
      f_equal.
      - destruct pressure'; simpl in *; congruence.
      - destruct loading'; simpl in *; congruence. }
    rewrite E in Hsolved. cbn [fst snd] in Hsolved.
    rewrite (div_self _ Hq) in Hsolved. exact Hsolved.
Qed.

End KernelProperties.

(** ** The driver *)

Section DriverProperties.

Context {L : NumLib}.

Lemma psd_limits_le (pressure : array) p_limits :
  fst (psd_limits pressure p_limits) <= length pressure /\
  snd (psd_limits pressure p_limits) <= length pressure.
Proof.
  unfold psd_limits. simpl. split.
  - destruct (limit_set _); [apply searchsorted_le | lia].
  - destruct (limit_set _); [apply searchsorted_le | lia].
Qed.


Lemma psd_window_lengths (pressure loading pw lw : array) p_limits :
  length pressure = length loading ->
  psd_window pressure loading p_limits = Ok (pw, lw) ->
  length pw = length lw.
Proof.
  unfold psd_window. destruct (psd_limits _ _) as [lo hi].
  destruct (_ <? _)%Z; [discriminate |]. intros Hlen H. injection H as <- <-.
  rewrite !length_slice. lia.
Qed.

Lemma psd_microporous_check_raise isotherm psd_model g b mat am lim verbose e :
  psd_check_arguments psd_model g b = Raise e ->
  psd_microporous isotherm psd_model g b mat am lim verbose = ([], Raise e).
Proof. intros H. unfold psd_microporous. rewrite H. reflexivity. Qed.

Lemma psd_read_branch_snd isotherm branch (p l : array) :
  pressure isotherm branch = Some p -> loading isotherm branch = Some l ->
  snd (psd_read_branch isotherm branch)
  = Ok (if String.eqb branch "des" then (rev p, rev l) else (p, l)).
Proof.
  intros Hp Hl. unfold psd_read_branch. rewrite Hp, Hl. simpl.
  now destruct (String.eqb branch "des").
Qed.

Lemma psd_read_branch_ok isotherm branch series :
  snd (psd_read_branch isotherm branch) = Ok series ->
  exists p l, pressure isotherm branch = Some p /\ loading isotherm branch = Some l
              /\ series = if String.eqb branch "des" then (rev p, rev l) else (p, l).
Proof.
  unfold psd_read_branch. intros H.
  destruct (loading isotherm branch) as [l |] eqn:El;
    destruct (pressure isotherm branch) as [p |] eqn:Ep; simpl in H; try discriminate.
  exists p, l. repeat split.
  destruct (String.eqb branch "des"); simpl in H; congruence.
Qed.

(** Once the arguments, the adsorbate and the material are accepted and the
    branch is read, the result is that of the kernel on the window. *)
Lemma psd_microporous_snd isotherm psd_model g branch mat am lim verbose
  model t ads_model mat_props series :
  psd_check_arguments psd_model g branch = Ok model ->
  psd_adsorbate_model isotherm am = (t, Ok ads_model) ->
  get_hk_model mat = Ok mat_props ->
  snd (psd_read_branch isotherm branch) = Ok series ->
  snd (psd_microporous isotherm psd_model g branch mat am lim verbose)
  = (window <- psd_window (fst series) (snd series) lim ;;
     psd_dispatch model (fst window) (snd window) (temperature isotherm) g
                  ads_model mat_props).
Proof.
  intros Hc Ha Hm Hs. unfold psd_microporous.
  rewrite !io_bind_snd. rewrite Hc. cbn [io_lift snd].
  rewrite !io_bind_snd. rewrite Ha. cbn [snd].
  rewrite !io_bind_snd. unfold io_call at 1. cbn [snd]. rewrite Hm.
  rewrite !io_bind_snd. rewrite Hs.
  rewrite !io_bind_snd. cbn [io_lift snd].
  destruct (psd_window (fst series) (snd series) lim) as [window | e]; [| reflexivity].
  rewrite !io_bind_snd. cbn [io_lift snd bind].
  destruct (psd_dispatch _ _ _ _ _ _ _) as [r | e]; [| reflexivity].
  rewrite !io_bind_snd. now destruct verbose.
Qed.

Lemma psd_dispatch_lengths model (pw lw : array) T g ads_model mat_props w d v :
  length pw = length lw ->
  psd_dispatch model pw lw T g ads_model mat_props = Ok (w, d, v) ->
  length w = length d /\ length d = length v.
Proof.
  intros Hlen H. unfold psd_dispatch in H.
  destruct (str_in model _).
  - eapply psd_horvath_kawazoe_lengths; eassumption.
  - destruct (str_in model _); [| discriminate].
    eapply psd_horvath_kawazoe_ry_lengths; eassumption.
Qed.

(** Claim C4, amended. Whenever [psd_model] is [None] or not a known
    model, or the geometry or the branch is not a known one,
    [psd_microporous] raises [ParameterError] before any call to a
    collaborator (the trace is empty). For a model name, a geometry or a
    branch the arguments of the exception name the offending value (of the
    first check that fails) and every allowed alternative; for [None] the
    message only asks for a model to be specified. *)
Theorem psd_microporous_rejects_arguments isotherm psd_model g b mat am lim verbose :
  model_ok psd_model = false \/ str_in g _PORE_GEOMETRIES = false
    \/ str_in b ["ads"; "des"]%string = false ->
  exists args,
    psd_microporous isotherm psd_model g b mat am lim verbose
      = ([], Raise (ParameterError args)) /\
    (forall m, psd_model = Some m -> str_in m _MICRO_PSD_MODELS = false ->
       names args m /\ forall a, In a _MICRO_PSD_MODELS -> names args a) /\
    (forall m, psd_model = Some m -> str_in m _MICRO_PSD_MODELS = true ->
       str_in g _PORE_GEOMETRIES = false ->
       names args g /\ forall a, In a _PORE_GEOMETRIES -> names args a) /\
    (forall m, psd_model = Some m -> str_in m _MICRO_PSD_MODELS = true ->
       str_in g _PORE_GEOMETRIES = true ->
       names args b /\ names args "ads" /\ names args "des").
Proof.
  intros Hbad.
  destruct psd_model as [m |].
  - unfold model_ok in Hbad.
    destruct (str_in m _MICRO_PSD_MODELS) eqn:Em.
    + destruct (str_in g _PORE_GEOMETRIES) eqn:Eg.
      * destruct Hbad as [Hbad | [Hbad | Hbad]]; try discriminate.
        eexists. split.
        { apply psd_microporous_check_raise. unfold psd_check_arguments.
          rewrite Em, Eg, Hbad. reflexivity. }
        split; [intros m' [= <-] Hm; congruence |].
        split; [intros m' [= <-] _ Hg; congruence |].
        intros m' _ _ _. repeat split.
        -- exists ("Branch '" ++ b ++ "' not an option for PSD.")%string.
           split; [now left | apply mentions_here].
        -- exists "Select either 'ads' or 'des'"%string.
           split; [right; now left |].
           exists "Select either '"%string, "' or 'des'"%string. reflexivity.
        -- exists "Select either 'ads' or 'des'"%string.
           split; [right; now left |].
           exists "Select either 'ads' or '"%string, "'"%string. reflexivity.
      * eexists. split.
        { apply psd_microporous_check_raise. unfold psd_check_arguments.
          rewrite Em, Eg. reflexivity. }
        split; [intros m' [= <-] Hm; congruence |].
        split; [| intros m' _ _ Hg; congruence].
        intros m' _ _ _. split.
        -- apply names_one, mentions_here.
        -- intros a Ha. apply names_one.
           rewrite <- !string_app_assoc. now apply geometries_named.
    + eexists. split.
      { apply psd_microporous_check_raise. unfold psd_check_arguments.
        rewrite Em. reflexivity. }
      split; [| split; intros m' [= <-] Hm; congruence].
      intros m' [= <-] _. split.
      * apply names_one, mentions_here.
      * intros a Ha. apply names_one.
        rewrite <- !string_app_assoc. now apply models_named.
  - eexists. split; [reflexivity |].
    repeat split; intros; discriminate.
Qed.


(** The three sequences of a call that returns. For an isotherm whose
    pressure and loading series are aligned, every call of
    [psd_microporous] that returns, returns three sequences of equal
    length, whatever the model, the geometry and the branch; and the call
    does return the kernel's three sequences once the arguments are
    accepted, the properties are resolved, the branch is read and holds at
    least three points in the window. Whether the kernel returns is
    another matter. *)
Theorem psd_microporous_equal_lengths isotherm psd_model g branch mat am lim verbose :
  (forall p l : array, pressure isotherm branch = Some p ->
                       loading isotherm branch = Some l -> length p = length l) ->
  (forall w d v : array,
      snd (psd_microporous isotherm psd_model g branch mat am lim verbose)
      = Ok (w, d, v) ->
      length w = length d /\ length d = length v) /\
  (forall model t ads_model mat_props series window r,
      psd_check_arguments psd_model g branch = Ok model ->
      psd_adsorbate_model isotherm am = (t, Ok ads_model) ->
      get_hk_model mat = Ok mat_props ->
      snd (psd_read_branch isotherm branch) = Ok series ->
      psd_window (fst series) (snd series) lim = Ok window ->
      psd_dispatch model (fst window) (snd window) (temperature isotherm) g
                   ads_model mat_props = Ok r ->
      snd (psd_microporous isotherm psd_model g branch mat am lim verbose) = Ok r).
Proof.
  intros Haligned. split.
  - intros w d v H. unfold psd_microporous in H.
    apply io_bind_snd_ok in H as (model & _ & H).
    apply io_bind_snd_ok in H as (ads_model & _ & H).
    apply io_bind_snd_ok in H as (mat_props & _ & H).
    apply io_bind_snd_ok in H as (series & Hs & H).
    apply io_bind_snd_ok in H as (window & Hw & H).
    apply io_bind_snd_ok in H as (psd & Hd & H).
    apply io_bind_snd_ok in H as (u & _ & H).
    cbn in H. injection H as ->. cbn [io_lift snd] in Hw, Hd.
    apply psd_read_branch_ok in Hs as (p & l & Hp & Hl & ->).
    specialize (Haligned p l Hp Hl).
    destruct window as [pw lw]. cbn [fst snd] in Hd.
    eapply psd_dispatch_lengths; [| exact Hd].
    eapply psd_window_lengths; [| exact Hw].
    destruct (String.eqb branch "des"); cbn [fst snd]; rewrite ?length_rev;
      exact Haligned.
  - intros model t ads_model mat_props series window r Hc Ha Hm Hs Hw Hd.
    erewrite psd_microporous_snd by eassumption.
    rewrite Hw. exact Hd.
Qed.

(** Claim C7. On the branch ['des'] both series are reversed, on ['ads']
    they are kept as read; the window and the kernel work on the series in
    that order, so that a desorption branch recorded with decreasing
    pressure, like an adsorption branch recorded with increasing pressure,
    reaches the solver in increasing-pressure order. *)
Theorem psd_microporous_branch_order isotherm branch (p l : array) :
  pressure isotherm branch = Some p ->
  loading isotherm branch = Some l ->
  let series := if String.eqb branch "des" then (rev p, rev l) else (p, l) in
  snd (psd_read_branch isotherm branch) = Ok series /\
  (forall psd_model g mat am lim verbose model t ads_model mat_props,
      psd_check_arguments psd_model g branch = Ok model ->
      psd_adsorbate_model isotherm am = (t, Ok ads_model) ->
      get_hk_model mat = Ok mat_props ->
      snd (psd_microporous isotherm psd_model g branch mat am lim verbose)
      = (window <- psd_window (fst series) (snd series) lim ;;
         psd_dispatch model (fst window) (snd window) (temperature isotherm) g
                      ads_model mat_props)) /\
  (forall lim pw lw,
      (if String.eqb branch "des" then decreasing p else increasing p) ->
      psd_window (fst series) (snd series) lim = Ok (pw, lw) ->
      increasing pw).
Proof.
  intros Hp Hl series.
  pose proof (psd_read_branch_snd _ _ _ _ Hp Hl) as Hs. fold series in Hs.
  split; [exact Hs |]. split.
  - intros. eapply psd_microporous_snd; eassumption.
  - intros lim pw lw Hsorted H. unfold psd_window in H.
    destruct (psd_limits _ _) as [lo hi]. destruct (_ <? _)%Z; [discriminate |].
    injection H as <- _. apply StronglySorted_slice.
    subst series. destruct (String.eqb branch "des"); cbn [fst].
    + apply (StronglySorted_rev _ _ Hsorted).
    + exact Hsorted.
Qed.

End DriverProperties.

(** ** IAST *)

Section IastProperties.

Variable ModelIsotherm : Type.
Variable tolerance : float.
Variable iast_solve : list ModelIsotherm -> array -> result array.
Variable reverse_iast_solve :
  list ModelIsotherm -> array -> float -> result (array * array).

(** Claim C9. [iast] raises [ParameterError] when there are fewer than two
    components or the partial pressures do not match them in number;
    [reverse_iast] does so under the same two conditions and when the mole
    fractions do not sum to 1 within the tolerance. *)
Theorem iast_argument_checks (isotherms : list ModelIsotherm)
  (partial_pressures adsorbed_mole_fractions : array) (total_pressure : float) :
  (length isotherms < 2 \/ length partial_pressures <> length isotherms ->
   is_parameter_error (iast iast_solve isotherms partial_pressures)) /\
  (length isotherms < 2 \/ length adsorbed_mole_fractions <> length isotherms
   \/ sums_to_one tolerance adsorbed_mole_fractions = false ->
   is_parameter_error
     (reverse_iast tolerance reverse_iast_solve isotherms adsorbed_mole_fractions
                   total_pressure)).
Proof.
  split; intros H.
  - unfold iast.
    destruct (Nat.ltb_spec (length isotherms) 2); [eexists; reflexivity |].
    destruct (Nat.eqb_spec (length partial_pressures) (length isotherms));
      [| eexists; reflexivity].
    lia.
  - unfold reverse_iast.
    destruct (Nat.ltb_spec (length isotherms) 2); [eexists; reflexivity |].
    destruct (Nat.eqb_spec (length adsorbed_mole_fractions) (length isotherms));
      [| eexists; reflexivity].
    destruct (sums_to_one tolerance adsorbed_mole_fractions); [| eexists; reflexivity].
    destruct H as [H | [H | H]]; [lia | congruence | discriminate].
Qed.

End IastProperties.

(** * Further properties *)

(** ** The kernels *)

Lemma str_in_cons (x y : string) (l : list string) :
  str_in x (y :: l) = String.eqb x y || str_in x l.
Proof. reflexivity. Qed.

Lemma unknown_geometry (g : string) :
  str_in g _PORE_GEOMETRIES = false ->
  String.eqb g "slit" = false /\ String.eqb g "cylinder" = false /\
  String.eqb g "sphere" = false.
Proof.
  unfold _PORE_GEOMETRIES. rewrite !str_in_cons. intros H.
  apply orb_false_iff in H as [H1 H]. apply orb_false_iff in H as [H2 H].
  apply orb_false_iff in H as [H3 _]. auto.
Qed.

Section KernelGeometry.

Context {L : NumLib}.

Lemma hk_pore_widths_none pressure loading g c use_cy :
  hk_pore_widths pressure loading g c use_cy = Ok None <->
  str_in g _PORE_GEOMETRIES = false.
Proof.
  split.
  - unfold hk_pore_widths, _PORE_GEOMETRIES. rewrite !str_in_cons. intros H.
    destruct (String.eqb g "slit"); [do 4 inv_bind H; discriminate |].
    destruct (String.eqb g "cylinder"); [do 2 inv_bind H; discriminate |].
    destruct (String.eqb g "sphere"); [do 3 inv_bind H; discriminate |].
    reflexivity.
  - intros H. apply unknown_geometry in H as (H1 & H2 & H3).
    unfold hk_pore_widths. now rewrite H1, H2, H3.
Qed.

Lemma ry_pore_widths_none pressure loading g c use_cy :
  ry_pore_widths pressure loading g c use_cy = Ok None <->
  str_in g _PORE_GEOMETRIES = false.
Proof.
  split.
  - unfold ry_pore_widths, _PORE_GEOMETRIES. rewrite !str_in_cons. intros H.
    destruct (String.eqb g "slit"); [do 3 inv_bind H; discriminate |].
    destruct (String.eqb g "cylinder"); [do 1 inv_bind H; discriminate |].
    destruct (String.eqb g "sphere"); [do 3 inv_bind H; discriminate |].
    reflexivity.
  - intros H. apply unknown_geometry in H as (H1 & H2 & H3).
    unfold ry_pore_widths. now rewrite H1, H2, H3.
Qed.

(** Property X1. The kernels do not check the geometry themselves: with a geometry
    other than the three known ones no branch of the [if]/[elif] chain
    binds [pore_widths], the kernel never returns, and once the property
    dictionaries are accepted and read it stops with [UnboundLocalError]. *)
Theorem kernels_need_known_geometry pressure loading T g ads mat use_cy :
  str_in g _PORE_GEOMETRIES = false ->
  is_ok (psd_horvath_kawazoe pressure loading T g ads mat use_cy) = false /\
  is_ok (psd_horvath_kawazoe_ry pressure loading T g ads mat use_cy) = false /\
  (forall c ld mm,
      hk_parameter_checks ads mat = Ok tt ->
      hk_unpack T ads mat = Ok c ->
      getitem ads "liquid_density" = Ok ld ->
      getitem ads "adsorbate_molar_mass" = Ok mm ->
      psd_horvath_kawazoe pressure loading T g ads mat use_cy
      = Raise (UnboundLocalError "pore_widths") /\
      psd_horvath_kawazoe_ry pressure loading T g ads mat use_cy
      = Raise (UnboundLocalError "pore_widths")).
Proof.
  intros Hg.
  assert (Hhk : forall c, hk_pore_widths pressure loading g c use_cy = Ok None)
    by (intros c; now apply hk_pore_widths_none).
  assert (Hry : forall c, ry_pore_widths pressure loading g c use_cy = Ok None)
    by (intros c; now apply ry_pore_widths_none).
  split; [| split].
  - unfold psd_horvath_kawazoe.
    destruct (hk_parameter_checks ads mat); [| reflexivity]. cbn [bind].
    destruct (hk_unpack T ads mat) as [c |]; [| reflexivity]. cbn [bind].
    rewrite Hhk. cbn [bind].
    destruct (getitem ads "liquid_density"); [| reflexivity]. cbn [bind].
    destruct (getitem ads "adsorbate_molar_mass"); reflexivity.
  - unfold psd_horvath_kawazoe_ry.
    destruct (hk_parameter_checks ads mat); [| reflexivity]. cbn [bind].
    destruct (hk_unpack T ads mat) as [c |]; [| reflexivity]. cbn [bind].
    rewrite Hry. cbn [bind].
    destruct (getitem ads "liquid_density"); [| reflexivity]. cbn [bind].
    destruct (getitem ads "adsorbate_molar_mass"); reflexivity.
  - intros c ld mm Hc Hu Hld Hmm.
    unfold psd_horvath_kawazoe, psd_horvath_kawazoe_ry.
    rewrite Hc, Hu. cbn [bind]. rewrite Hhk, Hry. cbn [bind].
    rewrite Hld, Hmm. split; reflexivity.
Qed.

End KernelGeometry.

Lemma trunc_below_one (q : Qc) : (q < 1)%Qc -> (Float.trunc q <= 0)%Z.
Proof.
  intros H. unfold Float.trunc.
  assert (Hn : (Qnum q < Zpos (Qden q))%Z).
  { unfold Qclt, Qlt in H. simpl in H. lia. }
  destruct (Z.lt_ge_cases (Qnum q) 0) as [Hneg | Hpos].
  - assert (E : (Qnum q = - (- Qnum q))%Z) by lia.
    rewrite E, Z.quot_opp_l by lia.
    assert (0 <= (- Qnum q) ÷ Zpos (Qden q))%Z by (apply Z.quot_pos; lia).
    lia.
  - rewrite Z.quot_small by lia. lia.
Qed.

Lemma range1_empty (n : Z) : (n <= 1)%Z -> range1 n = [].
Proof.
  intros H. unfold range1.
  replace (Z.to_nat (n - 1)) with 0 by lia. reflexivity.
Qed.

Section KernelEdges.

Context {L : NumLib}.

(** Property X2. In a pore so narrow that [(l_pore - d_mat) / d_ads - 0.5] is below 1
    (a width under [d_mat + 1.5 * d_ads]) the layer loop of the Rege-Yang
    cylinder and sphere potentials does not run, [layer_population] stays
    unbound, and the potential, hence the objective the minimiser
    evaluates, raises [UnboundLocalError]. *)
Theorem ry_potential_unbound_in_narrow_pores (c : hk_constants)
  (p_12 p_22 l_pore p_point : float) :
  is_finite ((l_pore - d_mat c) / d_ads c - #0.5)%float = true ->
  ((l_pore - d_mat c) / d_ads c - #0.5 <? #1)%float = true ->
  ry_cylinder_potential c l_pore = Raise (UnboundLocalError "layer_population") /\
  ry_sphere_potential c p_12 p_22 l_pore
  = Raise (UnboundLocalError "layer_population") /\
  hk_objective (ry_cylinder_potential c) p_point l_pore
  = Raise (UnboundLocalError "layer_population") /\
  hk_objective (ry_sphere_potential c p_12 p_22) p_point l_pore
  = Raise (UnboundLocalError "layer_population").
Proof.
  intros Hfin Hlt.
  assert (Hcy : ry_cylinder_potential c l_pore
                = Raise (UnboundLocalError "layer_population")).
  { unfold ry_cylinder_potential.
    destruct ((l_pore - d_mat c) / d_ads c - #0.5)%float as [q | |];
      try discriminate Hfin.
    apply Qc_ltb_lt in Hlt. apply trunc_below_one in Hlt.
    cbn [py_int bind]. rewrite range1_empty by lia. reflexivity. }
  assert (Hsp : ry_sphere_potential c p_12 p_22 l_pore
                = Raise (UnboundLocalError "layer_population")).
  { unfold ry_sphere_potential.
    destruct ((l_pore - d_mat c) / d_ads c - #0.5)%float as [q | |];
      try discriminate Hfin.
    apply Qc_ltb_lt in Hlt. apply trunc_below_one in Hlt.
    cbn [py_int bind]. rewrite range1_empty by lia. reflexivity. }
  unfold hk_objective. rewrite Hcy, Hsp. repeat split.
Qed.

(** *** The Cheng-Yang term at saturation *)

(** Property X4. With [numpy]'s [log(0) = -inf] and [exp(inf) = inf], the Cheng-Yang
    term of a point of coverage 1 (the last point) is [-inf], and the
    objective of that point is [+inf] at every width where the potential is
    finite, whatever the pressure: the minimisation has nothing to
    minimise there. *)
Theorem cheng_yang_saturated_objective (hk_fun : float -> result float)
  (l_pore : float) (h p : Qc) :
  log #0 = Inf true -> exp (Inf false) = Inf false ->
  hk_fun l_pore = Ok (Fin h) ->
  sf_corr #1 = Inf true /\
  hk_cy_objective hk_fun (Fin p) #1 l_pore = Ok (Inf false).
Proof.
  intros Hlog Hexp Hh.
  assert (Hsf : sf_corr #1 = Inf true).
  { unfold sf_corr. rewrite one_minus_one, Hlog. reflexivity. }
  split; [exact Hsf |].
  unfold hk_cy_objective. rewrite Hh, Hsf. cbn [bind].
  change (Fin h - Inf true)%float with (Inf false). rewrite Hexp. reflexivity.
Qed.

(** *** Temperature zero *)

Lemma N_over_RT_zero (T : float) :
  Float.is_zero T = true -> _N_over_RT T = Raise ZeroDivisionError.
Proof.
  intros H. unfold _N_over_RT, py_div.
  destruct (Float.is_zero gas_constant); [reflexivity |]. cbn [bind].
  now rewrite H.
Qed.

(** Property X5. At a temperature of zero both kernels stop with [ZeroDivisionError]
    in [_N_over_RT], once the property dictionaries are accepted and read
    and the dispersion constants computed, whatever the data, the geometry
    and the model. *)
Theorem kernels_zero_temperature pressure loading T g ads mat use_cy
  (da dm na nm : float) (disp : float * float) :
  Float.is_zero T = true ->
  hk_parameter_checks ads mat = Ok tt ->
  getitem ads "molecular_diameter" = Ok da ->
  getitem mat "molecular_diameter" = Ok dm ->
  getitem ads "surface_density" = Ok na ->
  getitem mat "surface_density" = Ok nm ->
  _dispersion_from_dict ads mat = Ok disp ->
  psd_horvath_kawazoe pressure loading T g ads mat use_cy = Raise ZeroDivisionError /\
  psd_horvath_kawazoe_ry pressure loading T g ads mat use_cy = Raise ZeroDivisionError.
Proof.
  intros HT Hc H1 H2 H3 H4 Hd.
  assert (Hu : hk_unpack T ads mat = Raise ZeroDivisionError).
  { unfold hk_unpack. rewrite H1, H2, H3, H4, Hd. cbn [bind].
    destruct disp as [a_a a_m]. rewrite (N_over_RT_zero T HT). reflexivity. }
  unfold psd_horvath_kawazoe, psd_horvath_kawazoe_ry.
  rewrite Hc, Hu. split; reflexivity.
Qed.

(** *** The solver and the lengths of its inputs *)

Lemma combine_app_longer {A B} (p extra : list A) (c : list B) :
  length p = length c -> combine (p ++ extra) c = combine p c.
Proof.
  revert c. induction p as [| x p IH]; intros [| y c] Hlen; try discriminate.
  - now destruct extra.
  - simpl. f_equal. apply IH. now injection Hlen.
Qed.

(** Property X6. [_solve_hk_cy] pairs pressures and coverages with [zip], which stops
    at the shorter sequence: the number of widths is the smaller of the two
    lengths, and pressure points beyond the last loading are ignored
    without an error. *)
Theorem solve_hk_cy_zip_truncates (pressure extra loading : array)
  (hk_fun : float -> result float) (bound : float) :
  length pressure = length loading ->
  _solve_hk_cy (pressure ++ extra) loading hk_fun bound
  = _solve_hk_cy pressure loading hk_fun bound /\
  (forall (p l ws : array), _solve_hk_cy p l hk_fun bound = Ok ws ->
                            length ws = Nat.min (length p) (length l)).
Proof.
  intros Hlen. split.
  - unfold _solve_hk_cy, coverage_of.
    destruct (last_item loading) as [n_max |]; [| reflexivity]. cbn [bind].
    rewrite combine_app_longer; [reflexivity |]. now rewrite length_map.
  - intros p l ws H. unfold _solve_hk_cy in H. inv_bind H. apply mapM_length in H.
    unfold coverage_of in Hx. inv_bind Hx. injection Hx as <-.
    now rewrite H, length_combine, length_map.
Qed.

End KernelEdges.

Section KernelInputs.

Context {L : NumLib}.

(** *** The parameter checks on unknown keys *)

Lemma mentions_app_r (s b v : string) : mentions s v -> mentions (s ++ b) v.
Proof.
  intros (pre & post & ->). exists pre, (post ++ b)%string.
  now rewrite !string_app_assoc.
Qed.

Lemma concat_mentions (sep k : string) (l : list string) :
  In k l -> mentions (String.concat sep (map repr_str l)) k.
Proof.
  induction l as [| x l IH]; intros Hin; [contradiction |].
  assert (Hx : forall rest, mentions (repr_str x ++ rest) x).
  { intros rest. exists "'"%string, ("'" ++ rest)%string.
    unfold repr_str. now rewrite !string_app_assoc. }
  destruct l as [| y l].
  - destruct Hin as [<- | []]. simpl.
    exists "'"%string, "'"%string. reflexivity.
  - change (String.concat sep (map repr_str (x :: y :: l)))
      with (repr_str x ++ sep ++ String.concat sep (map repr_str (y :: l)))%string.
    destruct Hin as [<- | Hin]; [apply Hx |].
    apply mentions_app_l, mentions_app_l. now apply IH.
Qed.

Lemma repr_list_mentions (k : string) (l : list string) :
  In k l -> mentions (repr_list l) k.
Proof.
  intros H. unfold repr_list. apply mentions_app_l, mentions_app_r.
  now apply concat_mentions.
Qed.

(** Property X8. What the parameter checks of the kernels do reject: a key that the
    material dictionary carries and [HK_KEYS] does not list, or, the
    material dictionary being accepted, a key of the adsorbate dictionary
    outside [HK_KEYS] and the two liquid properties. Both kernels then
    raise [ParameterError] with a message that names the key, before any
    property is read. *)
Theorem kernels_reject_unknown_keys pressure loading T g ads mat use_cy (k : string) :
  (In k (keys mat) /\ str_in k (map fst HK_KEYS) = false) \/
  (forallb (fun x => str_in x (map fst HK_KEYS)) (keys mat) = true /\
   In k (keys ads) /\
   str_in k (map fst HK_KEYS ++ ["liquid_density"; "adsorbate_molar_mass"]%string)
   = false) ->
  exists msg,
    psd_horvath_kawazoe pressure loading T g ads mat use_cy
    = Raise (ParameterError [msg]) /\
    psd_horvath_kawazoe_ry pressure loading T g ads mat use_cy
    = Raise (ParameterError [msg]) /\
    mentions msg k.
Proof.
  intros H.
  assert (Hc : exists msg, hk_parameter_checks ads mat = Raise (ParameterError [msg])
                           /\ mentions msg k).
  { unfold hk_parameter_checks. destruct H as [[Hin Hk] | (Hmat & Hin & Hk)].
    - assert (Hf : In k (filter (fun x => negb (str_in x (map fst HK_KEYS)))
                                (keys mat))).
      { apply filter_In. split; [exact Hin | now rewrite Hk]. }
      destruct (filter _ (keys mat)) as [| k0 ks] eqn:E; [contradiction |].
      eexists. split; [reflexivity |].
      apply mentions_app_l, mentions_app_r. now apply repr_list_mentions.
    - apply filter_negb_nil in Hmat. rewrite Hmat.
      assert (Hf : In k (filter
                (fun x => negb (str_in x (map fst HK_KEYS ++
                    ["liquid_density"; "adsorbate_molar_mass"]%string)))
                (keys ads))).
      { apply filter_In. split; [exact Hin | now rewrite Hk]. }
      destruct (filter _ (keys ads)) as [| k0 ks] eqn:E; [contradiction |].
      eexists. split; [reflexivity |].
      apply mentions_app_l, mentions_app_r. now apply repr_list_mentions. }
  destruct Hc as (msg & Hc & Hm). exists msg.
  unfold psd_horvath_kawazoe, psd_horvath_kawazoe_ry. rewrite Hc. auto.
Qed.

(** *** Sizes *)

Lemma keep_points_length_le keep (w d v : array) :
  length (fst (fst (keep_points keep (w, d, v)))) <= length v.
Proof.
  unfold keep_points. cbn [fst]. rewrite length_map.
  etransitivity; [apply filter_length_le |].
  rewrite length_combine. lia.
Qed.

Lemma hk_differentiate_volume (pore_widths loading : array) ld mm a d v :
  hk_differentiate pore_widths loading ld mm = Ok (a, d, v) ->
  v = map (fun n => (n * mm / ld / #1000)%float) (tl loading).
Proof.
  unfold hk_differentiate. intros H. inv_bind H. inv_bind H. injection H as _ _ <-.
  now destruct loading.
Qed.

Lemma hk_differentiate_count (pore_widths loading : array) ld mm a d v :
  length pore_widths = length loading ->
  hk_differentiate pore_widths loading ld mm = Ok (a, d, v) ->
  length a = length loading - 1.
Proof.
  intros Hlen H. unfold hk_differentiate in H.
  inv_bind H. inv_bind H. injection H as <- _ _.
  apply broadcast2_same_length in Hx;
    [| rewrite length_removelast, length_tl; reflexivity].
  rewrite length_map, Hx, length_removelast. lia.
Qed.

Lemma psd_horvath_kawazoe_count pressure loading T g ads mat use_cy w d v :
  psd_horvath_kawazoe pressure loading T g ads mat use_cy = Ok (w, d, v) ->
  length w <= length loading - 1.
Proof.
  intros H. apply psd_horvath_kawazoe_spec in H
    as (c & ws & ld & mm & [[a dd] vv] & _ & Hd & H).
  pose proof (keep_points_length_le in_band a dd vv) as K. rewrite <- H in K.
  cbn [fst] in K. apply hk_differentiate_volume in Hd. subst vv.
  rewrite length_map, length_tl in K. exact K.
Qed.

Lemma psd_horvath_kawazoe_ry_count pressure loading T g ads mat use_cy w d v :
  length pressure = length loading ->
  psd_horvath_kawazoe_ry pressure loading T g ads mat use_cy = Ok (w, d, v) ->
  length w = length loading - 1.
Proof.
  intros Hlen H. apply psd_horvath_kawazoe_ry_spec in H as (c & ws & ld & mm & Hw & H).
  apply ry_pore_widths_bound in Hw as (pot & ws' & Hs & Hl).
  apply hk_solve_length in Hs; [| congruence].
  eapply hk_differentiate_count; [| eassumption]. congruence.
Qed.

(** Property X9. What the kernels return as cumulative pore volume is, point by point,
    the loading converted to a liquid volume,
    [loading * adsorbate_molar_mass / liquid_density / 1000], of every
    point but the first: for the Rege-Yang kernel all of them, whatever the
    pressures, the geometry and the pore widths found, for the
    Horvath-Kawazoe kernel those that pass the cut. *)
Theorem kernels_cumulative_volume pressure loading T g ads mat use_cy (w d v : array) :
  (psd_horvath_kawazoe_ry pressure loading T g ads mat use_cy = Ok (w, d, v) ->
   exists ld mm,
     getitem ads "liquid_density" = Ok ld /\
     getitem ads "adsorbate_molar_mass" = Ok mm /\
     v = map (fun n => (n * mm / ld / #1000)%float) (tl loading)) /\
  (psd_horvath_kawazoe pressure loading T g ads mat use_cy = Ok (w, d, v) ->
   exists ld mm,
     getitem ads "liquid_density" = Ok ld /\
     getitem ads "adsorbate_molar_mass" = Ok mm /\
     incl v (map (fun n => (n * mm / ld / #1000)%float) (tl loading))).
Proof.
  split; intros H.
  - unfold psd_horvath_kawazoe_ry in H.
    inv_bind H. inv_bind H. inv_bind H. inv_bind H. inv_bind H.
    destruct x1 as [widths |]; [| discriminate].
    exists x2, x3. repeat split. eapply hk_differentiate_volume; eassumption.
  - unfold psd_horvath_kawazoe in H.
    inv_bind H. inv_bind H. inv_bind H. inv_bind H. inv_bind H.
    destruct x1 as [widths |]; [| discriminate]. inv_bind H.
    exists x2, x3. repeat split.
    destruct x1 as [[a dd] vv]. apply hk_differentiate_volume in Hx4. subst vv.
    apply hk_cut_spec in H. unfold keep_points in H. injection H as _ _ ->.
    intros y Hy. apply in_map_iff in Hy as (row & <- & Hrow).
    apply filter_In in Hrow as [Hrow _]. destruct row as [r1 r2].
    now apply in_combine_r in Hrow.
Qed.

End KernelInputs.

(** ** The layer loop of the Rege-Yang sphere *)



Section SphereLayers.

Context {L : NumLib}.




End SphereLayers.

(** ** The driver, again *)

Section DriverCalls.

Context {L : NumLib}.

Lemma psd_microporous_trace isotherm psd_model g branch mat am lim verbose :
  (exists rest,
      calls_in_order am branch verbose
      = fst (psd_microporous isotherm psd_model g branch mat am lim verbose) ++ rest) /\
  (is_ok (snd (psd_microporous isotherm psd_model g branch mat am lim verbose)) = true ->
   fst (psd_microporous isotherm psd_model g branch mat am lim verbose)
   = calls_in_order am branch verbose).
Proof.
  unfold psd_microporous, psd_adsorbate_model, psd_read_branch, calls_in_order,
    adsorbate_calls.
  destruct verbose, am as [d |];
    trace_cases; cbn [fst snd app is_ok];
    (split; [eexists; reflexivity | intros Hok; first [discriminate Hok | reflexivity]]).
Qed.

(** Property X10. [psd_microporous] calls its collaborators in one fixed order: the
    adsorbate's properties (only without [adsorbate_model]), then the
    material model, then the loading and the pressure of the branch, then
    the plot. A run that fails has made a prefix of these calls, a run that
    returns has made them all, and the plot is drawn only by a verbose run
    that returns. *)
Theorem psd_microporous_call_order isotherm psd_model g branch mat am lim verbose :
  (exists rest,
      calls_in_order am branch verbose
      = fst (psd_microporous isotherm psd_model g branch mat am lim verbose) ++ rest) /\
  (is_ok (snd (psd_microporous isotherm psd_model g branch mat am lim verbose)) = true ->
   fst (psd_microporous isotherm psd_model g branch mat am lim verbose)
   = calls_in_order am branch verbose) /\
  (In CallPsdPlot (fst (psd_microporous isotherm psd_model g branch mat am lim verbose))
   <-> verbose = true /\
       is_ok (snd (psd_microporous isotherm psd_model g branch mat am lim verbose))
       = true).
Proof.
  destruct (psd_microporous_trace isotherm psd_model g branch mat am lim verbose)
    as [Hprefix Hall].
  split; [exact Hprefix |]. split; [exact Hall |].
  destruct (is_ok (snd (psd_microporous isotherm psd_model g branch mat am lim verbose)))
    eqn:Eok.
  - rewrite (Hall eq_refl). unfold calls_in_order, adsorbate_calls.
    destruct verbose, am; simpl; intuition congruence.
  - split; [| intros [_ H]; discriminate].
    intros Hin. exfalso. revert Hin Eok. clear.
    unfold psd_microporous, psd_adsorbate_model, psd_read_branch.
    destruct verbose, am as [d |];
      trace_cases; cbn [fst snd app is_ok]; intros Hin Hok; try discriminate Hok;
      simpl in Hin; intuition discriminate.
Qed.

(** Property X11. With an explicit [adsorbate_model] the isotherm's adsorbate plays no
    part: two isotherms with the same temperature and the same series on
    the branch give the same run, result and calls, whatever their
    adsorbates, and no property of the adsorbate is read. *)
Theorem explicit_adsorbate_model_is_used (iso1 iso2 : Isotherm) psd_model g branch mat
  (d : dict) lim verbose :
  temperature iso1 = temperature iso2 ->
  loading iso1 branch = loading iso2 branch ->
  pressure iso1 branch = pressure iso2 branch ->
  psd_microporous iso1 psd_model g branch mat (Some d) lim verbose
  = psd_microporous iso2 psd_model g branch mat (Some d) lim verbose /\
  (forall ev, In ev (fst (psd_microporous iso1 psd_model g branch mat (Some d) lim
                            verbose)) ->
              In ev [CallGetHkModel; CallLoading branch; CallPressure branch;
                     CallPsdPlot]).
Proof.
  intros HT Hl Hp. split.
  - unfold psd_microporous, psd_adsorbate_model, psd_read_branch.
    now rewrite HT, Hl, Hp.
  - intros ev Hin.
    destruct (psd_microporous_trace iso1 psd_model g branch mat (Some d) lim verbose)
      as [[rest Hprefix] _].
    assert (Hin' : In ev (calls_in_order (Some d) branch verbose)).
    { rewrite Hprefix. apply in_or_app. now left. }
    unfold calls_in_order in Hin'. destruct verbose; simpl in Hin' |- *; tauto.
Qed.

(** *** The window *)

Lemma combine_skipn {A B} (n : nat) (a : list A) (b : list B) :
  skipn n (combine a b) = combine (skipn n a) (skipn n b).
Proof.
  revert a b. induction n as [| n IH]; intros a b; [reflexivity |].
  destruct a as [| x a]; [reflexivity |].
  destruct b as [| y b]; [simpl; now rewrite combine_nil |].
  simpl. apply IH.
Qed.

Lemma combine_slice {A B} (a : list A) (b : list B) (lo hi : nat) :
  combine (slice a lo hi) (slice b lo hi) = slice (combine a b) lo hi.
Proof. unfold slice. now rewrite combine_firstn, combine_skipn. Qed.

Lemma psd_window_ok (pressure loading pw lw : array) lim :
  psd_window pressure loading lim = Ok (pw, lw) ->
  pw = window_points pressure lim /\
  lw = slice loading (fst (psd_limits pressure lim)) (snd (psd_limits pressure lim)) /\
  3 <= length pw.
Proof.
  unfold psd_window, window_points.
  pose proof (psd_limits_le pressure lim) as [Hlo Hhi].
  destruct (psd_limits pressure lim) as [lo hi]. cbn [fst snd] in *.
  destruct (Z.ltb_spec (Z.of_nat hi - Z.of_nat lo) 3) as [Hfew | Hmany];
    [discriminate |].
  intros H. injection H as <- <-. repeat split.
  rewrite length_slice. lia.
Qed.

(** Property X12. The window cuts both series at the same two indices: the pairs
    (pressure, loading) handed to the kernel are the pairs of the isotherm
    between these indices, in their order, and there are at least three
    pressure points among them. *)
Theorem psd_window_keeps_pairs (pressure loading pw lw : array) lim :
  psd_window pressure loading lim = Ok (pw, lw) ->
  combine pw lw
  = slice (combine pressure loading)
          (fst (psd_limits pressure lim)) (snd (psd_limits pressure lim)) /\
  pw = window_points pressure lim /\
  3 <= length pw /\
  (length pressure = length loading -> length lw = length pw).
Proof.
  intros H. pose proof (psd_window_ok _ _ _ _ _ H) as (Hp & Hl & Hn).
  split; [| split; [exact Hp | split; [exact Hn |]]].
  - rewrite Hl, Hp. unfold window_points.
    destruct (psd_limits pressure lim) as [lo hi]. apply combine_slice.
  - intros Hlen. symmetry. eapply psd_window_lengths; eassumption.
Qed.

(** *** The number of points returned *)

Lemma not_hk_when_ry (m : string) :
  str_in m ["RY"; "RY-CY"]%string = true -> str_in m ["HK"; "HK-CY"]%string = false.
Proof.
  unfold str_in. cbn [existsb].
  destruct (String.eqb_spec m "RY") as [-> | _]; [reflexivity |].
  destruct (String.eqb_spec m "RY-CY") as [-> | _]; [reflexivity |].
  discriminate.
Qed.

Lemma psd_check_arguments_ok psd_model g branch model :
  psd_check_arguments psd_model g branch = Ok model -> psd_model = Some model.
Proof.
  unfold psd_check_arguments. destruct psd_model as [m |]; [| discriminate].
  destruct (negb (str_in m _MICRO_PSD_MODELS)); [discriminate |].
  destruct (negb (str_in g _PORE_GEOMETRIES)); [discriminate |].
  destruct (negb (str_in branch _)); [discriminate |].
  now intros [= ->].
Qed.

(** Property X13. For an isotherm whose series are aligned, a run that returns has found
    at least three points in the pressure window and returns at most one
    point less than the window holds; with the models RY and RY-CY, which
    cut nothing, it returns exactly one point less, so at least two. *)
Theorem psd_microporous_point_count isotherm psd_model g branch mat am lim verbose
  (w d v : array) :
  (forall p l : array, pressure isotherm branch = Some p ->
                       loading isotherm branch = Some l -> length p = length l) ->
  snd (psd_microporous isotherm psd_model g branch mat am lim verbose) = Ok (w, d, v) ->
  exists p n,
    pressure isotherm branch = Some p /\
    n = length (window_points (if String.eqb branch "des" then rev p else p) lim) /\
    3 <= n /\
    length w <= n - 1 /\
    (forall m, psd_model = Some m -> str_in m ["RY"; "RY-CY"]%string = true ->
               length w = n - 1).
Proof.
  intros Haligned H. unfold psd_microporous in H.
  apply io_bind_snd_ok in H as (model & Hc & H).
  apply io_bind_snd_ok in H as (ads_model & _ & H).
  apply io_bind_snd_ok in H as (mat_props & _ & H).
  apply io_bind_snd_ok in H as (series & Hs & H).
  apply io_bind_snd_ok in H as (window & Hw & H).
  apply io_bind_snd_ok in H as (psd & Hd & H).
  apply io_bind_snd_ok in H as (u & _ & H).
  cbn in H. injection H as ->. cbn [io_lift snd] in Hc, Hw, Hd.
  apply psd_read_branch_ok in Hs as (p & l & Hp & Hl & ->).
  specialize (Haligned p l Hp Hl).
  destruct window as [pw lw]. cbn [fst snd] in Hd.
  assert (Hlen : length (fst (if String.eqb branch "des" then (rev p, rev l) else (p, l)))
                 = length (snd (if String.eqb branch "des" then (rev p, rev l)
                                else (p, l))))
    by (destruct (String.eqb branch "des"); cbn [fst snd]; rewrite ?length_rev;
        exact Haligned).
  pose proof (psd_window_lengths _ _ _ _ _ Hlen Hw) as Hpl.
  apply psd_window_ok in Hw as (Hpw & _ & Hn).
  assert (Hpw' : pw = window_points (if String.eqb branch "des" then rev p else p) lim)
    by (rewrite Hpw; now destruct (String.eqb branch "des")).
  exists p, (length pw). split; [exact Hp |]. split; [now rewrite <- Hpw' |].
  split; [exact Hn |].
  apply psd_check_arguments_ok in Hc.
  unfold psd_dispatch in Hd. split.
  - destruct (str_in model ["HK"; "HK-CY"]%string).
    + apply psd_horvath_kawazoe_count in Hd. lia.
    + destruct (str_in model ["RY"; "RY-CY"]%string); [| discriminate].
      apply psd_horvath_kawazoe_ry_count in Hd; [lia | exact Hpl].
  - intros m Hm Hry. rewrite Hc in Hm. injection Hm as <-.
    rewrite (not_hk_when_ry _ Hry), Hry in Hd.
    apply psd_horvath_kawazoe_ry_count in Hd; [lia | exact Hpl].
Qed.

End DriverCalls.

Lemma mul_not_finite (x y : float) : is_finite x = false -> is_finite (x * y)%float = false.
Proof.
  destruct x as [a | s |], y as [b | t |]; simpl; intros H; try discriminate H;
    try reflexivity.
  now destruct (Float.Qc_is_zero b).
Qed.

Lemma div_by_zero_not_finite (x : float) (z : Qc) :
  z = 0%Qc -> is_finite (x / Fin z)%float = false.
Proof.
  intros ->. destruct x as [a | s |]; simpl; try reflexivity.
  now destruct (Float.Qc_is_zero a).
Qed.

(** Property X14. At the lower end of the search interval of the slit geometry,
    [l_pore = 2 * d_eff], the Horvath-Kawazoe potential divides by
    [l_pore - 2 * d_eff = 0]: with [numpy] floats this raises nothing, the
    potential returned there is infinite or [nan], whatever the constants. *)
Theorem hk_slit_potential_singular_at_bound
  (const_coeff sigma_p4_o3 sigma_p10_o9 const_term : float) (d : Qc) :
  exists u,
    hk_slit_potential const_coeff sigma_p4_o3 sigma_p10_o9 const_term (Fin d)
                      (#2 * Fin d)%float = Ok u /\
    is_finite u = false.
Proof.
  unfold hk_slit_potential. eexists. split; [reflexivity |].
  apply mul_not_finite.
  change (#2 * Fin d - #2 * Fin d)%float with (Fin (Q2Qc 2 * d + - (Q2Qc 2 * d))).
  apply div_by_zero_not_finite. ring.
Qed.

Section DriverLimits.

Context {L : NumLib}.

(** Property X15. A limit of the pressure range that is zero counts as not given
    ([if p_limits[0]:], [if p_limits[1]:]): with both limits zero the window
    is the whole series, not an empty one, and a series of at least three
    points passes unchanged. *)
Theorem zero_limits_are_no_limits (pressure loading : array) (z : float) :
  Float.is_zero z = true ->
  psd_limits pressure (Some (Some z, Some z)) = (0, length pressure) /\
  psd_window pressure loading (Some (Some z, Some z))
  = psd_window pressure loading (Some (None, None)) /\
  (3 <= length pressure -> length loading = length pressure ->
   psd_window pressure loading (Some (Some z, Some z)) = Ok (pressure, loading)).
Proof.
  intros Hz.
  assert (Hl : psd_limits pressure (Some (Some z, Some z)) = (0, length pressure)).
  { unfold psd_limits, limit_set, Float.truthy. cbn [fst snd]. now rewrite Hz. }
  split; [exact Hl |]. split.
  - unfold psd_window. now rewrite Hl.
  - intros Hn Hlen. unfold psd_window. rewrite Hl.
    destruct (Z.ltb_spec (Z.of_nat (length pressure) - Z.of_nat 0) 3) as [H | H];
      [lia |].
    unfold slice. rewrite <- Hlen at 2. now rewrite !firstn_all.
Qed.

End DriverLimits.

(** ** The isotherm models *)

Section ModelsIsothermProperties.

Variable name : model_class -> string.

Lemma str_in_map_find {A} (f : A -> string) (x : string) (l : list A) :
  str_in x (map f l) = true <->
  exists a, find (fun a => String.eqb x (f a)) l = Some a.
Proof.
  induction l as [| y l IH]; simpl.
  - split; [discriminate | intros [a H]; discriminate].
  - destruct (String.eqb x (f y)); simpl.
    + split; eauto.
    + exact IH.
Qed.

Lemma str_in_incl {A} (f : A -> string) (x : string) (l l' : list A) :
  incl l l' -> str_in x (map f l) = true -> str_in x (map f l') = true.
Proof.
  intros Hincl H. unfold str_in in *. apply existsb_exists in H as (s & Hs & Hx).
  apply existsb_exists. exists s. split; [| exact Hx].
  apply in_map_iff in Hs as (a & <- & Ha). apply in_map. now apply Hincl.
Qed.

Lemma iast_models_incl : incl _IAST_MODELS _MODELS.
Proof. intros m Hm. simpl in Hm. simpl. tauto. Qed.

(** Property X16. [get_isotherm_model] returns a class of [_MODELS] that carries the
    requested name, and it returns one exactly when some class of the list
    carries that name; otherwise it raises [ParameterError] with a message
    that names the request. *)
Theorem get_isotherm_model_finds_by_name (model_name : string) :
  (forall m, get_isotherm_model name model_name = Ok m ->
             In m _MODELS /\ name m = model_name) /\
  (str_in model_name (map name _MODELS) = true ->
   exists m, get_isotherm_model name model_name = Ok m) /\
  (str_in model_name (map name _MODELS) = false ->
   exists msg, get_isotherm_model name model_name = Raise (ParameterError [msg]) /\
               mentions msg model_name).
Proof.
  unfold get_isotherm_model. split; [| split].
  - intros m H.
    destruct (find _ _MODELS) as [m' |] eqn:E; [| discriminate].
    injection H as ->. apply find_some in E as [Hin Hn].
    split; [exact Hin |]. apply String.eqb_eq in Hn. now symmetry.
  - intros H. apply str_in_map_find in H as [m H]. rewrite H. eauto.
  - intros H. destruct (find _ _MODELS) as [m |] eqn:E.
    + assert (Ht : str_in model_name (map name _MODELS) = true)
        by (apply str_in_map_find; eauto).
      congruence.
    + eexists. split; [reflexivity |].
      exists "Model "%string. eexists. reflexivity.
Qed.

(** Property X17. Every model name that [is_iast_model] accepts is one that
    [get_isotherm_model] resolves, whatever the names of the classes: the
    models of [_IAST_MODELS] are all models of [_MODELS]. *)
Theorem iast_model_is_available (model_name : string) :
  is_iast_model name model_name = true ->
  exists m, get_isotherm_model name model_name = Ok m /\ name m = model_name.
Proof.
  intros H. unfold is_iast_model in H.
  apply (str_in_incl name _ _ _ iast_models_incl) in H.
  apply str_in_map_find in H as [m H].
  exists m. unfold get_isotherm_model. rewrite H. split; [reflexivity |].
  apply find_some in H as [_ Hn]. apply String.eqb_eq in Hn. now symmetry.
Qed.

Lemma find_unique (m : model_class) (l : list model_class) :
  (forall a b, name a = name b -> a = b) -> In m l ->
  find (fun a => String.eqb (name m) (name a)) l = Some m.
Proof.
  intros Hinj. induction l as [| x l IH]; intros Hin; [contradiction |].
  simpl. destruct (String.eqb_spec (name m) (name x)) as [E | E].
  - now rewrite (Hinj _ _ E).
  - destruct Hin as [-> | Hin]; [congruence | now apply IH].
Qed.

(** Property X18. When no two classes share a name, asking for the name of a class
    returns that class, and a name is accepted by [is_iast_model] exactly
    when its class is one of [_IAST_MODELS]: GAB, Virial, FHVST and WVST
    are available but not valid for IAST. *)
Theorem model_names_round_trip (m : model_class) :
  (forall a b, name a = name b -> a = b) ->
  get_isotherm_model name (name m) = Ok m /\
  (is_iast_model name (name m) = true <-> In m _IAST_MODELS) /\
  (In m [GAB; Virial; FHVST; WVST] -> is_iast_model name (name m) = false).
Proof.
  intros Hinj.
  assert (Hall : In m _MODELS) by (destruct m; simpl; tauto).
  assert (Hiff : is_iast_model name (name m) = true <-> In m _IAST_MODELS).
  { unfold is_iast_model. split.
    - intros H. apply str_in_map_find in H as [a H].
      apply find_some in H as [Hin Hn]. apply String.eqb_eq in Hn.
      now rewrite (Hinj _ _ Hn).
    - intros H. apply str_in_map_find. exists m. now apply find_unique. }
  split; [| split; [exact Hiff |]].
  - unfold get_isotherm_model. now rewrite (find_unique m _MODELS Hinj Hall).
  - intros Hin. apply not_true_is_false. intros E.
    apply Hiff in E. revert Hin E. clear.
    simpl. intuition (subst; discriminate).
Qed.

End ModelsIsothermProperties.

(** ** Computations with a trace *)

Lemma t_bind_snd {E A B} (c : traced E A) (k : A -> traced E B) :
  snd (t_bind c k) = match snd c with
                     | Ok a => snd (k a)
                     | Raise e => Raise e
                     end.
Proof.
  destruct c as [t [a | e]]; simpl; [| reflexivity]. now destruct (k a).
Qed.

Lemma t_bind_snd_ok {E A B} (c : traced E A) (k : A -> traced E B) (b : B) :
  snd (t_bind c k) = Ok b -> exists a, snd c = Ok a /\ snd (k a) = Ok b.
Proof.
  rewrite t_bind_snd. destruct (snd c) as [a | e]; [eauto | discriminate].
Qed.

(** ** Dictionaries *)

Lemma lookup_setitem_same (d : dict) (k : string) (v : float) :
  lookup k (setitem d k v) = Some v.
Proof.
  induction d as [| [k' v'] d IH]; simpl.
  - now rewrite String.eqb_refl.
  - destruct (String.eqb k k') eqn:E; simpl; rewrite E; [reflexivity | exact IH].
Qed.

Lemma entry_setitem_same (d : kwargs) (k : string) (v : option float) :
  entry k (setitem d k v) = Some v.
Proof.
  induction d as [| [k' v'] d IH]; simpl.
  - now rewrite String.eqb_refl.
  - destruct (String.eqb k k') eqn:E; simpl; rewrite E; [reflexivity | exact IH].
Qed.

Lemma entry_setitem_other (d : kwargs) (k k' : string) (v : option float) :
  k' <> k -> entry k' (setitem d k v) = entry k' d.
Proof.
  intros Hne. induction d as [| [k0 v0] d IH]; simpl.
  - destruct (String.eqb_spec k' k); [contradiction | reflexivity].
  - destruct (String.eqb_spec k k0) as [-> | Hk]; simpl.
    + destruct (String.eqb_spec k' k0); [contradiction | reflexivity].
    + destruct (String.eqb k' k0); [reflexivity | exact IH].
Qed.

(** After [d.update(other)] a key holds what the last entry of [other]
    with that key gives it, and otherwise what it held in [d]. *)
Lemma entry_update (d other : kwargs) (k : string) :
  entry k (update d other) = match entry k (rev other) with
                             | Some v => Some v
                             | None => entry k d
                             end.
Proof.
  unfold update. revert d.
  induction other as [| [k0 v0] other IH] using rev_ind; intros d; [reflexivity |].
  rewrite fold_left_app, rev_app_distr. cbn [fold_left rev app fst snd entry].
  destruct (String.eqb_spec k k0) as [-> | Hne].
  - apply entry_setitem_same.
  - rewrite (entry_setitem_other _ _ _ _ Hne). apply IH.
Qed.

Lemma entry_none (d : kwargs) (k : string) : ~ In k (map fst d) -> entry k d = None.
Proof.
  induction d as [| [k' v] d IH]; [reflexivity |]. simpl. intros H.
  destruct (String.eqb_spec k k') as [-> | Hne]; [tauto |]. apply IH. tauto.
Qed.

Lemma entry_app (d d' : kwargs) (k : string) :
  entry k (d ++ d') = match entry k d with Some v => Some v | None => entry k d' end.
Proof.
  induction d as [| [k' v] d IH]; [reflexivity |]. simpl.
  now destruct (String.eqb k k').
Qed.

Lemma entry_rev_nodup (d : kwargs) (k : string) :
  NoDup (map fst d) -> entry k (rev d) = entry k d.
Proof.
  induction d as [| [k' v] d IH]; [reflexivity |]. cbn [map fst rev]. intros H.
  inversion H as [| ? ? Hnin Hnd]; subst. rewrite entry_app, IH by exact Hnd.
  cbn [entry]. destruct (String.eqb_spec k k') as [-> | Hne].
  - now rewrite (entry_none d k' Hnin).
  - now destruct (entry k d).
Qed.

(** ** The initial enthalpy *)

Lemma ltb_irrefl (x : float) : (x <? x)%float = false.
Proof.
  destruct x as [q | s |]; simpl; [| now destruct s | reflexivity].
  unfold Float.Qc_ltb. now rewrite (proj1 (Qceq_alt q q) eq_refl).
Qed.

Lemma py_max2_not_below (a b : float) : (py_max2 a b <? b)%float = false.
Proof.
  unfold py_max2. destruct (a <? b)%float eqn:E; [apply ltb_irrefl | exact E].
Qed.

(** *** Deleting by position and filtering by value *)

Lemma in_filter_seq_ge {A} (f : nat * A -> bool) (s : nat) (l : list A) (i : nat) :
  In i (map fst (filter f (combine (seq s (length l)) l))) -> s <= i < s + length l.
Proof.
  intros H. apply in_map_iff in H as ([j x] & <- & H).
  apply filter_In in H as [H _]. apply in_combine_l in H. apply in_seq in H.
  simpl. lia.
Qed.

Lemma existsb_eqb_false (i : nat) (l : list nat) :
  ~ In i l -> existsb (Nat.eqb i) l = false.
Proof.
  intros H. apply not_true_is_false. intros E.
  apply existsb_exists in E as (j & Hj & Eq). apply Nat.eqb_eq in Eq. now subst.
Qed.

Lemma existsb_eqb_true (i : nat) (l : list nat) :
  In i l -> existsb (Nat.eqb i) l = true.
Proof.
  intros H. apply existsb_exists. exists i. split; [exact H | apply Nat.eqb_refl].
Qed.

Lemma delete_by_position {A} (bad : float -> bool) (e : array) (a : list A)
  (s : nat) (pre : list nat) :
  length a = length e ->
  (forall i, In i pre -> i < s) ->
  map snd (filter (fun p => negb (existsb (Nat.eqb (fst p))
                     (pre ++ map fst (filter (fun p => bad (snd p))
                                             (combine (seq s (length e)) e)))))
                  (combine (seq s (length a)) a))
  = map fst (filter (fun p => negb (bad (snd p))) (combine a e)).
Proof.
  revert a s pre. induction e as [| y e IH]; intros [| x a] s pre Hlen Hpre;
    try discriminate; [reflexivity |].
  injection Hlen as Hlen.
  cbn [length seq combine filter snd fst].
  assert (Hs : ~ In s pre) by (intros H; apply Hpre in H; lia).
  assert (Htail : ~ In s (map fst (filter (fun p => bad (snd p))
                                          (combine (seq (S s) (length e)) e)))).
  { intros H. apply in_filter_seq_ge in H. lia. }
  destruct (bad y) eqn:Ey; cbn [negb map fst].
  - rewrite existsb_eqb_true by (apply in_or_app; right; now left).
    cbn [negb].
    replace (pre ++ s :: map fst (filter (fun p => bad (snd p))
                                         (combine (seq (S s) (length e)) e)))
      with ((pre ++ [s]) ++ map fst (filter (fun p => bad (snd p))
                                            (combine (seq (S s) (length e)) e)))
      by now rewrite <- app_assoc.
    apply IH; [exact Hlen |].
    intros i Hi. apply in_app_or in Hi as [Hi | [<- | []]]; [apply Hpre in Hi |]; lia.
  - rewrite existsb_eqb_false
      by (intros H; apply in_app_or in H as [H | H]; contradiction).
    cbn [negb map snd fst]. f_equal.
    apply IH; [exact Hlen |]. intros i Hi. apply Hpre in Hi. lia.
Qed.

Lemma filter_combine_self (f : float -> bool) (e : array) :
  map fst (filter (fun p => f (snd p)) (combine e e)) = filter f e.
Proof.
  induction e as [| y e IH]; [reflexivity |].
  simpl. destruct (f y); simpl; now rewrite IH.
Qed.

Section EnthalpyData.

Import InitialEnthalpy.

Lemma outliers_in_range (e : array) :
  forallb (fun i => Nat.ltb i (length e)) (outliers e) = true.
Proof.
  apply forallb_forall. intros i Hi. unfold outliers, enumerate in Hi.
  apply in_filter_seq_ge in Hi. apply Nat.ltb_lt. lia.
Qed.

Lemma np_delete_outliers (a e : array) :
  length a = length e ->
  np_delete a (outliers e)
  = Ok (map fst (filter (fun p => plausible (snd p)) (combine a e))).
Proof.
  intros Hlen. unfold np_delete.
  assert (Hr : forallb (fun i => Nat.ltb i (length a)) (outliers e) = true)
    by (rewrite Hlen; apply outliers_in_range).
  rewrite Hr. f_equal. unfold outliers, enumerate.
  apply (delete_by_position (fun x => (x <? #0)%float || (#400 <? x)%float)
                            e a 0 [] Hlen).
  intros i [].
Qed.

Lemma no_outliers_all_plausible (e : array) :
  outliers e = [] -> filter plausible e = e.
Proof.
  unfold outliers, enumerate. generalize 0 as s.
  induction e as [| y e IH]; intros s H; [reflexivity |].
  cbn [length seq combine filter snd] in H. unfold plausible at 1. cbn [filter].
  destruct ((y <? #0)%float || (#400 <? y)%float); [discriminate H |].
  cbn [negb]. f_equal. now apply (IH (S s)).
Qed.

Lemma no_outliers_keep_all (a e : array) :
  length a = length e -> outliers e = [] ->
  map fst (filter (fun p => plausible (snd p)) (combine a e)) = a.
Proof.
  unfold outliers, enumerate. generalize 0 as s. revert e.
  induction a as [| x a IH]; intros [| y e] s Hlen H; try discriminate;
    [reflexivity |].
  injection Hlen as Hlen.
  cbn [length seq combine filter snd] in H |- *. unfold plausible at 1.
  destruct ((y <? #0)%float || (#400 <? y)%float); [discriminate H |].
  cbn [negb map fst]. f_equal. now apply (IH e (S s)).
Qed.

(** Property X19. The clean-up of [initial_enthalpy_comp] deletes by position and the
    outcome is a filter by value: of two aligned arrays it keeps exactly
    the points whose enthalpy is neither below 0 nor above 400, in their
    order and still aligned; a [nan] enthalpy is kept. *)
Theorem clean_keeps_plausible_points (loading enthalpy : array) :
  length loading = length enthalpy ->
  clean loading enthalpy
  = Ok (map fst (filter (fun p => plausible (snd p)) (combine loading enthalpy)),
        filter plausible enthalpy) /\
  plausible NaN = true.
Proof.
  intros Hlen. split; [| reflexivity]. unfold clean.
  destruct (outliers enthalpy) as [| i index] eqn:E.
  - cbn [length Nat.ltb Nat.leb].
    now rewrite (no_outliers_keep_all _ _ Hlen E), (no_outliers_all_plausible _ E).
  - cbn [length Nat.ltb Nat.leb]. rewrite <- E.
    rewrite (np_delete_outliers _ _ Hlen). cbn [bind].
    rewrite (np_delete_outliers enthalpy enthalpy eq_refl). cbn [bind].
    now rewrite filter_combine_self.
Qed.

(** *** [initial_enthalpy_point] *)

(** Property X20. [initial_enthalpy_point] returns the first point of the enthalpy
    column as it is stored, whatever its value; without the column it
    raises [ParameterError] and with an empty column [IndexError]. A call
    that is not verbose reads nothing but the column; a verbose call also
    needs the loading of the branch and raises [TypeError] without it. *)
Theorem initial_enthalpy_point_is_first_point (isotherm : PointIsotherm)
  (enthalpy_key branch : string) (verbose : bool) :
  (other_data isotherm enthalpy_key branch = None ->
   initial_enthalpy_point isotherm enthalpy_key branch verbose
   = ([CallOtherData enthalpy_key branch], Raise no_column)) /\
  (other_data isotherm enthalpy_key branch = Some [] ->
   initial_enthalpy_point isotherm enthalpy_key branch verbose
   = ([CallOtherData enthalpy_key branch], Raise IndexError)) /\
  (forall first rest,
      other_data isotherm enthalpy_key branch = Some (first :: rest) ->
      initial_enthalpy_point isotherm enthalpy_key branch false
      = ([CallOtherData enthalpy_key branch],
         Ok [("initial_enthalpy"%string, first)]) /\
      snd (initial_enthalpy_point isotherm enthalpy_key branch true)
      = match loading isotherm branch with
        | Some _ => Ok [("initial_enthalpy"%string, first)]
        | None => Raise TypeError
        end).
Proof.
  unfold initial_enthalpy_point. split; [| split].
  - intros H. now rewrite H.
  - intros H. now rewrite H.
  - intros first rest H. rewrite H. split; [reflexivity |].
    cbn. now destruct (loading isotherm branch).
Qed.

Context {L : NumLib} {F : FitLib}.

(** *** The loop over the guesses *)

Lemma fold_take (results : list (array * float)) st :
  fold_left take results st = last_accepted results st.
Proof.
  unfold last_accepted. revert st.
  induction results as [| r results IH] using rev_ind; intros st; [reflexivity |].
  rewrite fold_left_app, filter_app, rev_app_distr. cbn [fold_left filter].
  unfold take at 1. destruct (accepted r); cbn [rev app]; [reflexivity | apply IH].
Qed.

Lemma fit_guesses_fold objective bounds constraint verbose guesses results st :
  Forall2 (fun guess r => minimize objective guess bounds constraint verbose = Ok r)
          guesses results ->
  snd (t_foldM (fit_step objective bounds constraint verbose) guesses st)
  = Ok (fold_left take results st).
Proof.
  intros H. revert st. induction H as [| guess r guesses results Hr H IH]; intros st;
    [reflexivity |].
  cbn [t_foldM fold_left]. rewrite t_bind_snd.
  assert (Hstep : snd (fit_step objective bounds constraint verbose st guess)
                  = Ok (take st r)).
  { unfold fit_step, take, accepted. rewrite t_bind_snd.
    destruct verbose; cbn [print_if t_call t_ret snd]; rewrite t_bind_snd;
      cbn [t_lift snd]; rewrite Hr; now destruct (snd r <? Inf false)%float. }
  rewrite Hstep. apply IH.
Qed.

End EnthalpyData.

Lemma Forall2_of_ok {A B} (f : A -> result B) (d : B) (l : list A) :
  forallb (fun x => is_ok (f x)) l = true ->
  Forall2 (fun x y => f x = Ok y) l
          (map (fun x => match f x with Ok y => y | Raise _ => d end) l).
Proof.
  induction l as [| x l IH]; intros H; [constructor |].
  simpl in H. apply andb_true_iff in H as [Hx Hl].
  simpl. constructor; [| now apply IH].
  now destruct (f x).
Qed.

Section EnthalpyFit.

Import InitialEnthalpy.

Context {L : NumLib} {F : FitLib}.

(** Property X21. The loop over the starting guesses compares every residual with
    [min_fun], which stays [numpy.inf]: it keeps the outcome of the last
    guess whose residual is below infinity, not the one with the smallest
    residual. When the optimisations return, the loop ends with the last
    outcome taken, and a last guess with a finite residual always wins. *)
Theorem fit_guesses_keeps_last_guess (objective : array -> result float)
  (bounds : list (option float * option float)) (constraint : array -> result array)
  (verbose : bool) (guesses : list array) (results : list (array * float))
  (guess : array) (r : array * float) :
  Forall2 (fun guess r => minimize objective guess bounds constraint verbose = Ok r)
          guesses results ->
  minimize objective guess bounds constraint verbose = Ok r ->
  accepted r = true ->
  snd (fit_guesses objective bounds constraint verbose guesses)
  = Ok (last_accepted results (None, None)) /\
  snd (fit_guesses objective bounds constraint verbose (guesses ++ [guess]))
  = Ok (Some (fst r), Some (snd r)).
Proof.
  intros Hall Hr Hacc. unfold fit_guesses. split.
  - rewrite (fit_guesses_fold _ _ _ _ _ _ _ Hall). now rewrite fold_take.
  - assert (Hall' : Forall2
              (fun guess r => minimize objective guess bounds constraint verbose = Ok r)
              (guesses ++ [guess]) (results ++ [r])).
    { apply Forall2_app; [exact Hall | now repeat constructor]. }
    rewrite (fit_guesses_fold _ _ _ _ _ _ _ Hall'), fold_left_app.
    cbn [fold_left]. unfold take. now rewrite Hacc.
Qed.

(** *** The stages of [initial_enthalpy_comp] *)

Lemma initial_enthalpy_comp_snd isotherm enthalpy_key branch verbose param_guess
  (data : array * array) (cb : float * float) (guesses : list array)
  (results : list (array * float)) :
  snd (read_data isotherm enthalpy_key branch) = Ok data ->
  snd (constant_bounds isotherm (snd data)) = Ok cb ->
  start_guesses (snd data) (snd cb) = Ok guesses ->
  Forall2 (fun guess r =>
             minimize (residual_sum_of_squares initial_params (fst data) (snd data))
                      guess
                      (bounds_arr (update (default_bounds (fst cb) (snd cb))
                                          param_guess))
                      (maximize_constant (fst data)) verbose = Ok r)
          guesses results ->
  snd (initial_enthalpy_comp isotherm enthalpy_key branch verbose param_guess)
  = snd (finish_fit isotherm enthalpy_key branch verbose initial_params (snd data)
                    (last_accepted results (None, None))).
Proof.
  intros Hd Hc Hg Hr. unfold initial_enthalpy_comp.
  rewrite t_bind_snd, Hd. rewrite t_bind_snd, Hc.
  rewrite t_bind_snd.
  assert (Hp : snd (print_if verbose) = Ok tt) by now destruct verbose.
  rewrite Hp. rewrite t_bind_snd. cbn [t_lift snd]. rewrite Hg.
  rewrite t_bind_snd. unfold fit_guesses.
  rewrite (fit_guesses_fold _ _ _ _ _ _ _ Hr). now rewrite fold_take.
Qed.

Lemma none_accepted (results : list (array * float)) st :
  existsb accepted results = false -> last_accepted results st = st.
Proof.
  intros H. unfold last_accepted.
  assert (E : filter accepted results = []).
  { induction results as [| r results IH]; [reflexivity |].
    simpl in H |- *. apply orb_false_iff in H as [Hr H]. rewrite Hr. now apply IH. }
  now rewrite E.
Qed.

(** Property X22. When the data are read, the bounds of the constant found and the four
    optimisations return, but none with a residual below infinity (they
    are [inf] or [nan], as with an enthalpy of zero among the points),
    [initial_enthalpy_comp] raises [CalculationError]. *)
Theorem initial_enthalpy_comp_no_fit isotherm enthalpy_key branch verbose param_guess
  (data : array * array) (cb : float * float) (guesses : list array)
  (results : list (array * float)) :
  snd (read_data isotherm enthalpy_key branch) = Ok data ->
  snd (constant_bounds isotherm (snd data)) = Ok cb ->
  start_guesses (snd data) (snd cb) = Ok guesses ->
  Forall2 (fun guess r =>
             minimize (residual_sum_of_squares initial_params (fst data) (snd data))
                      guess
                      (bounds_arr (update (default_bounds (fst cb) (snd cb))
                                          param_guess))
                      (maximize_constant (fst data)) verbose = Ok r)
          guesses results ->
  existsb accepted results = false ->
  snd (initial_enthalpy_comp isotherm enthalpy_key branch verbose param_guess)
  = Raise fit_failed /\
  is_calculation_error
    (snd (initial_enthalpy_comp isotherm enthalpy_key branch verbose param_guess)).
Proof.
  intros Hd Hc Hg Hr Hnone.
  assert (E : snd (initial_enthalpy_comp isotherm enthalpy_key branch verbose
                     param_guess) = Raise fit_failed).
  { rewrite (initial_enthalpy_comp_snd _ _ _ _ _ _ _ _ _ Hd Hc Hg Hr).
    now rewrite (none_accepted _ _ Hnone). }
  split; [exact E |]. rewrite E. eexists. reflexivity.
Qed.

(** Property X23. [initial_enthalpy_comp] reads and scales the loading before it looks
    for the enthalpy column: without the branch it raises [TypeError], with
    an empty loading [ValueError], both before the column is asked for, and
    the [ParameterError] for a missing column comes only after a loading
    that is not empty. *)
Theorem initial_enthalpy_comp_reads_loading_first isotherm enthalpy_key branch verbose
  param_guess :
  (loading isotherm branch = None ->
   initial_enthalpy_comp isotherm enthalpy_key branch verbose param_guess
   = ([CallLoading branch], Raise TypeError)) /\
  (loading isotherm branch = Some [] ->
   initial_enthalpy_comp isotherm enthalpy_key branch verbose param_guess
   = ([CallLoading branch], Raise ValueError)) /\
  (forall x l, loading isotherm branch = Some (x :: l) ->
               other_data isotherm enthalpy_key branch = None ->
               initial_enthalpy_comp isotherm enthalpy_key branch verbose param_guess
               = ([CallLoading branch; CallOtherData enthalpy_key branch],
                  Raise no_column)).
Proof.
  unfold initial_enthalpy_comp, read_data. split; [| split].
  - intros H. now rewrite H.
  - intros H. now rewrite H.
  - intros x l Hl He. now rewrite Hl, He.
Qed.

(** *** The bounds *)

(** Property X24. The bounds handed to the optimiser without keyword arguments are all
    there and none is inverted: the upper bound of the constant,
    [max(enth_avg, const_min)], is never below the lower one, whatever the
    data and the enthalpy of liquefaction. *)
Theorem default_bounds_in_order isotherm (enthalpy : array) (cb : float * float) :
  snd (constant_bounds isotherm enthalpy) = Ok cb ->
  forallb bounds_in_order (bounds_arr (update (default_bounds (fst cb) (snd cb)) []))
  = true.
Proof.
  intros H.
  assert (Hcb : (snd cb <? fst cb)%float = false).
  { unfold constant_bounds in H.
    apply t_bind_snd_ok in H as (ads & _ & H).
    apply t_bind_snd_ok in H as (const_min & _ & H).
    cbn in H. injection H as <-. apply py_max2_not_below. }
  cbn. now rewrite Hcb.
Qed.

(** Property X25. A keyword argument replaces the bound of its name with its value,
    [None] included, and the other bounds keep their defaults: a bound
    handed to the optimiser is [None] exactly when its keyword was given as
    [None], so the seven pairs are all numbers when no keyword is [None]. *)
Theorem keyword_bounds_replace_defaults (const_min const_avg : float)
  (param_guess : kwargs) (k : string) :
  NoDup (map fst param_guess) ->
  entry k (update (default_bounds const_min const_avg) param_guess)
  = match entry k param_guess with
    | Some v => Some v
    | None => entry k (default_bounds const_min const_avg)
    end /\
  (In k (map fst (default_bounds const_min const_avg)) ->
   (dict_get (update (default_bounds const_min const_avg) param_guess) k = None
    <-> entry k param_guess = Some None)) /\
  ((forall name, entry name param_guess <> Some None) ->
   Forall (fun b => fst b <> None /\ snd b <> None)
          (bounds_arr (update (default_bounds const_min const_avg) param_guess))).
Proof.
  intros Hnd.
  assert (Hk : forall name,
             entry name (update (default_bounds const_min const_avg) param_guess)
             = match entry name param_guess with
               | Some v => Some v
               | None => entry name (default_bounds const_min const_avg)
               end).
  { intros name. now rewrite entry_update, entry_rev_nodup. }
  assert (Hget : forall name,
             In name (map fst (default_bounds const_min const_avg)) ->
             (dict_get (update (default_bounds const_min const_avg) param_guess) name
              = None <-> entry name param_guess = Some None)).
  { intros name Hin. unfold dict_get. rewrite Hk.
    destruct (entry name param_guess) as [[v |] |].
    - split; discriminate.
    - split; reflexivity.
    - cbn [default_bounds map fst] in Hin.
      repeat (destruct Hin as [<- | Hin]; [split; discriminate |]).
      destruct Hin. }
  split; [apply Hk |]. split; [apply Hget |].
  intros Hnone. unfold bounds_arr.
  repeat constructor; cbn [fst snd]; intros E; apply Hget in E;
    try (now apply Hnone in E); cbn; tauto.
Qed.

(** *** The outcome *)

Lemma point_value isotherm enthalpy_key branch verbose (first : float) rest l :
  other_data isotherm enthalpy_key branch = Some (first :: rest) ->
  loading isotherm branch = Some l ->
  snd (initial_enthalpy_point isotherm enthalpy_key branch verbose)
  = Ok [("initial_enthalpy"%string, first)].
Proof.
  intros He Hl. unfold initial_enthalpy_point. rewrite He.
  destruct verbose; cbn; [now rewrite Hl | reflexivity].
Qed.

(** Property X26. From the parameters of the fit the initial enthalpy is the model at a
    loading of zero; when that lies more than 50 away from the first point
    kept by the clean-up, the call falls back on [initial_enthalpy_point],
    which reads the column again: the initial enthalpy returned is then the
    first point as stored, even one that the clean-up had deleted. *)
Theorem offshoot_reverts_to_stored_first_point isotherm enthalpy_key branch verbose
  (params params' : dict) (enthalpy : array) (x : array) (f : option float)
  (approx first stored : float) (rest l : array) :
  set_params params x = Ok params' ->
  enthalpy_approx params' #0 = Ok approx ->
  item enthalpy 0 = Ok first ->
  other_data isotherm enthalpy_key branch = Some (stored :: rest) ->
  loading isotherm branch = Some l ->
  snd (finish_fit isotherm enthalpy_key branch verbose params enthalpy (Some x, f))
  = Ok (setitem params' "initial_enthalpy"
          (if (#50 <? py_abs (approx - first))%float then stored else approx)).
Proof.
  intros Hs Ha Hf He Hl. unfold finish_fit. cbn [fst].
  rewrite t_bind_snd.
  assert (Hp : snd (print_if verbose) = Ok tt) by now destruct verbose.
  rewrite Hp. rewrite t_bind_snd. cbn [t_lift snd]. rewrite Hs.
  rewrite t_bind_snd. cbn [t_lift snd]. rewrite Ha.
  rewrite t_bind_snd. cbn [t_lift snd]. rewrite Hf.
  rewrite t_bind_snd.
  assert (Hr : snd (report isotherm verbose) = Ok tt) by now destruct verbose.
  destruct (#50 <? py_abs (approx - first))%float.
  - rewrite t_bind_snd. cbn [t_call snd]. rewrite t_bind_snd.
    rewrite (point_value _ _ _ _ _ _ _ He Hl). cbn [t_lift snd getitem lookup].
    cbn. rewrite t_bind_snd, Hr. reflexivity.
  - cbn [t_ret snd]. rewrite t_bind_snd, Hr. reflexivity.
Qed.

End EnthalpyFit.

(** ** The claims on concrete inputs *)

Import Fixture.

(** C1: on an empty sequence [_solve_hk_cy] raises [IndexError], alone and
    inside the kernel. *)
Lemma solve_hk_cy_empty_sequence :
  _solve_hk_cy (L := lib) [] [] linear #1 = Raise IndexError /\
  psd_horvath_kawazoe (L := lib) [] [] #77 "slit" nitrogen carbon true
  = Raise IndexError.
Proof. split; vm_compute; reflexivity. Qed.

Lemma solvers_one_width_per_point_witness :
  exists n_max ws potential ws',
    last_item L2 = Ok n_max /\
    _solve_hk_cy (L := lib) P2 L2 linear #1 = Ok ws /\
    Forall2 (solved_cy_point (L := lib) linear #1 n_max) (combine P2 L2) ws /\
    length ws = 2 /\
    hk_objective (L := lib) linear #0.15 #2
    = Ok ((@exp lib (- #2) - #0.15) ** 2)%float /\
    hk_solve (L := lib) false P2 L2 potential (lower_bound "slit" (d_eff constants))
    = Ok ws'.
Proof.
  destruct (solvers_one_width_per_point (L := lib) P2 L2 linear #1)
    as (_ & _ & Hcy & Hobj & Hbound).
  destruct (Hcy ltac:(discriminate) eq_refl) as (n_max & Hlast & Hiff & Hlen).
  assert (Hok : is_ok (_solve_hk_cy (L := lib) P2 L2 linear #1) = true)
    by (vm_compute; reflexivity).
  destruct (_solve_hk_cy (L := lib) P2 L2 linear #1) as [ws | e] eqn:E;
    [| discriminate Hok].
  assert (Hok' : match hk_pore_widths (L := lib) P2 L2 "slit" constants false with
                 | Ok (Some _) => true
                 | _ => false
                 end = true) by (vm_compute; reflexivity).
  destruct (hk_pore_widths (L := lib) P2 L2 "slit" constants false)
    as [[widths |] | e] eqn:Ew; [| discriminate Hok' | discriminate Hok'].
  destruct (Hbound "slit"%string constants false widths (or_introl Ew))
    as (potential & ws' & Hsolve & _).
  exists n_max, ws, potential, ws'.
  split; [exact Hlast |]. split; [reflexivity |].
  split; [now apply Hiff |]. split; [now apply Hlen |].
  split; [exact (proj1 (Hobj #0.15 #1 #2 (- #2)%float eq_refl)) | exact Hsolve].
Defined.

(** C2: with solved widths 1, 2, 3 and a loading that decreases, the two
    differentiated points have the value -0.5, inside the band in absolute
    value, and both are cut. *)
Lemma hk_cut_drops_negative_values :
  exists points,
    hk_differentiate [#1; #2; #3] [#1.5; #1; #0.5] #1 #1000 = Ok points /\
    length (snd (fst points)) = 2 /\
    forallb (fun d => Float.eqb d #(-0.5)) (snd (fst points)) = true /\
    forallb in_abs_band (snd (fst points)) = true /\
    hk_cut points = Ok ([], [], []) /\
    hk_cut points <> Ok (keep_points in_abs_band points).
Proof.
  eexists. split; [reflexivity |]. split; [reflexivity |].
  split; [vm_compute; reflexivity |]. split; [vm_compute; reflexivity |].
  split; [vm_compute; reflexivity |].
  vm_compute. discriminate.
Qed.

Lemma hk_cuts_to_band_ry_does_not_witness :
  exists r points r',
    psd_horvath_kawazoe (L := lib) P3 L3 #77 "slit" nitrogen carbon false = Ok r /\
    r = keep_points in_band points /\
    psd_horvath_kawazoe_ry (L := lib) P3 L3 #77 "slit" nitrogen carbon false = Ok r' /\
    (#0 <? #1)%float = true.
Proof.
  destruct (hk_cuts_to_band_ry_does_not (L := lib) P3 L3 #77 "slit" nitrogen carbon false)
    as (Hhk & Hry & Hband).
  assert (Hok : is_ok (psd_horvath_kawazoe (L := lib) P3 L3 #77 "slit" nitrogen carbon
                         false) = true) by (vm_compute; reflexivity).
  assert (Hok' : is_ok (psd_horvath_kawazoe_ry (L := lib) P3 L3 #77 "slit" nitrogen
                          carbon false) = true) by (vm_compute; reflexivity).
  destruct (psd_horvath_kawazoe (L := lib) P3 L3 #77 "slit" nitrogen carbon false)
    as [r | e] eqn:E; [| discriminate Hok].
  destruct (psd_horvath_kawazoe_ry (L := lib) P3 L3 #77 "slit" nitrogen carbon false)
    as [r' | e] eqn:E'; [| discriminate Hok'].
  destruct (Hhk r eq_refl) as (c & widths & ld & mm & points & _ & _ & Hr).
  destruct (Hry r' eq_refl) as (c' & widths' & ld' & mm' & _ & _).
  exists r, points, r'.
  split; [reflexivity |]. split; [exact Hr |]. split; [reflexivity |].
  exact (proj2 (proj2 (Hband #1 eq_refl))).
Defined.

(** C4: for [psd_model=None] the message names neither the value nor the
    allowed models. *)
Lemma psd_model_none_message :
  exists msg,
    psd_microporous (L := lib) isotherm None "slit" "ads" (ModelName "Carbon(HK)")
                    None None false = ([], Raise (ParameterError [msg])) /\
    ~ mentions msg "None" /\ ~ mentions msg "RY".
Proof.
  eexists. split; [reflexivity |].
  split; intros H; apply mentions_contains in H; vm_compute in H; discriminate.
Qed.

Lemma psd_microporous_rejects_arguments_witness :
  (exists args,
     psd_microporous (L := lib) isotherm (Some "XX"%string) "slit" "ads"
                     (ModelName "Carbon(HK)") None None false
     = ([], Raise (ParameterError args)) /\ names args "XX" /\ names args "RY-CY") /\
  (exists args,
     psd_microporous (L := lib) isotherm (Some "HK"%string) "cube" "ads"
                     (ModelName "Carbon(HK)") None None false
     = ([], Raise (ParameterError args)) /\ names args "cube" /\ names args "sphere") /\
  (exists args,
     psd_microporous (L := lib) isotherm (Some "HK"%string) "slit" "both"
                     (ModelName "Carbon(HK)") None None false
     = ([], Raise (ParameterError args)) /\ names args "both" /\ names args "des").
Proof.
  split; [| split].
  - destruct (psd_microporous_rejects_arguments (L := lib) isotherm (Some "XX"%string)
                "slit" "ads" (ModelName "Carbon(HK)") None None false
                (or_introl eq_refl)) as (args & H & Hm & _ & _).
    exists args. split; [exact H |].
    destruct (Hm "XX"%string eq_refl eq_refl) as [Hv Hall].
    split; [exact Hv | apply Hall; simpl; auto].
  - destruct (psd_microporous_rejects_arguments (L := lib) isotherm (Some "HK"%string)
                "cube" "ads" (ModelName "Carbon(HK)") None None false
                (or_intror (or_introl eq_refl))) as (args & H & _ & Hg & _).
    exists args. split; [exact H |].
    destruct (Hg "HK"%string eq_refl eq_refl eq_refl) as [Hv Hall].
    split; [exact Hv | apply Hall; simpl; auto].
  - destruct (psd_microporous_rejects_arguments (L := lib) isotherm (Some "HK"%string)
                "slit" "both" (ModelName "Carbon(HK)") None None false
                (or_intror (or_intror eq_refl))) as (args & H & _ & _ & Hb).
    exists args. split; [exact H |].
    destruct (Hb "HK"%string eq_refl eq_refl eq_refl) as (Hv & _ & Hdes).
    split; [exact Hv | exact Hdes].
Defined.


Lemma psd_microporous_equal_lengths_witness :
  exists w d v : array,
    snd (psd_microporous (L := lib) isotherm (Some "HK"%string) "slit" "ads"
           (ModelName "Carbon(HK)") None None false) = Ok (w, d, v) /\
    length w = length d /\ length d = length v.
Proof.
  destruct (psd_microporous_equal_lengths (L := lib) isotherm (Some "HK"%string)
              "slit" "ads" (ModelName "Carbon(HK)") None None false)
    as (Hlen & Hrun).
  { intros p l Hp Hl. injection Hp as <-. injection Hl as <-. reflexivity. }
  assert (Hok : is_ok (psd_dispatch (L := lib) "HK" P3 L3 #77 "slit" nitrogen carbon)
                = true) by (vm_compute; reflexivity).
  destruct (psd_dispatch (L := lib) "HK" P3 L3 #77 "slit" nitrogen carbon)
    as [[[w d] v] | e] eqn:E; [| discriminate Hok].
  exists w, d, v.
  assert (Hret : snd (psd_microporous (L := lib) isotherm (Some "HK"%string) "slit"
                        "ads" (ModelName "Carbon(HK)") None None false)
                 = Ok (w, d, v)).
  { apply (Hrun "HK"%string _ nitrogen carbon
                ([#0.0001; #0.01; #0.15; #0.3; #0.5], [#1; #2; #3; #3.5; #3.8])
                (P3, L3) (w, d, v) eq_refl eq_refl eq_refl eq_refl eq_refl).
    exact E. }
  split; [exact Hret | exact (Hlen w d v Hret)].
Defined.

(** *** The Rege-Yang kernel in the sphere geometry *)







Lemma psd_microporous_branch_order_witness :
  exists pw lw : array,
    snd (psd_read_branch isotherm "des")
    = Ok (rev [#0.5; #0.3; #0.15; #0.01; #0.0001], rev [#3.8; #3.6; #3.1; #2.2; #1.1]) /\
    psd_window (rev [#0.5; #0.3; #0.15; #0.01; #0.0001])
               (rev [#3.8; #3.6; #3.1; #2.2; #1.1]) None = Ok (pw, lw) /\
    increasing pw /\
    snd (psd_microporous (L := lib) isotherm (Some "HK"%string) "slit" "des"
           (ModelName "Carbon(HK)") None None false)
    = psd_dispatch (L := lib) "HK" pw lw #77 "slit" nitrogen carbon.
Proof.
  destruct (psd_microporous_branch_order (L := lib) isotherm "des"
              [#0.5; #0.3; #0.15; #0.01; #0.0001] [#3.8; #3.6; #3.1; #2.2; #1.1]
              eq_refl eq_refl) as (Hread & Hrun & Hsorted).
  cbn [String.eqb Ascii.eqb Bool.eqb fst snd] in Hread, Hrun, Hsorted.
  assert (Hok : is_ok (psd_window (rev [#0.5; #0.3; #0.15; #0.01; #0.0001])
                                  (rev [#3.8; #3.6; #3.1; #2.2; #1.1]) None) = true)
    by (vm_compute; reflexivity).
  destruct (psd_window (rev [#0.5; #0.3; #0.15; #0.01; #0.0001])
                       (rev [#3.8; #3.6; #3.1; #2.2; #1.1]) None)
    as [[pw lw] | e] eqn:E; [| discriminate Hok].
  exists pw, lw. split; [exact Hread |]. split; [reflexivity |]. split.
  - apply (Hsorted None pw lw); [repeat constructor | exact E].
  - rewrite (Hrun (Some "HK"%string) "slit"%string (ModelName "Carbon(HK)") None None
                  false "HK"%string _ _ carbon eq_refl eq_refl eq_refl).
    rewrite E. reflexivity.
Defined.

(** C8: a zero susceptibility of the adsorbate makes the computation raise. *)
Lemma dispersion_zero_susceptibility :
  _dispersion_from_dict (L := lib)
    [("polarizability", #1.46e-3); ("magnetic_susceptibility", #0)]%string carbon
  = Raise ZeroDivisionError.
Proof. vm_compute. reflexivity. Qed.

Lemma dispersion_from_dict_value_witness :
  _dispersion_from_dict (L := lib) nitrogen carbon
  = Ok (kirkwood_muller_pair (L := lib) #1.46e-3 #2e-8 #1.02e-3 #1.35e-7).
Proof.
  rewrite (dispersion_from_dict_value (L := lib) nitrogen carbon
             #1.46e-3 #2e-8 #1.02e-3 #1.35e-7 eq_refl eq_refl eq_refl eq_refl).
  assert (Hreg : kirkwood_muller_singular #1.46e-3 #2e-8 #1.02e-3 #1.35e-7 = false)
    by (vm_compute; reflexivity).
  rewrite Hreg. reflexivity.
Defined.

Lemma iast_argument_checks_witness :
  is_parameter_error (iast (fun _ _ => Ok []) [tt] [#0.1]) /\
  is_parameter_error (iast (fun _ _ => Ok []) [tt; tt] [#0.1]) /\
  is_parameter_error
    (reverse_iast #1e-5 (fun _ _ _ => Ok ([], [])) [tt] [#0.1] #2) /\
  is_parameter_error
    (reverse_iast #1e-5 (fun _ _ _ => Ok ([], [])) [tt; tt] [#0.1] #2) /\
  is_parameter_error
    (reverse_iast #1e-5 (fun _ _ _ => Ok ([], [])) [tt; tt] [#0.1; #0.4] #2).
Proof.
  repeat split.
  - apply (proj1 (iast_argument_checks unit #1e-5 (fun _ _ => Ok [])
                    (fun _ _ _ => Ok ([], [])) [tt] [#0.1] [#0.1] #2)).
    left. simpl. lia.
  - apply (proj1 (iast_argument_checks unit #1e-5 (fun _ _ => Ok [])
                    (fun _ _ _ => Ok ([], [])) [tt; tt] [#0.1] [#0.1] #2)).
    right. simpl. lia.
  - apply (proj2 (iast_argument_checks unit #1e-5 (fun _ _ => Ok [])
                    (fun _ _ _ => Ok ([], [])) [tt] [#0.1] [#0.1] #2)).
    left. simpl. lia.
  - apply (proj2 (iast_argument_checks unit #1e-5 (fun _ _ => Ok [])
                    (fun _ _ _ => Ok ([], [])) [tt; tt] [#0.1] [#0.1] #2)).
    right. left. simpl. lia.
  - apply (proj2 (iast_argument_checks unit #1e-5 (fun _ _ => Ok [])
                    (fun _ _ _ => Ok ([], [])) [tt; tt] [#0.1] [#0.1; #0.4] #2)).
    right. right. vm_compute. reflexivity.
Defined.

(** C10: when the last loading is zero the last coverage is [nan], not 1. *)
Lemma coverage_zero_last_loading :
  exists coverage,
    coverage_of [#0.5; #0] = Ok coverage /\
    last_item coverage = Ok NaN /\
    last_item coverage <> Ok #1.
Proof.
  eexists. split; [reflexivity |]. split; [vm_compute; reflexivity |].
  vm_compute. discriminate.
Qed.

Lemma solve_hk_cy_last_coverage_witness :
  exists coverage w,
    coverage_of L2 = Ok coverage /\
    last_item coverage = Ok #1 /\
    @minimize_scalar lib (hk_cy_objective (L := lib) linear #0.15 #1) #1 #50 = Ok w.
Proof.
  destruct (solve_hk_cy_last_coverage (L := lib) P2 L2 linear #1 (Q2Qc 3) eq_refl)
    as (coverage & Hcov & Hlast & _ & _ & Hcall).
  - apply Qc_is_zero_false. reflexivity.
  - assert (Hok : is_ok (_solve_hk_cy (L := lib) P2 L2 linear #1) = true)
      by (vm_compute; reflexivity).
    destruct (_solve_hk_cy (L := lib) P2 L2 linear #1) as [ws | e] eqn:E;
      [| discriminate Hok].
    destruct (Hcall #0.15 ws eq_refl eq_refl eq_refl) as (w & _ & Hw).
    exists coverage, w. auto.
Defined.

(** ** The further properties on concrete inputs *)

Lemma kernels_need_known_geometry_witness :
  is_ok (psd_horvath_kawazoe (L := lib) P3 L3 #77 "cube" nitrogen carbon false) = false /\
  is_ok (psd_horvath_kawazoe_ry (L := lib) P3 L3 #77 "cube" nitrogen carbon true) = false.
Proof.
  split.
  - exact (proj1 (kernels_need_known_geometry (L := lib) P3 L3 #77 "cube" nitrogen
                    carbon false eq_refl)).
  - exact (proj1 (proj2 (kernels_need_known_geometry (L := lib) P3 L3 #77 "cube"
                           nitrogen carbon true eq_refl))).
Defined.

(** A width of 0.5 nm lies in the search interval of the solver, which
    starts at [d_eff] = 0.32 nm. *)
Lemma ry_potential_unbound_in_narrow_pores_witness :
  (d_eff constants <? #0.5)%float = true /\
  ry_cylinder_potential (L := lib) constants #0.5
  = Raise (UnboundLocalError "layer_population") /\
  hk_objective (L := lib) (ry_sphere_potential (L := lib) constants #1 #1) #0.01 #0.5
  = Raise (UnboundLocalError "layer_population").
Proof.
  destruct (ry_potential_unbound_in_narrow_pores (L := lib) constants #1 #1 #0.5 #0.01
              eq_refl eq_refl) as (Hcy & _ & _ & Hsp).
  split; [reflexivity |]. split; [exact Hcy | exact Hsp].
Defined.

Lemma cheng_yang_saturated_objective_witness :
  sf_corr (L := lib) #1 = Inf true /\
  hk_cy_objective (L := lib) linear #0.15 #1 #2 = Ok (Inf false).
Proof.
  exact (cheng_yang_saturated_objective (L := lib) linear #2 (- Q2Qc 2)%Qc (Q2Qc 0.15)
           eq_refl eq_refl eq_refl).
Defined.

Lemma kernels_zero_temperature_witness :
  psd_horvath_kawazoe (L := lib) P3 L3 #0 "slit" nitrogen carbon false
  = Raise ZeroDivisionError /\
  psd_horvath_kawazoe_ry (L := lib) P3 L3 #0 "sphere" nitrogen carbon true
  = Raise ZeroDivisionError.
Proof.
  assert (Hok : is_ok (_dispersion_from_dict (L := lib) nitrogen carbon) = true)
    by (vm_compute; reflexivity).
  destruct (_dispersion_from_dict (L := lib) nitrogen carbon) as [disp | e] eqn:E;
    [| discriminate Hok].
  split.
  - exact (proj1 (kernels_zero_temperature (L := lib) P3 L3 #0 "slit" nitrogen carbon
                    false #0.3 #0.34 #6.7e18 #3.845e19 disp
                    eq_refl eq_refl eq_refl eq_refl eq_refl eq_refl E)).
  - exact (proj2 (kernels_zero_temperature (L := lib) P3 L3 #0 "sphere" nitrogen carbon
                    true #0.3 #0.34 #6.7e18 #3.845e19 disp
                    eq_refl eq_refl eq_refl eq_refl eq_refl eq_refl E)).
Defined.

Lemma solve_hk_cy_zip_truncates_witness :
  _solve_hk_cy (L := lib) (P2 ++ [#0.3; #0.4]) L2 linear #1
  = _solve_hk_cy (L := lib) P2 L2 linear #1.
Proof.
  exact (proj1 (solve_hk_cy_zip_truncates (L := lib) P2 [#0.3; #0.4] L2 linear #1
                  eq_refl)).
Defined.

Lemma kernels_reject_unknown_keys_witness :
  exists msg,
    psd_horvath_kawazoe (L := lib) P3 L3 #77 "slit" nitrogen
                        (("porosity"%string, #0.5) :: carbon) false
    = Raise (ParameterError [msg]) /\
    psd_horvath_kawazoe_ry (L := lib) P3 L3 #77 "slit" nitrogen
                           (("porosity"%string, #0.5) :: carbon) false
    = Raise (ParameterError [msg]) /\
    mentions msg "porosity".
Proof.
  apply (kernels_reject_unknown_keys (L := lib) P3 L3 #77 "slit" nitrogen
           (("porosity"%string, #0.5) :: carbon) false "porosity").
  left. split; [now left | reflexivity].
Defined.

Lemma explicit_adsorbate_model_is_used_witness :
  psd_microporous (L := lib) isotherm (Some "HK"%string) "slit" "ads"
                  (ModelName "Carbon(HK)") (Some nitrogen) None false
  = psd_microporous (L := lib)
      {| adsorbate := None; temperature := #77;
         loading := loading isotherm; pressure := pressure isotherm |}
      (Some "HK"%string) "slit" "ads" (ModelName "Carbon(HK)") (Some nitrogen) None false.
Proof.
  exact (proj1 (explicit_adsorbate_model_is_used (L := lib) isotherm
                  {| adsorbate := None; temperature := #77;
                     loading := loading isotherm; pressure := pressure isotherm |}
                  (Some "HK"%string) "slit" "ads" (ModelName "Carbon(HK)") nitrogen None
                  false eq_refl eq_refl eq_refl)).
Defined.

Lemma psd_window_keeps_pairs_witness :
  exists pw lw : array,
    psd_window [#0.0001; #0.01; #0.15; #0.3; #0.5] [#1; #2; #3; #3.5; #3.8] None
    = Ok (pw, lw) /\
    combine pw lw
    = slice (combine [#0.0001; #0.01; #0.15; #0.3; #0.5] [#1; #2; #3; #3.5; #3.8]) 0 3 /\
    3 <= length pw.
Proof.
  assert (Hok : is_ok (psd_window [#0.0001; #0.01; #0.15; #0.3; #0.5]
                                  [#1; #2; #3; #3.5; #3.8] None) = true)
    by (vm_compute; reflexivity).
  destruct (psd_window [#0.0001; #0.01; #0.15; #0.3; #0.5] [#1; #2; #3; #3.5; #3.8] None)
    as [[pw lw] | e] eqn:E; [| discriminate Hok].
  exists pw, lw. split; [reflexivity |].
  destruct (psd_window_keeps_pairs _ _ _ _ _ E) as (Hpairs & _ & Hn & _).
  split; [exact Hpairs | exact Hn].
Defined.

Lemma psd_microporous_point_count_witness :
  exists w d v : array,
    snd (psd_microporous (L := lib) isotherm (Some "RY"%string) "slit" "ads"
           (ModelName "Carbon(HK)") None None false) = Ok (w, d, v) /\
    length w = 2.
Proof.
  assert (Hok : is_ok (snd (psd_microporous (L := lib) isotherm (Some "RY"%string)
                              "slit" "ads" (ModelName "Carbon(HK)") None None false))
                = true) by (vm_compute; reflexivity).
  destruct (snd (psd_microporous (L := lib) isotherm (Some "RY"%string) "slit" "ads"
                   (ModelName "Carbon(HK)") None None false))
    as [[[w d] v] | e] eqn:E; [| discriminate Hok].
  exists w, d, v. split; [reflexivity |].
  destruct (psd_microporous_point_count (L := lib) isotherm (Some "RY"%string) "slit"
              "ads" (ModelName "Carbon(HK)") None None false w d v)
    as (p & n & Hp & Hn & _ & _ & Hry).
  - intros p l Hp Hl. injection Hp as <-. injection Hl as <-. reflexivity.
  - exact E.
  - injection Hp as <-. rewrite (Hry "RY"%string eq_refl eq_refl), Hn. reflexivity.
Defined.

Lemma zero_limits_are_no_limits_witness :
  psd_window [#0.0001; #0.01; #0.15; #0.3; #0.5] [#1; #2; #3; #3.5; #3.8]
             (Some (Some #0, Some #0))
  = Ok ([#0.0001; #0.01; #0.15; #0.3; #0.5], [#1; #2; #3; #3.5; #3.8]).
Proof.
  apply (proj2 (proj2 (zero_limits_are_no_limits [#0.0001; #0.01; #0.15; #0.3; #0.5]
                         [#1; #2; #3; #3.5; #3.8] #0 eq_refl))).
  - simpl. lia.
  - reflexivity.
Defined.

Lemma class_name_injective (a b : model_class) : ModelsFixture.class_name a = ModelsFixture.class_name b -> a = b.
Proof. destruct a, b; intros H; try reflexivity; discriminate H. Qed.

Lemma iast_model_is_available_witness :
  exists m, get_isotherm_model ModelsFixture.class_name "Toth" = Ok m /\ ModelsFixture.class_name m = "Toth"%string.
Proof.
  exact (iast_model_is_available ModelsFixture.class_name "Toth" eq_refl).
Defined.

Lemma model_names_round_trip_witness :
  get_isotherm_model ModelsFixture.class_name (ModelsFixture.class_name GAB) = Ok GAB /\
  (is_iast_model ModelsFixture.class_name (ModelsFixture.class_name GAB) = true <-> In GAB _IAST_MODELS) /\
  (In GAB [GAB; Virial; FHVST; WVST] -> is_iast_model ModelsFixture.class_name (ModelsFixture.class_name GAB) = false).
Proof.
  exact (model_names_round_trip ModelsFixture.class_name GAB class_name_injective).
Defined.

(** *** The initial enthalpy *)

Lemma clean_keeps_plausible_points_witness :
  InitialEnthalpy.clean [#0.25; #0.5; #1] [#500; #20; #25]
  = Ok ([#0.5; #1], [#20; #25]).
Proof.
  exact (proj1 (clean_keeps_plausible_points [#0.25; #0.5; #1] [#500; #20; #25]
                  eq_refl)).
Defined.

(** With the points (0.5, 20) and (1, 25) and an optimiser that makes no
    step, the outcome kept is that of the fourth guess, although the second
    guess has the smaller residual. *)
Lemma fit_guesses_keeps_last_guess_witness :
  exists (x x' : array) (f f' : float),
    snd (InitialEnthalpy.fit_guesses (F := EnthalpyFixture.fit_lib)
           (InitialEnthalpy.residual_sum_of_squares (L := lib)
              (F := EnthalpyFixture.fit_lib) InitialEnthalpy.initial_params
              [#0.5; #1] [#20; #25])
           [] (fun _ => Ok []) false
           ([ [#22.5; #0; #0; #0; #1; #0; #1];
              [#22.5; #(-2.5); #0; #2.5; #1; #2.5; #1];
              [#22.5; #(-3.75); #(-10); #0.01; #3; #0; #1] ]
            ++ [ [#22.5; #0; #0; #0; #3; #(-0.01); #3] ]))
    = Ok (Some x, Some f) /\
    x = [#22.5; #0; #0; #0; #3; #(-0.01); #3] /\
    InitialEnthalpy.minimize (FitLib := EnthalpyFixture.fit_lib)
      (InitialEnthalpy.residual_sum_of_squares (L := lib)
         (F := EnthalpyFixture.fit_lib) InitialEnthalpy.initial_params
         [#0.5; #1] [#20; #25])
      [#22.5; #(-2.5); #0; #2.5; #1; #2.5; #1] [] (fun _ => Ok []) false
    = Ok (x', f') /\
    (f' <? f)%float = true.
Proof.
  pose (objective := InitialEnthalpy.residual_sum_of_squares (L := lib)
                       (F := EnthalpyFixture.fit_lib) InitialEnthalpy.initial_params
                       [#0.5; #1] [#20; #25]).
  pose (run := fun guess =>
                 InitialEnthalpy.minimize (FitLib := EnthalpyFixture.fit_lib)
                   objective guess [] (fun _ => Ok []) false).
  pose (guesses := [ [#22.5; #0; #0; #0; #1; #0; #1];
                     [#22.5; #(-2.5); #0; #2.5; #1; #2.5; #1];
                     [#22.5; #(-3.75); #(-10); #0.01; #3; #0; #1] ]).
  assert (Hall : forallb (fun g => is_ok (run g)) guesses = true)
    by (vm_compute; reflexivity).
  assert (Hok : is_ok (run [#22.5; #0; #0; #0; #3; #(-0.01); #3]) = true)
    by (vm_compute; reflexivity).
  assert (Hok' : is_ok (run [#22.5; #(-2.5); #0; #2.5; #1; #2.5; #1]) = true)
    by (vm_compute; reflexivity).
  destruct (run [#22.5; #0; #0; #0; #3; #(-0.01); #3]) as [[x f] | e] eqn:E;
    [| discriminate Hok].
  destruct (run [#22.5; #(-2.5); #0; #2.5; #1; #2.5; #1]) as [[x' f'] | e] eqn:E';
    [| discriminate Hok'].
  assert (Hx : x = [#22.5; #0; #0; #0; #3; #(-0.01); #3]).
  { unfold run, InitialEnthalpy.minimize, EnthalpyFixture.fit_lib,
      EnthalpyFixture.no_step in E.
    destruct (objective _); [| discriminate E]. cbn [bind] in E. congruence. }
  assert (Hacc : accepted (x, f) = true).
  { assert (H : match run [#22.5; #0; #0; #0; #3; #(-0.01); #3] with
                | Ok r => accepted r
                | Raise _ => false
                end = true) by (vm_compute; reflexivity).
    now rewrite E in H. }
  assert (Hlt : (f' <? f)%float = true).
  { assert (H : match run [#22.5; #(-2.5); #0; #2.5; #1; #2.5; #1],
                      run [#22.5; #0; #0; #0; #3; #(-0.01); #3] with
                | Ok r', Ok r => (snd r' <? snd r)%float
                | _, _ => false
                end = true) by (vm_compute; reflexivity).
    now rewrite E, E' in H. }
  exists x, x', f, f'.
  destruct (fit_guesses_keeps_last_guess (F := EnthalpyFixture.fit_lib)
              objective [] (fun _ => Ok []) false guesses _
              [#22.5; #0; #0; #0; #3; #(-0.01); #3] (x, f)
              (Forall2_of_ok run ([], NaN) guesses Hall) E Hacc) as [_ Hlast].
  split; [exact Hlast |]. split; [exact Hx |]. split; [exact E' | exact Hlt].
Defined.

(** An enthalpy of zero among the points makes every residual infinite. *)
Lemma initial_enthalpy_comp_no_fit_witness :
  is_calculation_error
    (snd (InitialEnthalpy.initial_enthalpy_comp (L := lib)
            (F := EnthalpyFixture.fit_lib) EnthalpyFixture.isotherm_zero
            "enthalpy" "ads" false [])).
Proof.
  pose (iso := EnthalpyFixture.isotherm_zero).
  pose (data := match snd (InitialEnthalpy.read_data iso "enthalpy" "ads") with
                | Ok d => d
                | Raise _ => ([], [])
                end).
  pose (cb := match snd (InitialEnthalpy.constant_bounds
                           (F := EnthalpyFixture.fit_lib) iso (snd data)) with
              | Ok c => c
              | Raise _ => (NaN, NaN)
              end).
  pose (guesses := match InitialEnthalpy.start_guesses (snd data) (snd cb) with
                   | Ok g => g
                   | Raise _ => []
                   end).
  pose (run := fun guess =>
                 InitialEnthalpy.minimize (FitLib := EnthalpyFixture.fit_lib)
                   (InitialEnthalpy.residual_sum_of_squares (L := lib)
                      (F := EnthalpyFixture.fit_lib) InitialEnthalpy.initial_params
                      (fst data) (snd data))
                   guess
                   (InitialEnthalpy.bounds_arr
                      (update (InitialEnthalpy.default_bounds (fst cb) (snd cb)) []))
                   (InitialEnthalpy.maximize_constant (L := lib)
                      (F := EnthalpyFixture.fit_lib) (fst data)) false).
  assert (Hall : forallb (fun g => is_ok (run g)) guesses = true)
    by (vm_compute; reflexivity).
  refine (proj2 (initial_enthalpy_comp_no_fit (L := lib) (F := EnthalpyFixture.fit_lib)
                   iso "enthalpy" "ads" false [] data cb guesses _
                   _ _ _ (Forall2_of_ok run ([], NaN) guesses Hall) _)).
  - vm_compute. reflexivity.
  - vm_compute. reflexivity.
  - vm_compute. reflexivity.
  - vm_compute. reflexivity.
Defined.

Lemma default_bounds_in_order_witness :
  exists cb,
    snd (InitialEnthalpy.constant_bounds (F := EnthalpyFixture.fit_lib)
           EnthalpyFixture.isotherm [#20; #25]) = Ok cb /\
    forallb bounds_in_order
      (InitialEnthalpy.bounds_arr
         (update (InitialEnthalpy.default_bounds (fst cb) (snd cb)) [])) = true.
Proof.
  assert (Hok : is_ok (snd (InitialEnthalpy.constant_bounds
                              (F := EnthalpyFixture.fit_lib)
                              EnthalpyFixture.isotherm [#20; #25])) = true)
    by (vm_compute; reflexivity).
  destruct (snd (InitialEnthalpy.constant_bounds (F := EnthalpyFixture.fit_lib)
                   EnthalpyFixture.isotherm [#20; #25])) as [cb | e] eqn:E;
    [| discriminate Hok].
  exists cb. split; [reflexivity |].
  exact (default_bounds_in_order (F := EnthalpyFixture.fit_lib)
           EnthalpyFixture.isotherm [#20; #25] cb E).
Defined.

(** With [const_min=None] and [preexp_max=100]: the first pair handed to
    the optimiser is [(None, 22.5)], the second [(0, 100)]. *)
Lemma keyword_bounds_replace_defaults_witness :
  entry "preexp_max"
    (update (InitialEnthalpy.default_bounds #17.5 #22.5)
            [("const_min"%string, None); ("preexp_max"%string, Some #100)])
  = Some (Some #100) /\
  dict_get
    (update (InitialEnthalpy.default_bounds #17.5 #22.5)
            [("const_min"%string, None); ("preexp_max"%string, Some #100)])
    "const_min"
  = None.
Proof.
  assert (Hnd : NoDup (map fst [("const_min"%string, @None float);
                                ("preexp_max"%string, Some #100)])).
  { repeat constructor; simpl; intros H; repeat destruct H as [H | H];
      try discriminate H; exact H. }
  split.
  - exact (proj1 (keyword_bounds_replace_defaults #17.5 #22.5
                    [("const_min"%string, None); ("preexp_max"%string, Some #100)]
                    "preexp_max" Hnd)).
  - apply (proj1 (proj2 (keyword_bounds_replace_defaults #17.5 #22.5
                    [("const_min"%string, None); ("preexp_max"%string, Some #100)]
                    "const_min" Hnd))).
    + simpl. auto.
    + reflexivity.
Defined.

(** The stored column starts with 500, which the clean-up deletes; a fit
    that ends at a constant of 200 is an offshoot against the first point
    kept, 20, and the initial enthalpy returned is 500. *)
Lemma offshoot_reverts_to_stored_first_point_witness :
  exists result,
    snd (InitialEnthalpy.finish_fit (L := lib) (F := EnthalpyFixture.fit_lib)
           EnthalpyFixture.isotherm "enthalpy" "ads" false
           InitialEnthalpy.initial_params [#20; #25]
           (Some [#200; #0; #0; #0; #1; #0; #1], Some #81.25))
    = Ok result /\
    lookup "initial_enthalpy" result = Some #500 /\
    plausible #500 = false.
Proof.
  pose (x := [#200; #0; #0; #0; #1; #0; #1]).
  pose (params' := match InitialEnthalpy.set_params InitialEnthalpy.initial_params x with
                   | Ok d => d
                   | Raise _ => []
                   end).
  pose (approx := match InitialEnthalpy.enthalpy_approx (L := lib)
                          (F := EnthalpyFixture.fit_lib) params' #0 with
                  | Ok a => a
                  | Raise _ => NaN
                  end).
  pose proof (offshoot_reverts_to_stored_first_point (L := lib)
                (F := EnthalpyFixture.fit_lib) EnthalpyFixture.isotherm
                "enthalpy" "ads" false InitialEnthalpy.initial_params params'
                [#20; #25] x (Some #81.25) approx #20 #500 [#20; #25] [#1; #2; #4]) as H.
  assert (Hoff : (#50 <? py_abs (approx - #20))%float = true)
    by (vm_compute; reflexivity).
  rewrite Hoff in H.
  eexists. split; [| split].
  - apply H; vm_compute; reflexivity.
  - apply lookup_setitem_same.
  - reflexivity.
Defined.
